(** * NEXUS scheduler extender: a shallow embedding and its properties

    The development follows the Go sources of the scheduler extender:
    the spike detector and the controller ([spike.go]), the dependency
    graph and the node scorer ([dependency.go]), the gang lifecycle
    manager ([gang.go]) and the metrics registry.

    Go values are modelled as follows: [int], [int64] and durations as
    [Z] with the 64-bit wrap-around written out ([wrap64]); [float64] as
    primitive binary64 floats; strings as byte strings; Go maps as
    [gmap]; nil-able pointers and maps as [option]; the Kubernetes and
    Prometheus clients as records of query results; [time.Now] as an
    oracle that is read and advanced ([Clock]). *)

From Stdlib Require Import ZArith String Ascii List Bool Lia.
From Stdlib Require PrimFloat.
From Stdlib Require Sorted.
From stdpp Require Import base option list strings gmap pretty.

Local Open Scope string_scope.
Local Open Scope Z_scope.

(* ===================================================================== *)
(** ** Machine integers *)
(* ===================================================================== *)

Module Int64.

Definition modulus : Z := 2 ^ 64.
Definition max_int64 : Z := 2 ^ 63 - 1.
Definition min_int64 : Z := - 2 ^ 63.

(** Two's complement wrap-around of a 64-bit signed result. *)
Definition wrap64 (z : Z) : Z := (z + 2 ^ 63) mod modulus - 2 ^ 63.

Definition in_range (z : Z) : Prop := min_int64 <= z <= max_int64.

Definition add (a b : Z) : Z := wrap64 (a + b).
Definition mul (a b : Z) : Z := wrap64 (a * b).
(** Go's [/] on integers truncates towards zero. *)
Definition div (a b : Z) : Z := wrap64 (a ÷ b).
(** [x++] *)
Definition incr (a : Z) : Z := wrap64 (a + 1).

End Int64.

(* ===================================================================== *)
(** ** The parts of Go's [strings] and [fmt] packages the sources use *)
(* ===================================================================== *)

Module GoStrings.

(** [strings.Split(s, sep)] for a one-byte separator.  The result is never
    empty: the empty string splits into one empty part. *)
Fixpoint Split (s : string) (sep : ascii) : list string :=
  match s with
  | EmptyString => [EmptyString]
  | String c rest =>
      if Ascii.eqb c sep then EmptyString :: Split rest sep
      else match Split rest sep with
           | [] => [String c EmptyString]
           | p :: ps => String c p :: ps
           end
  end.

(** [strings.Join(parts, sep)]. *)
Fixpoint Join (parts : list string) (sep : string) : string :=
  match parts with
  | [] => ""
  | [p] => p
  | p :: ps => p ++ sep ++ Join ps sep
  end.

(** The value of a byte. *)
Definition byteVal (c : ascii) : Z := Z.of_N (N_of_ascii c).

Definition RuneError : Z := 65533.
Definition RuneSelf : Z := 128.

(** [s[i:]] and [s[:i]] on bytes. *)
Fixpoint dropBytes (i : nat) (s : string) : string :=
  match i, s with
  | S i', String _ rest => dropBytes i' rest
  | _, _ => s
  end.

Fixpoint takeBytes (i : nat) (s : string) : string :=
  match i, s with
  | S i', String c rest => String c (takeBytes i' rest)
  | _, _ => EmptyString
  end.

(** [s[i]]; it is read within the string only. *)
Definition byteAt (s : string) (i : nat) : Z :=
  match dropBytes i s with
  | String c _ => byteVal c
  | EmptyString => 0
  end.

(** [utf8.DecodeRuneInString]: the rune the string starts with and its width
    in bytes; [(RuneError, 0)] for the empty string and [(RuneError, 1)] for
    an encoding that is not valid UTF-8.  The first byte decides the width
    and the range accepted for the second byte (the tables [first] and
    [acceptRanges] of package [utf8]). *)
Definition DecodeRuneInString (s : string) : Z * nat :=
  match s with
  | EmptyString => (RuneError, 0%nat)
  | String c0 r1 =>
      let s0 := byteVal c0 in
      if s0 <? RuneSelf then (s0, 1%nat)
      else if (s0 <? 194) || (244 <? s0) then (RuneError, 1%nat)
      else
        let sz := if s0 <? 224 then 2 else if s0 <? 240 then 3 else 4 in
        let lo := if s0 =? 224 then 160 else if s0 =? 240 then 144 else 128 in
        let hi := if s0 =? 237 then 159 else if s0 =? 244 then 143 else 191 in
        match r1 with
        | EmptyString => (RuneError, 1%nat)
        | String c1 r2 =>
            let s1 := byteVal c1 in
            if (s1 <? lo) || (hi <? s1) then (RuneError, 1%nat)
            else if sz <=? 2 then
              (Z.lor (Z.shiftl (Z.land s0 31) 6) (Z.land s1 63), 2%nat)
            else
              match r2 with
              | EmptyString => (RuneError, 1%nat)
              | String c2 r3 =>
                  let s2 := byteVal c2 in
                  if (s2 <? 128) || (191 <? s2) then (RuneError, 1%nat)
                  else if sz <=? 3 then
                    (Z.lor (Z.lor (Z.shiftl (Z.land s0 15) 12)
                                  (Z.shiftl (Z.land s1 63) 6))
                           (Z.land s2 63), 3%nat)
                  else
                    match r3 with
                    | EmptyString => (RuneError, 1%nat)
                    | String c3 _ =>
                        let s3 := byteVal c3 in
                        if (s3 <? 128) || (191 <? s3) then (RuneError, 1%nat)
                        else
                          (Z.lor (Z.lor (Z.lor (Z.shiftl (Z.land s0 7) 18)
                                               (Z.shiftl (Z.land s1 63) 12))
                                        (Z.shiftl (Z.land s2 63) 6))
                                 (Z.land s3 63), 4%nat)
                    end
              end
        end
  end.

(** [utf8.RuneStart]: the byte is not a continuation byte. *)
Definition RuneStart (b : Z) : bool := negb (Z.land b 192 =? 128).

(** The loop of [DecodeLastRuneInString] that walks back from [start] to the
    first byte that can start a rune, no further than [lim]; it makes at
    most four rounds. *)
Fixpoint lastRuneStart (fuel : nat) (s : string) (start lim : Z) : Z :=
  match fuel with
  | O => start
  | S fuel' =>
      if start <? lim then start
      else if RuneStart (byteAt s (Z.to_nat start)) then start
      else lastRuneStart fuel' s (start - 1) lim
  end.

(** [utf8.DecodeLastRuneInString]: the rune the string ends with and its
    width. *)
Definition DecodeLastRuneInString (s : string) : Z * nat :=
  let end_ := Z.of_nat (String.length s) in
  if end_ =? 0 then (RuneError, 0%nat)
  else
    let r := byteAt s (Z.to_nat (end_ - 1)) in
    if r <? RuneSelf then (r, 1%nat)
    else
      let lim := Z.max 0 (end_ - 4) in
      let start := lastRuneStart 4 s (end_ - 2) lim in
      let start := Z.max 0 start in
      let '(r, size) := DecodeRuneInString (dropBytes (Z.to_nat start) s) in
      if start + Z.of_nat size =? end_ then (r, size) else (RuneError, 1%nat).

(** [unicode.IsSpace]: in Latin-1 the six ASCII controls and blanks, U+0085
    and U+00A0; beyond it the property White_Space (U+1680, U+2000 to
    U+200A, U+2028, U+2029, U+202F, U+205F, U+3000). *)
Definition IsSpace (r : Z) : bool :=
  if r <=? 255 then
    ((9 <=? r) && (r <=? 13)) || (r =? 32) || (r =? 133) || (r =? 160)
  else
    (r =? 5760) || ((8192 <=? r) && (r <=? 8202)) || (r =? 8232) || (r =? 8233)
    || (r =? 8239) || (r =? 8287) || (r =? 12288).

(** [strings.TrimLeftFunc(s, unicode.IsSpace)]: drop runes from the front
    while they are white space; a round drops at least one byte. *)
Fixpoint trimLeftSpace (fuel : nat) (s : string) : string :=
  match fuel with
  | O => s
  | S fuel' =>
      let '(r, width) := DecodeRuneInString s in
      if (0 <? width)%nat && IsSpace r then trimLeftSpace fuel' (dropBytes width s)
      else s
  end.

Definition TrimLeftSpace (s : string) : string := trimLeftSpace (String.length s) s.

(** [lastIndexFunc(s, unicode.IsSpace, false)]: the index of the last rune
    that is not white space, scanning [s[0:i]] from its end; -1 when there
    is none. *)
Fixpoint lastIndexNotSpace (fuel : nat) (s : string) (i : nat) : Z :=
  match fuel with
  | O => -1
  | S fuel' =>
      if (i =? 0)%nat then -1
      else
        let '(r, size) := DecodeLastRuneInString (takeBytes i s) in
        let i' := (i - size)%nat in
        if negb (IsSpace r) then Z.of_nat i' else lastIndexNotSpace fuel' s i'
  end.

(** [strings.TrimRightFunc(s, unicode.IsSpace)]. *)
Definition TrimRightSpace (s : string) : string :=
  let i := lastIndexNotSpace (String.length s) s (String.length s) in
  if (0 <=? i) && (RuneSelf <=? byteAt s (Z.to_nat i)) then
    let '(_, wid) := DecodeRuneInString (dropBytes (Z.to_nat i) s) in
    takeBytes (Z.to_nat i + wid) s
  else takeBytes (Z.to_nat (i + 1)) s.

(** The table [asciiSpace] of package [strings]: tab, line feed, vertical
    tab, form feed, carriage return, space. *)
Definition asciiSpace (c : Z) : bool := ((9 <=? c) && (c <=? 13)) || (c =? 32).

(** The second loop of [strings.TrimSpace], on [s[start:stop]]: drop ASCII
    white space from the end, and hand over to the rune-aware trimming at
    the first byte that is not ASCII. *)
Fixpoint trimSpaceEnd (fuel : nat) (s : string) : string :=
  match fuel with
  | O => s
  | S fuel' =>
      match String.length s with
      | O => s
      | S last =>
          let c := byteAt s last in
          if RuneSelf <=? c then TrimRightSpace s
          else if asciiSpace c then trimSpaceEnd fuel' (takeBytes last s)
          else s
      end
  end.

(** [strings.TrimSpace]: the first loop drops ASCII white space from the
    front and hands over to the rune-aware trimming of both ends at the
    first byte that is not ASCII. *)
Fixpoint TrimSpace (s : string) : string :=
  match s with
  | EmptyString => EmptyString
  | String c rest =>
      if RuneSelf <=? byteVal c then TrimRightSpace (TrimLeftSpace s)
      else if asciiSpace (byteVal c) then TrimSpace rest
      else trimSpaceEnd (String.length s) s
  end.

(** All bytes of the string are below [utf8.RuneSelf]. *)
Fixpoint isASCII (s : string) : bool :=
  match s with
  | EmptyString => true
  | String c rest => (byteVal c <? RuneSelf) && isASCII rest
  end.

(** [strings.EqualFold], the loop over the bytes of both strings: equal
    bytes, or an upper-case ASCII letter and its lower-case form.  Go leaves
    this loop at the first byte that is not ASCII and goes on rune by rune
    with the case orbits of package [unicode]; those tables are not part of
    this development, so this definition is [strings.EqualFold] on strings
    for which [isASCII] holds, and the statements that depend on its answer
    assume as much. *)
Fixpoint EqualFold (s t : string) : bool :=
  match s, t with
  | EmptyString, EmptyString => true
  | String a s', String b t' =>
      let sr := byteVal a in
      let tr := byteVal b in
      if tr =? sr then EqualFold s' t'
      else
        let '(sr, tr) := if tr <? sr then (tr, sr) else (sr, tr) in
        if (65 <=? sr) && (sr <=? 90) && (tr =? sr + 32) then EqualFold s' t'
        else false
  | _, _ => false
  end.

(** [fmt.Sprintf("gang-%s-%d", name, n)]; [%d] prints a signed decimal. *)
Definition Sprintf_gang (name : string) (n : Z) : string :=
  "gang-" ++ name ++ "-" ++ pretty n.

End GoStrings.

(* ===================================================================== *)
(** ** Time *)
(* ===================================================================== *)

(** Wall-clock readings in nanoseconds.  Every call of [time.Now] reads the
    oracle at the current position and moves one position on, so that two
    calls need not see the same instant. *)
Record Clock := mkClock { ticks : nat; reading : nat -> Z }.

Definition Now (c : Clock) : Z * Clock :=
  (reading c (ticks c), {| ticks := S (ticks c); reading := reading c |}).

Definition second : Z := 1000000000.

(* ===================================================================== *)
(** ** Kubernetes objects and the inventory client *)
(* ===================================================================== *)

(** The fields of [v1.Pod] the extender reads.  A nil annotation map is
    [None]. *)
Record Pod := mkPod {
  pod_Name : string;
  pod_Annotations : option (gmap string string);
  pod_NodeName : string
}.

Record Taint := mkTaint { taint_Key : string; taint_Effect : string }.

Record NodeCondition := mkCondition { cond_Type : string; cond_Status : string }.

(** The fields of [v1.Node] the extender reads.  The two allocatable
    figures are what [Allocatable.Cpu().MilliValue()] and
    [Allocatable.Memory().Value()] return, both [int64]. *)
Record Node := mkNode {
  node_Name : string;
  node_Taints : list Taint;
  node_Conditions : list NodeCondition;
  alloc_CpuMilliValue : Z;
  alloc_MemoryValue : Z
}.

(** [clientset.CoreV1().Pods("").List]: the argument is the node named by
    the field selector [spec.nodeName=...] ([None]: no selector); the
    result is [None] when the call returns an error. *)
Record Clientset := mkClientset {
  ListPods : option string -> option (list Pod)
}.

(** An inventory that answers from a fixed list of pods. *)
Definition clusterOf (pods : list Pod) : Clientset :=
  {| ListPods := fun sel =>
       match sel with
       | None => Some pods
       | Some n => Some (filter (fun p => pod_NodeName p = n) pods)
       end |}.

(** An inventory whose list calls all fail. *)
Definition unreachableCluster : Clientset := {| ListPods := fun _ => None |}.

(* ===================================================================== *)
(** ** Metrics registry (counters and state label) *)
(* ===================================================================== *)

Module Metrics.

(** The counters of [NEXUSMetrics].  The four latency histograms of the
    registry are written by the operations below and read only by
    [/metrics]; they take no part in any decision and are left out. *)
Record NEXUSMetrics := mkMetrics {
  spikeEvents : Z;
  gangsFormed : Z;
  gangsDisssolved : Z;
  filterCalls : Z;
  prioritizeCalls : Z;
  stateChanges : Z;
  currentState : string
}.

Definition NewNEXUSMetrics : NEXUSMetrics :=
  {| spikeEvents := 0; gangsFormed := 0; gangsDisssolved := 0;
     filterCalls := 0; prioritizeCalls := 0; stateChanges := 0;
     currentState := "IDLE" |}.

(** The [switch] of [IncrementCounter]; an unknown name changes nothing. *)
Definition IncrementCounter (name : string) (m : NEXUSMetrics) : NEXUSMetrics :=
  if decide (name = "spike_events") then
    mkMetrics (Int64.incr (spikeEvents m)) (gangsFormed m) (gangsDisssolved m)
              (filterCalls m) (prioritizeCalls m) (stateChanges m) (currentState m)
  else if decide (name = "gangs_formed") then
    mkMetrics (spikeEvents m) (Int64.incr (gangsFormed m)) (gangsDisssolved m)
              (filterCalls m) (prioritizeCalls m) (stateChanges m) (currentState m)
  else if decide (name = "gangs_dissolved") then
    mkMetrics (spikeEvents m) (gangsFormed m) (Int64.incr (gangsDisssolved m))
              (filterCalls m) (prioritizeCalls m) (stateChanges m) (currentState m)
  else if decide (name = "filter_calls") then
    mkMetrics (spikeEvents m) (gangsFormed m) (gangsDisssolved m)
              (Int64.incr (filterCalls m)) (prioritizeCalls m) (stateChanges m) (currentState m)
  else if decide (name = "prioritize_calls") then
    mkMetrics (spikeEvents m) (gangsFormed m) (gangsDisssolved m)
              (filterCalls m) (Int64.incr (prioritizeCalls m)) (stateChanges m) (currentState m)
  else if decide (name = "state_changes") then
    mkMetrics (spikeEvents m) (gangsFormed m) (gangsDisssolved m)
              (filterCalls m) (prioritizeCalls m) (Int64.incr (stateChanges m)) (currentState m)
  else m.

Definition SetState (st : string) (m : NEXUSMetrics) : NEXUSMetrics :=
  mkMetrics (spikeEvents m) (gangsFormed m) (gangsDisssolved m)
            (filterCalls m) (prioritizeCalls m) (stateChanges m) st.

End Metrics.

(* ===================================================================== *)
(** ** Dependency graph ([dependency.go], first half) *)
(* ===================================================================== *)

Module DependencyGraph.
Import GoStrings.

Definition AnnotationDependsOn : string := "nexus.io/depends-on".
Definition AnnotationServiceGroup : string := "nexus.io/service-group".

Record RuntimeGroup := mkGroup {
  group_Name : string;
  group_Services : list string
}.

Record DependencyGraph := mkGraph {
  groups : list RuntimeGroup;
  built : bool
}.

Definition NewDependencyGraph : DependencyGraph :=
  {| groups := []; built := false |}.

(** The dictionary of [isKnownService]. *)
Definition known : gmap string bool :=
  list_to_map
    [ ("cartservice", true); ("paymentservice", true);
      ("checkoutservice", true); ("currencyservice", true);
      ("frontend", true); ("productcatalogservice", true);
      ("recommendationservice", true); ("emailservice", true);
      ("shippingservice", true); ("adservice", true);
      ("redis-cart", true); ("loadgenerator", true) ].

(** A missing key reads as [false]. *)
Definition isKnownService (name : string) : bool :=
  default false (known !! name).

(** [parts[:i]] joined by hyphens. *)
Definition joinPrefix (parts : list string) (i : nat) : string :=
  Join (take i parts) "-".

(** The loop [for i := len(parts)-1; i >= 2; i--] of [extractServiceName],
    entered at [i]: the first known candidate, if any. *)
Fixpoint tryCandidates (parts : list string) (i : nat) : option string :=
  match i with
  | O => None
  | S j =>
      if (2 <=? i)%nat then
        let candidate := joinPrefix parts i in
        if isKnownService candidate then Some candidate
        else tryCandidates parts j
      else None
  end.

Definition extractServiceName (podName : string) : string :=
  let parts := Split podName "-" in
  if (3 <=? length parts)%nat then
    match tryCandidates parts (length parts - 1) with
    | Some candidate => candidate
    | None => nth 0 parts ""
    end
  else if (0 <? length parts)%nat then nth 0 parts ""
  else podName.

(** [groupMap[groupName][svc] = true]; the inner map exists by then. *)
Definition addService (groupName svc : string)
    (groupMap : gmap string (gmap string bool)) : gmap string (gmap string bool) :=
  <[groupName := <[svc := true]> (default ∅ (groupMap !! groupName))]> groupMap.

(** The body of the loop over [pods.Items] in [BuildFromAnnotations]. *)
Definition scanPod (groupMap : gmap string (gmap string bool)) (pod : Pod)
    : gmap string (gmap string bool) :=
  match pod_Annotations pod with
  | None => groupMap
  | Some annotations =>
      let groupName := default "" (annotations !! AnnotationServiceGroup) in
      if decide (groupName = "") then groupMap
      else
        let serviceName := extractServiceName (pod_Name pod) in
        let groupMap1 :=
          match groupMap !! groupName with
          | Some _ => groupMap
          | None => <[groupName := ∅]> groupMap
          end in
        let groupMap2 := addService groupName serviceName groupMap1 in
        match annotations !! AnnotationDependsOn with
        | Some depsStr =>
            foldl (fun gm dep =>
                     let dep := TrimSpace dep in
                     if decide (dep = "") then gm else addService groupName dep gm)
                  groupMap2 (Split depsStr ",")
        | None => groupMap2
        end
  end.

(** Conversion of the group map to the slice of groups.  Go leaves the
    iteration order of a map open; the model iterates in the order of
    [map_to_list], one of the orders the program may take. *)
Definition groupsOfMap (groupMap : gmap string (gmap string bool)) : list RuntimeGroup :=
  map (fun '(name, services) =>
         {| group_Name := name; group_Services := map fst (map_to_list services) |})
      (map_to_list groupMap).

Definition experimentDefaults : list RuntimeGroup :=
  [ {| group_Name := "checkout-flow";
       group_Services := ["cartservice"; "paymentservice"; "checkoutservice"; "currencyservice"] |};
    {| group_Name := "product-browsing";
       group_Services := ["frontend"; "productcatalogservice"; "recommendationservice"] |} ].

Definition loadExperimentDefaults (dg : DependencyGraph) : DependencyGraph :=
  {| groups := experimentDefaults; built := built dg |}.

(** [BuildFromAnnotations]: [None] is the error of the list call, in which
    case the graph is left as it was. *)
Definition BuildFromAnnotations (cs : Clientset) (dg : DependencyGraph)
    : option DependencyGraph :=
  match ListPods cs None with
  | None => None
  | Some pods =>
      let groupMap := foldl scanPod ∅ pods in
      let dg1 := {| groups := groupsOfMap groupMap; built := built dg |} in
      let dg2 := if (length (groups dg1) =? 0)%nat then loadExperimentDefaults dg1 else dg1 in
      Some {| groups := groups dg2; built := true |}
  end.

Definition GetGroups (dg : DependencyGraph) : list RuntimeGroup := groups dg.

Definition IsBuilt (dg : DependencyGraph) : bool := built dg.

Definition Clear (dg : DependencyGraph) : DependencyGraph :=
  {| groups := []; built := false |}.

(** The inner loop of [GetGroup]: is the service listed in the group. *)
Fixpoint listsService (serviceName : string) (services : list string) : bool :=
  match services with
  | [] => false
  | svc :: rest =>
      if decide (svc = serviceName) then true else listsService serviceName rest
  end.

(** The outer loop of [GetGroup]: the first group, in the order of the
    slice, that lists the service. *)
Fixpoint findGroup (serviceName : string) (gs : list RuntimeGroup) : option RuntimeGroup :=
  match gs with
  | [] => None
  | g :: rest =>
      if listsService serviceName (group_Services g) then Some g
      else findGroup serviceName rest
  end.

Definition GetGroup (dg : DependencyGraph) (pod : Pod) : option RuntimeGroup :=
  findGroup (extractServiceName (pod_Name pod)) (groups dg).

Definition IsInGroup (dg : DependencyGraph) (pod : Pod) : bool :=
  match GetGroup dg pod with
  | Some _ => true
  | None => false
  end.

Definition GetGroupMembers (dg : DependencyGraph) (pod : Pod) : list string :=
  match GetGroup dg pod with
  | None => []
  | Some group => group_Services group
  end.

End DependencyGraph.

(* ===================================================================== *)
(** ** Gang lifecycle manager ([gang.go]) *)
(* ===================================================================== *)

Module Gangs.
Import GoStrings Metrics DependencyGraph.

Inductive GangStage :=
| GangStageNone
| GangStageDetected
| GangStageGraphBuilt
| GangStageFormed
| GangStageScheduling
| GangStageCooldown
| GangStageDissolved.

Record Gang := mkGang {
  ID : string;
  Members : list string;
  NodePrefs : gmap string Z;
  CreatedAt : Z;
  Stage : GangStage
}.

(** [activeGangs] holds the gangs themselves: each [*Gang] is reachable
    through this map only.  The [metrics] pointer of the Go struct is the
    registry of the scheduler; the operations that count take the registry
    and give it back. *)
Record GangManager := mkGangManager {
  activeGangs : gmap string Gang;
  serviceToGang : gmap string string;
  stage : GangStage
}.

Definition NewGangManager : GangManager :=
  {| activeGangs := ∅; serviceToGang := ∅; stage := GangStageNone |}.

Definition GetStage (gm : GangManager) : GangStage := stage gm.

Definition clearGangsLocked (gm : GangManager) : GangManager :=
  {| activeGangs := ∅; serviceToGang := ∅; stage := stage gm |}.

(** [for _, svc := range group.Services { gm.serviceToGang[svc] = gangID }] *)
Definition indexServices (gangID : string) (services : list string)
    (index : gmap string string) : gmap string string :=
  foldl (fun m svc => <[svc := gangID]> m) index services.

(** One round of the loop over [groups] in [FormGangs]: the identifier is
    made from the group name and a reading of the clock in nanoseconds,
    the creation time is a second reading. *)
Definition formGang (acc : GangManager * Clock) (group : RuntimeGroup)
    : GangManager * Clock :=
  let '(gm, clk) := acc in
  let '(nano, clk1) := Now clk in
  let gangID := Sprintf_gang (group_Name group) nano in
  let '(created, clk2) := Now clk1 in
  let gang := {| ID := gangID; Members := group_Services group;
                 NodePrefs := ∅; CreatedAt := created;
                 Stage := GangStageFormed |} in
  ({| activeGangs := <[gangID := gang]> (activeGangs gm);
      serviceToGang := indexServices gangID (group_Services group) (serviceToGang gm);
      stage := stage gm |}, clk2).

Definition FormGangs (groups : list RuntimeGroup)
    (st : GangManager * NEXUSMetrics * Clock) : GangManager * NEXUSMetrics * Clock :=
  let '(gm, m, clk) := st in
  let '(formStart, clk1) := Now clk in
  let gm1 := clearGangsLocked gm in
  let '(gm2, clk2) := foldl formGang (gm1, clk1) groups in
  let gm3 := {| activeGangs := activeGangs gm2;
                serviceToGang := serviceToGang gm2;
                stage := GangStageFormed |} in
  let '(formEnd, clk3) := Now clk2 in
  (gm3, IncrementCounter "gangs_formed" m, clk3).

(** A nil result is [None]; so is the lookup of an identifier that is not
    a key of [activeGangs]. *)
Definition GetGangForService (gm : GangManager) (serviceName : string) : option Gang :=
  match serviceToGang gm !! serviceName with
  | None => None
  | Some gangID => activeGangs gm !! gangID
  end.

Definition GetGangForPod (gm : GangManager) (pod : Pod) : option Gang :=
  GetGangForService gm (extractServiceName (pod_Name pod)).

Definition GetGangMembers (gm : GangManager) (pod : Pod) : option (list string) :=
  match GetGangForPod gm pod with
  | None => None
  | Some gang => Some (Members gang)
  end.

Definition UpdateNodePreference (serviceName nodeName : string) (gm : GangManager)
    : GangManager :=
  match serviceToGang gm !! serviceName with
  | None => gm
  | Some gangID =>
      match activeGangs gm !! gangID with
      | None => gm
      | Some gang =>
          let prefs := <[nodeName := Int64.incr (default 0 (NodePrefs gang !! nodeName))]>
                         (NodePrefs gang) in
          let gang' := {| ID := ID gang; Members := Members gang; NodePrefs := prefs;
                          CreatedAt := CreatedAt gang; Stage := Stage gang |} in
          {| activeGangs := <[gangID := gang']> (activeGangs gm);
             serviceToGang := serviceToGang gm;
             stage := stage gm |}
      end
  end.

Definition HasActiveGangs (gm : GangManager) : bool :=
  (0 <? size (activeGangs gm))%nat.

Definition GetActiveGangCount (gm : GangManager) : nat := size (activeGangs gm).

Definition DissolveAll (st : GangManager * NEXUSMetrics) : GangManager * NEXUSMetrics :=
  let '(gm, m) := st in
  let gangCount := size (activeGangs gm) in
  if (gangCount =? 0)%nat then (gm, m)
  else
    let gm1 := clearGangsLocked gm in
    ({| activeGangs := activeGangs gm1;
        serviceToGang := serviceToGang gm1;
        stage := GangStageDissolved |},
     IncrementCounter "gangs_dissolved" m).

Definition SetStage (st : GangStage) (gm : GangManager) : GangManager :=
  {| activeGangs := activeGangs gm; serviceToGang := serviceToGang gm; stage := st |}.

(** [GangStage.String] *)
Definition GangStage_String (s : GangStage) : string :=
  match s with
  | GangStageNone => "NONE"
  | GangStageDetected => "SPIKE_DETECTED"
  | GangStageGraphBuilt => "GRAPH_BUILT"
  | GangStageFormed => "GANG_FORMED"
  | GangStageScheduling => "SCHEDULING"
  | GangStageCooldown => "COOLDOWN"
  | GangStageDissolved => "DISSOLVED"
  end.

End Gangs.

(* ===================================================================== *)
(** ** Node scorer ([dependency.go], second half) *)
(* ===================================================================== *)

Module NodeScorer.
Import GoStrings DependencyGraph Gangs.

Record HostPriority := mkHostPriority { Host : string; Score : Z }.

(** The inner loop of [countGangMembersOnNode]: does the service name fold
    to some member of the gang (the loop breaks at the first one). *)
Fixpoint matchesMember (podService : string) (members : list string) : bool :=
  match members with
  | [] => false
  | gangMember :: rest =>
      if EqualFold podService gangMember then true
      else matchesMember podService rest
  end.

(** The counting loop over the pods listed on the node; [count] is an
    [int], 64 bits wide on the platforms the extender is built for. *)
Definition countMatching (members : list string) (pods : list Pod) : Z :=
  foldl (fun count pod =>
           if matchesMember (extractServiceName (pod_Name pod)) members
           then Int64.incr count else count)
        0 pods.

Definition countGangMembersOnNode (cs : Clientset) (node : Node) (gang : option Gang) : Z :=
  match gang with
  | None => 0
  | Some g =>
      if (length (Members g) =? 0)%nat then 0
      else match ListPods cs (Some (node_Name node)) with
           | None => 0
           | Some pods => countMatching (Members g) pods
           end
  end.

Definition calculateLocalityScore (cs : Clientset) (node : Node) (gang : option Gang) : Z :=
  let memberCount := countGangMembersOnNode cs node gang in
  Int64.mul memberCount 100.

Definition calculateResourceScore (node : Node) (pod : Pod) : Z :=
  let cpuMillis := alloc_CpuMilliValue node in
  let memBytes := alloc_MemoryValue node in
  let cpuScore := Int64.mul (Int64.div cpuMillis 100) 10 in
  let memScore := Int64.div memBytes (100 * 1024 * 1024) in
  let cpuScore := if 100 <? cpuScore then 100 else cpuScore in
  let memScore := if 50 <? memScore then 50 else memScore in
  Int64.add cpuScore memScore.

Definition scoreNode (cs : Clientset) (pod : Pod) (node : Node) (gang : option Gang) : Z :=
  let localityScore := calculateLocalityScore cs node gang in
  let resourceScore := calculateResourceScore node pod in
  Int64.add localityScore resourceScore.

Definition ScoreForExtender (cs : Clientset) (pod : Pod) (nodes : list Node)
    (gang : option Gang) : list HostPriority :=
  foldl (fun priorities node =>
           (priorities ++ [ {| Host := node_Name node;
                               Score := scoreNode cs pod node gang |} ])%list)
        [] nodes.

End NodeScorer.

(* ===================================================================== *)
(** ** Spike detector ([spike.go], first half) *)
(* ===================================================================== *)

Module SpikeDetector.
Import PrimFloat.

Record SpikeDetector := mkSpikeDetector {
  prometheusURL : string;
  qpsThreshold : PrimFloat.float;
  errorThreshold : PrimFloat.float;
  p95LatencyThreshold : PrimFloat.float;
  fallbackThreshold : Z
}.

(** The process environment as [NewSpikeDetector] reads it: the URL as
    [os.Getenv] returns it, and for each threshold variable the number
    [strconv.ParseFloat] makes of it ([None]: unset, empty or not a
    number). *)
Record Environ := mkEnviron {
  PROMETHEUS_URL : string;
  SPIKE_QPS_THRESHOLD : option PrimFloat.float;
  SPIKE_ERROR_THRESHOLD : option PrimFloat.float;
  SPIKE_P95_LATENCY_THRESHOLD : option PrimFloat.float
}.

Definition NewSpikeDetector (env : Environ) : SpikeDetector :=
  {| prometheusURL :=
       if decide (PROMETHEUS_URL env = "") then "http://prometheus-server.monitoring:80"
       else PROMETHEUS_URL env;
     qpsThreshold := default 1000%float (SPIKE_QPS_THRESHOLD env);
     errorThreshold := default 50%float (SPIKE_ERROR_THRESHOLD env);
     p95LatencyThreshold := default 500%float (SPIKE_P95_LATENCY_THRESHOLD env);
     fallbackThreshold := 5 |}.

(** The telemetry backend as one call of [Detect] finds it: the outcome of
    the liveness probe, and for each PromQL expression the number
    [queryPrometheus] returns ([None]: it returns an error). *)
Record Prometheus := mkPrometheus {
  isPrometheusReachable : bool;
  queryPrometheus : string -> option PrimFloat.float
}.

Definition queryQPS (p : Prometheus) : option PrimFloat.float :=
  queryPrometheus p "sum(rate(http_server_request_count[1m]))".

Definition queryErrorRate (p : Prometheus) : option PrimFloat.float :=
  queryPrometheus p
    (String.concat ""
       ["sum(rate(http_server_request_count{response_code=~"; String "034" "5..";
        String "034" "}[1m]))"]).

Definition queryP95Latency (p : Prometheus) : option PrimFloat.float :=
  queryPrometheus p
    "histogram_quantile(0.95, sum(rate(http_server_request_duration_seconds_bucket[1m])) by (le)) * 1000".

Definition checkHPAActivity (p : Prometheus) : option bool :=
  match queryPrometheus p "increase(kube_horizontalpodautoscaler_status_current_replicas[2m])" with
  | None => None
  | Some value => Some (PrimFloat.ltb 0%float value)
  end.

(** [x > threshold] on a reading, false when the query failed. *)
Definition exceeds (reading : option PrimFloat.float) (threshold : PrimFloat.float) : bool :=
  match reading with
  | None => false
  | Some x => PrimFloat.ltb threshold x
  end.

Definition Detect (sd : SpikeDetector) (p : Prometheus) (pendingPodCount : Z) : bool :=
  if negb (isPrometheusReachable p) then fallbackThreshold sd <=? pendingPodCount
  else if exceeds (queryQPS p) (qpsThreshold sd) then true
  else if exceeds (queryErrorRate p) (errorThreshold sd) then true
  else if exceeds (queryP95Latency p) (p95LatencyThreshold sd) then true
  else match checkHPAActivity p with
       | Some true => true
       | _ => false
       end.

End SpikeDetector.

(* ===================================================================== *)
(** ** The extender: state, endpoints and the two loops ([spike.go]) *)
(* ===================================================================== *)

Module Extender.
Import Metrics DependencyGraph Gangs NodeScorer SpikeDetector.

Definition cooldownDuration : Z := 30 * second.
Definition spikeCheckInterval : Z := 10 * second.

Inductive SchedulerState := StateIdle | StateActive.

Global Instance SchedulerState_eq_dec : EqDecision SchedulerState.
Proof. solve_decision. Defined.

Definition State_String (s : SchedulerState) : string :=
  match s with
  | StateIdle => "IDLE"
  | StateActive => "ACTIVE"
  end.

Record ExtenderArgs := mkArgs {
  arg_Pod : option Pod;
  arg_Nodes : option (list Node);
  arg_NodeNames : option (list string)
}.

Record ExtenderFilterResult := mkFilterResult {
  res_Nodes : option (list Node);
  res_NodeNames : option (list string);
  res_FailedNodes : gmap string string;
  res_Error : string
}.

(** What a handler writes: status 400 with a message, or status 200 with
    the encoded value. *)
Inductive Response (A : Type) :=
| BadRequest (msg : string)
| OK (body : A).
Arguments BadRequest {A} msg.
Arguments OK {A} body.

(** The registry [metrics] is the one the gang manager counts into. *)
Record NEXUSScheduler := mkScheduler {
  state : SchedulerState;
  lastSpikeTime : Z;
  spikeDetector : SpikeDetector;
  depGraph : DependencyGraph;
  gangManager : GangManager;
  metrics : NEXUSMetrics
}.

Definition NewNEXUSScheduler (env : Environ) : NEXUSScheduler :=
  {| state := StateIdle;
     lastSpikeTime := 0;
     spikeDetector := NewSpikeDetector env;
     depGraph := NewDependencyGraph;
     gangManager := NewGangManager;
     metrics := NewNEXUSMetrics |}.

Definition GetState (s : NEXUSScheduler) : SchedulerState := state s.

Definition SetState (st : SchedulerState) (s : NEXUSScheduler) : NEXUSScheduler :=
  if decide (state s = st) then s
  else {| state := st;
          lastSpikeTime := lastSpikeTime s;
          spikeDetector := spikeDetector s;
          depGraph := depGraph s;
          gangManager := gangManager s;
          metrics := IncrementCounter "state_changes"
                       (Metrics.SetState (State_String st) (metrics s)) |}.

Definition withMetrics (m : NEXUSMetrics) (s : NEXUSScheduler) : NEXUSScheduler :=
  {| state := state s; lastSpikeTime := lastSpikeTime s;
     spikeDetector := spikeDetector s; depGraph := depGraph s;
     gangManager := gangManager s; metrics := m |}.

Definition withGangManager (gm : GangManager) (s : NEXUSScheduler) : NEXUSScheduler :=
  {| state := state s; lastSpikeTime := lastSpikeTime s;
     spikeDetector := spikeDetector s; depGraph := depGraph s;
     gangManager := gm; metrics := metrics s |}.

Definition withDepGraph (dg : DependencyGraph) (s : NEXUSScheduler) : NEXUSScheduler :=
  {| state := state s; lastSpikeTime := lastSpikeTime s;
     spikeDetector := spikeDetector s; depGraph := dg;
     gangManager := gangManager s; metrics := metrics s |}.

Definition withLastSpikeTime (t : Z) (s : NEXUSScheduler) : NEXUSScheduler :=
  {| state := state s; lastSpikeTime := t;
     spikeDetector := spikeDetector s; depGraph := depGraph s;
     gangManager := gangManager s; metrics := metrics s |}.

(** [isNodeSchedulable] *)
Definition hasUnschedulableTaint (node : Node) : bool :=
  existsb (fun taint => bool_decide (taint_Key taint = "node.kubernetes.io/unschedulable"))
          (node_Taints node).

Definition isNodeSchedulable (node : Node) : bool :=
  if hasUnschedulableTaint node then false
  else existsb (fun condition =>
                  bool_decide (cond_Type condition = "Ready")
                  && bool_decide (cond_Status condition = "True"))
               (node_Conditions node).

Definition passThrough (args : ExtenderArgs) : ExtenderFilterResult :=
  {| res_Nodes := arg_Nodes args; res_NodeNames := None;
     res_FailedNodes := ∅; res_Error := "" |}.

(** First loop of the gang branch of [handleFilter]: the names of the
    candidate nodes on which a member of the gang is counted. *)
Definition nodesWithMembers (cs : Clientset) (gang : Gang) (items : list Node)
    : gmap string bool :=
  foldl (fun m node =>
           if 0 <? countGangMembersOnNode cs node (Some gang)
           then <[node_Name node := true]> m else m)
        ∅ items.

(** Second loop: the schedulable nodes in order, and the reasons for the
    others. *)
Definition keepSchedulable (items : list Node) : list Node * gmap string string :=
  foldl (fun '(eligibleNodes, failedNodes) node =>
           if isNodeSchedulable node
           then ((eligibleNodes ++ [node])%list, failedNodes)
           else (eligibleNodes, <[node_Name node := "Node not schedulable"]> failedNodes))
        ([], ∅) items.

(** [handleFilter].  The request is the decoded body ([None]: the body does
    not decode).  The handler counts the call and answers; its latency
    measurement goes with the histograms. *)
Definition handleFilter (cs : Clientset) (request : option ExtenderArgs)
    (s : NEXUSScheduler) : Response ExtenderFilterResult * NEXUSScheduler :=
  let s := withMetrics (IncrementCounter "filter_calls" (metrics s)) s in
  match request with
  | None => (BadRequest "decode error", s)
  | Some args =>
      if decide (GetState s = StateIdle) then (OK (passThrough args), s)
      else
        match arg_Pod args, arg_Nodes args with
        | Some pod, Some items =>
            match GetGangForPod (gangManager s) pod with
            | None => (OK (passThrough args), s)
            | Some gang =>
                let withMembers := nodesWithMembers cs gang items in
                let '(eligibleNodes, failedNodes) :=
                  if (0 <? size withMembers)%nat then keepSchedulable items
                  else (items, ∅) in
                (OK {| res_Nodes := Some eligibleNodes; res_NodeNames := None;
                       res_FailedNodes := failedNodes; res_Error := "" |}, s)
            end
        | _, _ => (OK (passThrough args), s)
        end
  end.

Definition zeroScores (items : list Node) : list HostPriority :=
  foldl (fun priorities node =>
           (priorities ++ [ {| Host := node_Name node; Score := 0 |} ])%list)
        [] items.

(** [handlePrioritize] *)
Definition handlePrioritize (cs : Clientset) (request : option ExtenderArgs)
    (s : NEXUSScheduler) : Response (list HostPriority) * NEXUSScheduler :=
  let s := withMetrics (IncrementCounter "prioritize_calls" (metrics s)) s in
  match request with
  | None => (BadRequest "decode error", s)
  | Some args =>
      if decide (GetState s = StateIdle) then
        (OK (match arg_Nodes args with
             | Some items => zeroScores items
             | None => []
             end), s)
      else
        match arg_Pod args, arg_Nodes args with
        | Some pod, Some items =>
            match GetGangForPod (gangManager s) pod with
            | None => (OK (zeroScores items), s)
            | Some gang => (OK (ScoreForExtender cs pod items (Some gang)), s)
            end
        | _, _ => (OK [], s)
        end
  end.

(** What one tick of a loop finds outside the process. *)
Record World := mkWorld {
  k8s : Clientset;
  prom : Prometheus
}.

(** [checkForSpike] *)
Definition checkForSpike (w : World) (st : NEXUSScheduler * Clock)
    : NEXUSScheduler * Clock :=
  let '(s, clk) := st in
  match GetState s with
  | StateIdle =>
      if Detect (spikeDetector s) (prom w) 0 then
        let '(activationStart, clk1) := Now clk in
        let gm1 := SetStage GangStageDetected (gangManager s) in
        let m1 := IncrementCounter "spike_events" (metrics s) in
        let gm2 := SetStage GangStageGraphBuilt gm1 in
        match BuildFromAnnotations (k8s w) (depGraph s) with
        | None => (withMetrics m1 (withGangManager gm2 s), clk1)
        | Some dg =>
            let groups := GetGroups dg in
            let '(gm3, m2, clk2) :=
              if (0 <? length groups)%nat then
                let '(gm, m, c) := FormGangs groups (gm2, m1, clk1) in
                (SetStage GangStageScheduling gm, m, c)
              else (gm2, m1, clk1) in
            let s1 := withMetrics m2 (withGangManager gm3 (withDepGraph dg s)) in
            let s2 := SetState StateActive s1 in
            let '(now, clk3) := Now clk2 in
            let s3 := withLastSpikeTime now s2 in
            let '(activationEnd, clk4) := Now clk3 in
            (s3, clk4)
        end
      else (s, clk)
  | StateActive => (s, clk)
  end.

(** [spikeWatcher]: [checkForSpike] at every tick, as long as ticks come. *)
Definition spikeWatcher (ticksSeen : list World) (st : NEXUSScheduler * Clock)
    : NEXUSScheduler * Clock :=
  foldl (fun st w => checkForSpike w st) st ticksSeen.

(** [time.Since(t)] at the instant [now]: a duration, held within the
    range of [int64]. *)
Definition Since (now t : Z) : Z :=
  Z.max Int64.min_int64 (Z.min Int64.max_int64 (now - t)).

(** The body of the ticker case of [cooldownChecker]. *)
Definition cooldownCheck (w : World) (st : NEXUSScheduler * Clock)
    : NEXUSScheduler * Clock :=
  let '(s, clk) := st in
  match GetState s with
  | StateActive =>
      let '(now, clk1) := Now clk in
      if cooldownDuration <? Since now (lastSpikeTime s) then
        if negb (Detect (spikeDetector s) (prom w) 0) then
          let gm1 := SetStage GangStageCooldown (gangManager s) in
          let '(gm2, m1) := DissolveAll (gm1, metrics s) in
          let dg := Clear (depGraph s) in
          let gm3 := SetStage GangStageNone gm2 in
          let s1 := withMetrics m1 (withGangManager gm3 (withDepGraph dg s)) in
          (SetState StateIdle s1, clk1)
        else
          let '(now', clk2) := Now clk1 in
          (withLastSpikeTime now' s, clk2)
      else (s, clk1)
  | StateIdle => (s, clk)
  end.

(** [cooldownChecker]: the check at every tick, as long as ticks come. *)
Definition cooldownChecker (ticksSeen : list World) (st : NEXUSScheduler * Clock)
    : NEXUSScheduler * Clock :=
  foldl (fun st w => cooldownCheck w st) st ticksSeen.

(** The fields of the snapshot [statusHandler] encodes; the time is left as
    the instant, without its RFC 3339 rendering. *)
Record Status := mkStatus {
  status_state : string;
  status_gangStage : string;
  status_activeGangs : nat;
  status_graphBuilt : bool;
  status_lastSpikeTime : Z
}.

Definition statusHandler (s : NEXUSScheduler) : Status :=
  {| status_state := State_String (GetState s);
     status_gangStage := GangStage_String (GetStage (gangManager s));
     status_activeGangs := GetActiveGangCount (gangManager s);
     status_graphBuilt := IsBuilt (depGraph s);
     status_lastSpikeTime := lastSpikeTime s |}.

End Extender.

(* ===================================================================== *)
(** ** Statements of the specification, written from its words *)
(* ===================================================================== *)

Module Spec.
Import GoStrings DependencyGraph Gangs NodeScorer Extender.

(** "Membership-testing their derived service identifiers against the gang
    member set": the identifier of the pod is one of the gang's members. *)
Definition isGangMember (gang : Gang) (pod : Pod) : bool :=
  bool_decide (extractServiceName (pod_Name pod) ∈ Members gang).

(** The letters of the ASCII alphabet, and a string with its upper-case
    ASCII letters replaced by the lower-case ones. *)
Definition upperLetters : list ascii := list_ascii_of_string "ABCDEFGHIJKLMNOPQRSTUVWXYZ".
Definition lowerLetters : list ascii := list_ascii_of_string "abcdefghijklmnopqrstuvwxyz".

Fixpoint lowerOf (c : ascii) (uppers lowers : list ascii) : ascii :=
  match uppers, lowers with
  | u :: uppers', l :: lowers' => if Ascii.eqb c u then l else lowerOf c uppers' lowers'
  | _, _ => c
  end.

Fixpoint lowerCase (s : string) : string :=
  match s with
  | EmptyString => EmptyString
  | String c rest => String (lowerOf c upperLetters lowerLetters) (lowerCase rest)
  end.

(** Membership up to the case of letters: the identifier of the pod and
    some member of the gang are the same once both are in lower case. *)
Definition isGangMemberAnyCase (gang : Gang) (pod : Pod) : bool :=
  bool_decide (lowerCase (extractServiceName (pod_Name pod)) ∈ map lowerCase (Members gang)).

(** "Count gang members currently running on the host": the pods the
    inventory lists for the host that pass the membership test; a failed
    list call counts as none. *)
Definition countBy (member : Gang -> Pod -> bool) (cs : Clientset) (gang : Gang)
    (node : Node) : Z :=
  match ListPods cs (Some (node_Name node)) with
  | Some pods => Z.of_nat (length (List.filter (member gang) pods))
  | None => 0
  end.

(** "Score per host = locality_score + resource_score" with the two capped
    resource terms, in integer arithmetic that rounds towards zero. *)
Definition scoreBy (member : Gang -> Pod -> bool) (cs : Clientset) (gang : Gang)
    (node : Node) : Z :=
  countBy member cs gang node * 100
  + Z.min (alloc_CpuMilliValue node ÷ 100 * 10) 100
  + Z.min (alloc_MemoryValue node ÷ (100 * 1024 * 1024)) 50.

(** The count and the score as the specification words them, with
    membership in the member set. *)
Definition memberCount : Clientset -> Gang -> Node -> Z := countBy isGangMember.
Definition score : Clientset -> Gang -> Node -> Z := scoreBy isGangMember.

(** The count and the score with membership up to the case of letters. *)
Definition memberCountAnyCase : Clientset -> Gang -> Node -> Z := countBy isGangMemberAnyCase.
Definition scoreAnyCase : Clientset -> Gang -> Node -> Z := scoreBy isGangMemberAnyCase.

(** The names in play are ASCII: the members of the gang and the names of
    the pods the inventory lists for the node.  On these [EqualFold] is
    Go's [strings.EqualFold]. *)
Definition plainNames (cs : Clientset) (gang : Gang) (node : Node) : Prop :=
  Forall (fun member => isASCII member = true) (Members gang)
  /\ match ListPods cs (Some (node_Name node)) with
     | Some pods => Forall (fun pod => isASCII (pod_Name pod) = true) pods
     | None => True
     end.

(** The inputs on which 64-bit arithmetic does not wrap: both allocatable
    figures are [int64] values and the pods listed on the node are fewer
    than 2^32. *)
Definition scorable (cs : Clientset) (node : Node) : Prop :=
  Int64.in_range (alloc_CpuMilliValue node)
  /\ Int64.in_range (alloc_MemoryValue node)
  /\ match ListPods cs (Some (node_Name node)) with
     | Some pods => Z.of_nat (length pods) < 2 ^ 32
     | None => True
     end.

(** "For every host scored by /prioritize for a workload in a gang, the
    returned score equals the count of gang members on the host times 100,
    plus ...": the answer to a request for [pod] over [items], while ACTIVE
    and with [pod] in a gang, is the score above for each host. *)
Definition scoresAsStated (cs : Clientset) (s : NEXUSScheduler) (pod : Pod)
    (items : list Node) : Prop :=
  forall gang : Gang,
    GetState s = StateActive ->
    GetGangForPod (gangManager s) pod = Some gang ->
    Forall (scorable cs) items ->
    fst (handlePrioritize cs
           (Some {| arg_Pod := Some pod; arg_Nodes := Some items; arg_NodeNames := None |}) s)
    = OK (map (fun node => {| Host := node_Name node; Score := score cs gang node |}) items).

(** The candidate hosts of a request: the hosts of its [nodes] field and
    the names of its [nodenames] field. *)
Definition candidateHosts (args : ExtenderArgs) : list string :=
  (map node_Name (default [] (arg_Nodes args)) ++ default [] (arg_NodeNames args))%list.

(** "The /filter endpoint returns the input candidate host list unchanged
    and the /prioritize endpoint returns score 0 for every candidate host":
    both fields that carry candidates come back as they were sent, no host
    is rejected, and every candidate host has an entry, each of score 0. *)
Definition noOpinion (cs : Clientset) (args : ExtenderArgs) (s : NEXUSScheduler) : Prop :=
  (exists result : ExtenderFilterResult,
      fst (handleFilter cs (Some args) s) = OK result
      /\ res_Nodes result = arg_Nodes args
      /\ res_NodeNames result = arg_NodeNames args
      /\ res_FailedNodes result = ∅)
  /\ (exists priorities : list HostPriority,
         fst (handlePrioritize cs (Some args) s) = OK priorities
         /\ map Host priorities = candidateHosts args
         /\ Forall (fun p => Score p = 0) priorities).

(** "For every valid request received while the controller state is DORMANT
    ...": a request that decodes, while the state is DORMANT. *)
Definition dormantNoOpinion (cs : Clientset) (args : ExtenderArgs) (s : NEXUSScheduler)
    : Prop :=
  GetState s = StateIdle -> noOpinion cs args s.

(** The hyphen-delimited components of a workload name, and its left-prefix
    of [i] components. *)
Definition components (name : string) : list string := Split name "-".

Definition leftPrefix (name : string) (i : nat) : string :=
  joinPrefix (components name) i.

(** [r] is "the longest left-prefix that matches the known-service
    dictionary, otherwise the first hyphen-delimited component", among the
    left-prefixes of 1 to [hi] components. *)
Definition longestKnownPrefix (name : string) (hi : nat) (r : string) : Prop :=
  (exists i : nat,
      (1 <= i <= hi)%nat
      /\ r = leftPrefix name i
      /\ isKnownService r = true
      /\ forall j : nat, (i < j <= hi)%nat -> isKnownService (leftPrefix name j) = false)
  \/ ((forall i : nat, (1 <= i <= hi)%nat -> isKnownService (leftPrefix name i) = false)
      /\ r = nth 0 (components name) "").

(** The derivation as the specification words it: every left-prefix is a
    candidate, the whole name included. *)
Definition derivesLongestPrefix (name : string) : Prop :=
  longestKnownPrefix name (length (components name)) (extractServiceName name).

(** The derivation over the left-prefixes that leave at least one component
    as suffix. *)
Definition derivesLongestProperPrefix (name : string) : Prop :=
  longestKnownPrefix name (length (components name) - 1) (extractServiceName name).

(** "Every service identifier appears in at most one active gang": two
    active gangs with different identifiers share no member. *)
Definition gangsDisjoint (gm : GangManager) : Prop :=
  forall (id1 id2 : string) (g1 g2 : Gang) (svc : string),
    id1 <> id2 ->
    activeGangs gm !! id1 = Some g1 -> activeGangs gm !! id2 = Some g2 ->
    svc ∈ Members g1 -> svc ∉ Members g2.

(** "The service-to-gang index is a partial function consistent with gang
    membership": a service is indexed to an identifier exactly when that
    identifier names an active gang of which the service is a member. *)
Definition indexConsistent (gm : GangManager) : Prop :=
  forall (svc id : string),
    serviceToGang gm !! svc = Some id
    <-> exists g : Gang, activeGangs gm !! id = Some g /\ svc ∈ Members g.

Definition oneGangPerService (gm : GangManager) : Prop :=
  gangsDisjoint gm /\ indexConsistent gm.

(** Lists of services of which no two share an element. *)
Fixpoint pairwiseDisjoint (lists : list (list string)) : Prop :=
  match lists with
  | [] => True
  | l :: rest =>
      Forall (fun l' => Forall (fun svc => svc ∉ l') l) rest
      /\ pairwiseDisjoint rest
  end.

Global Instance pairwiseDisjoint_dec (lists : list (list string)) :
  Decision (pairwiseDisjoint lists).
Proof. induction lists as [|l rest IH]; simpl; apply _. Defined.

(** "gangs_dissolved_total incremented by the number of gangs formed": for
    an activation out of [s0] and the cooldown check that brings the
    extender back to DORMANT, the counter grows by the number of gangs the
    activation left active. *)
Definition dissolvedCountsGangs (wUp wDown : World) (s0 : NEXUSScheduler)
    (clkUp clkDown : Clock) : Prop :=
  let s1 := fst (checkForSpike wUp (s0, clkUp)) in
  let s2 := fst (cooldownCheck wDown (s1, clkDown)) in
  GetState s0 = StateIdle -> GetState s1 = StateActive -> GetState s2 = StateIdle ->
  Metrics.gangsDisssolved (metrics s2)
  = Metrics.gangsDisssolved (metrics s1) + Z.of_nat (GetActiveGangCount (gangManager s1)).

End Spec.

(* ===================================================================== *)
(** ** Runs of the extender *)
(* ===================================================================== *)

Module Traces.
Import Metrics DependencyGraph Gangs NodeScorer SpikeDetector Extender.

(** The states of the extender: it starts from [NewNEXUSScheduler], and
    then polls, checks the cooldown and serves requests in any order, each
    against the world and the clock of its moment. *)
Inductive Reachable : NEXUSScheduler -> Prop :=
| reach_start (env : Environ) :
    Reachable (NewNEXUSScheduler env)
| reach_poll (w : World) (s : NEXUSScheduler) (clk : Clock) :
    Reachable s -> Reachable (fst (checkForSpike w (s, clk)))
| reach_cooldown (w : World) (s : NEXUSScheduler) (clk : Clock) :
    Reachable s -> Reachable (fst (cooldownCheck w (s, clk)))
| reach_filter (cs : Clientset) (request : option ExtenderArgs) (s : NEXUSScheduler) :
    Reachable s -> Reachable (snd (handleFilter cs request s))
| reach_prioritize (cs : Clientset) (request : option ExtenderArgs) (s : NEXUSScheduler) :
    Reachable s -> Reachable (snd (handlePrioritize cs request s)).

(** What holds of every such state. *)
Record coherent (s : NEXUSScheduler) : Prop := mkCoherent {
  coh_fallback : fallbackThreshold (spikeDetector s) = 5;
  coh_index : activeGangs (gangManager s) = ∅ -> serviceToGang (gangManager s) = ∅;
  coh_idle : state s = StateIdle ->
             activeGangs (gangManager s) = ∅
             /\ groups (depGraph s) = [] /\ built (depGraph s) = false;
  coh_active : state s = StateActive -> activeGangs (gangManager s) <> ∅
}.

(** The operations of the gang manager that may follow a formation. *)
Inductive GangOp :=
| OpUpdateNodePreference (serviceName nodeName : string)
| OpSetStage (st : GangStage)
| OpDissolveAll.

Definition runGangOp (op : GangOp) (st : GangManager * NEXUSMetrics)
    : GangManager * NEXUSMetrics :=
  match op with
  | OpUpdateNodePreference serviceName nodeName =>
      (UpdateNodePreference serviceName nodeName (fst st), snd st)
  | OpSetStage stg => (SetStage stg (fst st), snd st)
  | OpDissolveAll => DissolveAll st
  end.

Definition runGangOps (ops : list GangOp) (st : GangManager * NEXUSMetrics)
    : GangManager * NEXUSMetrics :=
  foldl (fun st op => runGangOp op st) st ops.

(** The identifiers and gangs that the loop of [FormGangs] makes of the
    groups, entered with the clock at [clk]. *)
Fixpoint plannedGangs (clk : Clock) (groups : list RuntimeGroup) : list (string * Gang) :=
  match groups with
  | [] => []
  | group :: rest =>
      let '(nano, clk1) := Now clk in
      let '(created, clk2) := Now clk1 in
      let gangID := GoStrings.Sprintf_gang (group_Name group) nano in
      (gangID, {| ID := gangID; Members := group_Services group; NodePrefs := ∅;
                  CreatedAt := created; Stage := GangStageFormed |})
      :: plannedGangs clk2 rest
  end.

(** Entering one planned gang into the two maps. *)
Definition installGang (gm : GangManager) (p : string * Gang) : GangManager :=
  {| activeGangs := <[fst p := snd p]> (activeGangs gm);
     serviceToGang := indexServices (fst p) (Members (snd p)) (serviceToGang gm);
     stage := stage gm |}.

(** Does the string hold a hyphen. *)
Fixpoint hasDash (s : string) : bool :=
  match s with
  | EmptyString => false
  | String c rest => Ascii.eqb c "-" || hasDash rest
  end.

(** A planned gang is fresh for a manager when its identifier is unused and
    it shares no member with an active gang. *)
Definition freshFor (gm : GangManager) (p : string * Gang) : Prop :=
  activeGangs gm !! fst p = None
  /\ forall (id : string) (g : Gang) (svc : string),
       activeGangs gm !! id = Some g -> svc ∈ Members g -> svc ∉ Members (snd p).

End Traces.

(* ===================================================================== *)
(** ** Invariants of the counters, the gauge and the memory *)
(* ===================================================================== *)

Module Invariants.
Import Metrics DependencyGraph Gangs SpikeDetector Extender.

(** What the registry and the memory of the extender obey between two
    operations: the gauge shows the state; formations are dissolutions plus
    the one in progress; state changes are formations plus dissolutions
    (counters taken as 64-bit values); DORMANT holds no gang, no index entry
    and a new graph; ACTIVE holds a gang and a built graph. *)
Record consistent (s : NEXUSScheduler) : Prop := mkConsistent {
  con_label : currentState (metrics s) = State_String (state s);
  con_formed :
    gangsFormed (metrics s)
    = match state s with
      | StateActive => Int64.incr (gangsDisssolved (metrics s))
      | StateIdle => gangsDisssolved (metrics s)
      end;
  con_changes :
    stateChanges (metrics s)
    = Int64.wrap64 (gangsFormed (metrics s) + gangsDisssolved (metrics s));
  con_idle :
    state s = StateIdle ->
    activeGangs (gangManager s) = ∅
    /\ serviceToGang (gangManager s) = ∅
    /\ depGraph s = NewDependencyGraph
    /\ (stage (gangManager s) = GangStageNone
        \/ stage (gangManager s) = GangStageGraphBuilt);
  con_active :
    state s = StateActive ->
    activeGangs (gangManager s) <> ∅
    /\ groups (depGraph s) <> []
    /\ built (depGraph s) = true
    /\ stage (gangManager s) = GangStageScheduling
}.

End Invariants.

(* ===================================================================== *)
(** ** What the pods declare and what the group map lists *)
(* ===================================================================== *)

Module Membership.
Import GoStrings DependencyGraph.

(** The group map lists the service under the group. *)
Definition lists (groupMap : gmap string (gmap string bool)) (groupName svc : string) : Prop :=
  exists services : gmap string bool,
    groupMap !! groupName = Some services /\ is_Some (services !! svc).

(** What a pod contributes to the scan: under the group its
    [service-group] annotation names (when not empty), its own service
    identifier and every non-empty trimmed element of its [depends-on]
    annotation. *)
Definition declares (pod : Pod) (groupName svc : string) : Prop :=
  exists annotations : gmap string string,
    pod_Annotations pod = Some annotations
    /\ annotations !! AnnotationServiceGroup = Some groupName
    /\ groupName <> ""
    /\ (svc = extractServiceName (pod_Name pod)
        \/ exists depsStr : string,
             annotations !! AnnotationDependsOn = Some depsStr
             /\ svc <> ""
             /\ exists dep : string, dep ∈ Split depsStr "," /\ svc = TrimSpace dep).

End Membership.

(* ===================================================================== *)
(** ** Latency histograms of the metrics registry *)
(* ===================================================================== *)

Module Histogram.
Import PrimFloat.

(** The loop of Go's [sort.Search(n, f)] between [i] and [j]: halve the
    interval until it is empty.  [fuel] bounds the rounds; [j - i] rounds
    are enough. *)
Fixpoint searchLoop (fuel : nat) (f : nat -> bool) (i j : nat) : nat :=
  match fuel with
  | O => i
  | S fuel' =>
      if (i <? j)%nat then
        let h := ((i + j) / 2)%nat in
        if negb (f h) then searchLoop fuel' f (h + 1)%nat j
        else searchLoop fuel' f i h
      else i
  end.

Definition Search (n : nat) (f : nat -> bool) : nat := searchLoop n f 0%nat n.

(** [sort.SearchFloat64s(a, x)]: [Search] with the test [a[i] >= x]. *)
Definition SearchFloat64s (a : list float) (x : float) : nat :=
  Search (length a) (fun i => leb x (nth i a 0%float)).

Record LatencyHistogram := mkHistogram {
  hist_name : string;
  hist_help : string;
  buckets : list float;
  counts : list Z;
  sum : float;
  count : Z
}.

Definition NewLatencyHistogram (name help : string) : LatencyHistogram :=
  let buckets := [1; 5; 10; 25; 50; 100; 250; 500; 1000; 5000]%float in
  {| hist_name := name; hist_help := help;
     buckets := buckets;
     counts := replicate (length buckets + 1) 0;
     sum := 0%float;
     count := 0 |}.

(** [counts[i]++]; [None] is the panic of an index out of range. *)
Definition bump (i : nat) (counts : list Z) : option (list Z) :=
  match counts !! i with
  | Some c => Some (<[i := Int64.incr c]> counts)
  | None => None
  end.

Definition Observe (ms : float) (h : LatencyHistogram) : option LatencyHistogram :=
  let idx := SearchFloat64s (buckets h) ms in
  match
    (if (idx <? length (buckets h))%nat && eqb (nth idx (buckets h) 0%float) ms
     then bump idx (counts h)
     else if (idx <? length (buckets h))%nat then bump idx (counts h)
     else bump (length (buckets h)) (counts h))
  with
  | Some counts' =>
      Some {| hist_name := hist_name h; hist_help := hist_help h;
              buckets := buckets h;
              counts := counts';
              sum := add (sum h) ms;
              count := Int64.incr (count h) |}
  | None => None
  end.

(** The numbers [WritePrometheus] prints, without their rendering as text:
    for each boundary the cumulative count, then the cumulative count of the
    [+Inf] line, the sum and the count. *)
Record Exposition := mkExposition {
  exp_buckets : list (float * Z);
  exp_inf : Z;
  exp_sum : float;
  exp_count : Z
}.

(** The loop over the boundaries, entered at index [i] with the cumulative
    count so far; it gives the lines and the cumulative count it ends with,
    or [None] where [counts[i]] is out of range. *)
Fixpoint bucketLines (i : nat) (cumulativeCount : Z) (boundaries : list float)
    (counts : list Z) : option (list (float * Z) * Z) :=
  match boundaries with
  | [] => Some ([], cumulativeCount)
  | boundary :: rest =>
      match counts !! i with
      | Some c =>
          let cumulativeCount := Int64.add cumulativeCount c in
          match bucketLines (S i) cumulativeCount rest counts with
          | Some (lines, last) => Some ((boundary, cumulativeCount) :: lines, last)
          | None => None
          end
      | None => None
      end
  end.

Definition WritePrometheus (h : LatencyHistogram) : option Exposition :=
  match bucketLines 0 0 (buckets h) (counts h) with
  | Some (lines, cumulativeCount) =>
      match counts h !! length (buckets h) with
      | Some c =>
          Some {| exp_buckets := lines;
                  exp_inf := Int64.add cumulativeCount c;
                  exp_sum := sum h;
                  exp_count := count h |}
      | None => None
      end
  | None => None
  end.

(** The histogram after the observations of a list, in order. *)
Fixpoint observeAll (observations : list float) (h : LatencyHistogram)
    : option LatencyHistogram :=
  match observations with
  | [] => Some h
  | ms :: rest =>
      match Observe ms h with
      | Some h' => observeAll rest h'
      | None => None
      end
  end.

(** The sum of the entries of [counts]. *)
Definition total (counts : list Z) : Z := foldr Z.add 0 counts.

(** What [Observe] keeps of a histogram that saw [n] observations. *)
Record sound (h : LatencyHistogram) (n : Z) : Prop := mkSound {
  sound_length : length (counts h) = S (length (buckets h));
  sound_nonneg : Forall (fun c => 0 <= c) (counts h);
  sound_total : total (counts h) = n;
  sound_count : count h = n
}.

End Histogram.

(* ===================================================================== *)
(** ** The gauge and the counters of [/metrics] *)
(* ===================================================================== *)

Module MetricsOutput.
Import Metrics.

(** The numbers [WriteAllMetrics] prints after the four histograms, one
    field per sample line, in the order of the lines. *)
Record MetricLines := mkMetricLines {
  nexus_scheduler_state : Z;
  nexus_spike_events_total : Z;
  nexus_gangs_formed_total : Z;
  nexus_gangs_dissolved_total : Z;
  nexus_filter_calls_total : Z;
  nexus_prioritize_calls_total : Z;
  nexus_state_changes_total : Z
}.

Definition WriteAllMetrics (m : NEXUSMetrics) : MetricLines :=
  let stateValue := if decide (currentState m = "ACTIVE") then 1 else 0 in
  {| nexus_scheduler_state := stateValue;
     nexus_spike_events_total := spikeEvents m;
     nexus_gangs_formed_total := gangsFormed m;
     nexus_gangs_dissolved_total := gangsDisssolved m;
     nexus_filter_calls_total := filterCalls m;
     nexus_prioritize_calls_total := prioritizeCalls m;
     nexus_state_changes_total := stateChanges m |}.

End MetricsOutput.

(* ===================================================================== *)
(** ** Concrete inventories, requests and telemetry used in the examples *)
(* ===================================================================== *)

Module SampleReadings.
Import PrimFloat.

Definition rps1500 : float := 1500%float.
Definition zero : float := 0%float.

(** Latencies in milliseconds, one of them on a boundary and one beyond the
    last boundary. *)
Definition latencies : list float := [0.5; 3; 5; 70; 9000]%float.

End SampleReadings.

Module Samples.
Import DependencyGraph Gangs NodeScorer SpikeDetector Extender.

Definition env0 : Environ :=
  {| PROMETHEUS_URL := ""; SPIKE_QPS_THRESHOLD := None;
     SPIKE_ERROR_THRESHOLD := None; SPIKE_P95_LATENCY_THRESHOLD := None |}.

(** Readings of the clock one nanosecond apart, from a start instant. *)
Definition clockFrom (start : Z) : Clock :=
  {| ticks := 0; reading := fun n => start + Z.of_nat n |}.

Definition t0 : Z := 1700000000 * second.

(** Telemetry: a request rate of 1500 per second; all quiet; backend down. *)
Definition promSpike : Prometheus :=
  {| isPrometheusReachable := true;
     queryPrometheus := fun _ => Some SampleReadings.rps1500 |}.

Definition promQuiet : Prometheus :=
  {| isPrometheusReachable := true;
     queryPrometheus := fun _ => Some SampleReadings.zero |}.

Definition promDown : Prometheus :=
  {| isPrometheusReachable := false; queryPrometheus := fun _ => None |}.

Definition ready : list NodeCondition := [ {| cond_Type := "Ready"; cond_Status := "True" |} ].

Definition cordoned : list Taint :=
  [ {| taint_Key := "node.kubernetes.io/unschedulable"; taint_Effect := "NoSchedule" |} ].

(** Three hosts; [h2] is small (400m CPU, 512Mi), the others are large. *)
Definition h1 : Node :=
  {| node_Name := "h1"; node_Taints := []; node_Conditions := ready;
     alloc_CpuMilliValue := 4000; alloc_MemoryValue := 16 * 1024 * 1024 * 1024 |}.

Definition h2 : Node :=
  {| node_Name := "h2"; node_Taints := []; node_Conditions := ready;
     alloc_CpuMilliValue := 400; alloc_MemoryValue := 512 * 1024 * 1024 |}.

Definition h3 : Node :=
  {| node_Name := "h3"; node_Taints := []; node_Conditions := ready;
     alloc_CpuMilliValue := 2000; alloc_MemoryValue := 8 * 1024 * 1024 * 1024 |}.

(** [h2] after [kubectl cordon]. *)
Definition h2cordoned : Node :=
  {| node_Name := "h2"; node_Taints := cordoned; node_Conditions := ready;
     alloc_CpuMilliValue := 400; alloc_MemoryValue := 512 * 1024 * 1024 |}.

(** One running pod of the payment service, on [h2], without annotations. *)
Definition peerPod : Pod :=
  {| pod_Name := "paymentservice-7d9f8c-x2k4q"; pod_Annotations := None;
     pod_NodeName := "h2" |}.

Definition cluster : Clientset := clusterOf [peerPod].

(** A new replica of the cart service waiting for placement. *)
Definition cartPod : Pod :=
  {| pod_Name := "cartservice-5b6c9d-abcde"; pod_Annotations := None;
     pod_NodeName := "" |}.

Definition request (items : list Node) : ExtenderArgs :=
  {| arg_Pod := Some cartPod; arg_Nodes := Some items; arg_NodeNames := None |}.

Definition sIdle : NEXUSScheduler := NewNEXUSScheduler env0.

(** Worlds of a tick: a spike with the inventory at hand; a spike while the
    inventory cannot be listed; no spike; the telemetry backend down. *)
Definition worldSpike : World := {| k8s := cluster; prom := promSpike |}.
Definition worldBroken : World := {| k8s := unreachableCluster; prom := promSpike |}.
Definition worldQuiet : World := {| k8s := cluster; prom := promQuiet |}.
Definition worldDown : World := {| k8s := cluster; prom := promDown |}.

(** The extender after one poll that saw the spike: no pod is annotated, so
    the two built-in groups become the gangs. *)
Definition activated : NEXUSScheduler * Clock :=
  checkForSpike {| k8s := cluster; prom := promSpike |} (sIdle, clockFrom t0).

Definition sActive : NEXUSScheduler := fst activated.

(** The gang of the checkout flow as that poll formed it. *)
Definition cartGang : Gang :=
  {| ID := "gang-checkout-flow-1700000000000000002";
     Members := ["cartservice"; "paymentservice"; "checkoutservice"; "currencyservice"];
     NodePrefs := ∅; CreatedAt := t0 + 3; Stage := GangStageFormed |}.

(** Two annotated pods of different groups that both depend on the currency
    service, and the extender after the poll that saw the spike over them. *)
Definition browsePod : Pod :=
  {| pod_Name := "frontend-6c8d7f-aaaaa";
     pod_Annotations :=
       Some {[ "nexus.io/service-group" := "browse";
               "nexus.io/depends-on" := "productcatalogservice, currencyservice" ]};
     pod_NodeName := "h1" |}.

Definition checkoutPod : Pod :=
  {| pod_Name := "checkoutservice-5f4b9c-bbbbb";
     pod_Annotations :=
       Some {[ "nexus.io/service-group" := "checkout";
               "nexus.io/depends-on" := "paymentservice, currencyservice" ]};
     pod_NodeName := "h2" |}.

Definition sOverlap : NEXUSScheduler :=
  fst (checkForSpike {| k8s := clusterOf [browsePod; checkoutPod]; prom := promSpike |}
         (sIdle, clockFrom t0)).

(** A pod whose dependencies are written with a no-break space (U+00A0)
    before the first and an ideographic space (U+3000) after the second. *)
Definition spacedPod : Pod :=
  {| pod_Name := "checkoutservice-5f4b9c-ccccc";
     pod_Annotations :=
       Some {[ "nexus.io/service-group" := "checkout";
               "nexus.io/depends-on" :=
                 String "194" (String "160" "paymentservice")
                 ++ ", currencyservice"
                 ++ String "227" (String "128" (String "128" "")) ]};
     pod_NodeName := "h2" |}.

(** A request that carries its candidates by name only. *)
Definition namesRequest : ExtenderArgs :=
  {| arg_Pod := Some cartPod; arg_Nodes := None; arg_NodeNames := Some ["h1"; "h2"; "h3"] |}.

(** An annotated pod of the cart service that names the payment service
    with capitals, the cluster of that pod and the payment pod on [h2], the
    extender after the poll that saw the spike over them, and the gang that
    poll formed. *)
Definition capitalsPod : Pod :=
  {| pod_Name := "cartservice-5b6c9d-zzzzz";
     pod_Annotations :=
       Some {[ "nexus.io/service-group" := "checkout";
               "nexus.io/depends-on" := "PaymentService" ]};
     pod_NodeName := "h1" |}.

Definition capitalsCluster : Clientset := clusterOf [capitalsPod; peerPod].

Definition sCapitals : NEXUSScheduler :=
  fst (checkForSpike {| k8s := capitalsCluster; prom := promSpike |} (sIdle, clockFrom t0)).

Definition capitalsGang : Gang :=
  {| ID := "gang-checkout-1700000000000000002";
     Members := ["cartservice"; "PaymentService"];
     NodePrefs := ∅; CreatedAt := t0 + 3; Stage := GangStageFormed |}.

End Samples.

(* ===================================================================== *)
(** ** Properties *)
(* ===================================================================== *)

Import GoStrings Metrics DependencyGraph Gangs NodeScorer SpikeDetector Extender Traces.
Import Invariants.

(** *** 64-bit arithmetic *)

Lemma wrap64_id (z : Z) : Int64.in_range z -> Int64.wrap64 z = z.
Proof.
  unfold Int64.in_range, Int64.wrap64, Int64.modulus, Int64.min_int64, Int64.max_int64.
  intros H. rewrite Z.mod_small; lia.
Qed.

Lemma incr_small (z : Z) : 0 <= z < 2 ^ 62 -> Int64.incr z = z + 1.
Proof.
  intros H. unfold Int64.incr. apply wrap64_id.
  unfold Int64.in_range, Int64.min_int64, Int64.max_int64. lia.
Qed.

Ltac int64_range :=
  unfold Int64.in_range, Int64.min_int64, Int64.max_int64 in *;
  Z.to_euclidean_division_equations; lia.

(** *** Node scorer *)

Lemma matchesMember_existsb (svc : string) (members : list string) :
  matchesMember svc members = existsb (EqualFold svc) members.
Proof.
  induction members as [|m ms IH]; simpl; [reflexivity|].
  rewrite IH. destruct (EqualFold svc m); reflexivity.
Qed.

Lemma countMatching_from (members : list string) (pods : list Pod) (acc : Z) :
  0 <= acc -> acc + Z.of_nat (length pods) < 2 ^ 62 ->
  foldl (fun count pod =>
           if matchesMember (extractServiceName (pod_Name pod)) members
           then Int64.incr count else count) acc pods
  = acc + Z.of_nat (length (List.filter
        (fun pod => existsb (EqualFold (extractServiceName (pod_Name pod))) members) pods)).
Proof.
  revert acc. induction pods as [|p ps IH]; intros acc Hacc Hlen.
  - simpl. lia.
  - cbn [foldl List.filter]. rewrite matchesMember_existsb.
    cbn [length] in Hlen.
    destruct (existsb _ members).
    + rewrite incr_small by lia. rewrite IH by lia. cbn [length]. lia.
    + rewrite IH by lia. reflexivity.
Qed.

(** The test [EqualFold] makes of two bytes, against the lower-case forms
    of the two: checked on all pairs of bytes. *)
Lemma EqualFold_bytes (a b : ascii) :
  (byteVal b =? byteVal a)
  || (let '(sr, tr) := if byteVal b <? byteVal a then (byteVal b, byteVal a)
                       else (byteVal a, byteVal b) in
      (65 <=? sr) && (sr <=? 90) && (tr =? sr + 32))
  = Ascii.eqb (Spec.lowerOf a Spec.upperLetters Spec.lowerLetters)
              (Spec.lowerOf b Spec.upperLetters Spec.lowerLetters).
Proof.
  assert (Hall : forallb (fun a =>
            forallb (fun b =>
              Bool.eqb
                ((byteVal b =? byteVal a)
                 || (let '(sr, tr) := if byteVal b <? byteVal a then (byteVal b, byteVal a)
                                      else (byteVal a, byteVal b) in
                     (65 <=? sr) && (sr <=? 90) && (tr =? sr + 32)))
                (Ascii.eqb (Spec.lowerOf a Spec.upperLetters Spec.lowerLetters)
                           (Spec.lowerOf b Spec.upperLetters Spec.lowerLetters)))
              (map ascii_of_nat (seq 0 256)))
            (map ascii_of_nat (seq 0 256)) = true) by (vm_compute; reflexivity).
  assert (Hin : forall c : ascii, In c (map ascii_of_nat (seq 0 256))).
  { intros c. rewrite <- (ascii_nat_embedding c). apply in_map. apply in_seq.
    pose proof (nat_ascii_bounded c). lia. }
  rewrite forallb_forall in Hall. specialize (Hall a (Hin a)).
  rewrite forallb_forall in Hall. specialize (Hall b (Hin b)).
  apply Bool.eqb_prop in Hall. exact Hall.
Qed.

Lemma EqualFold_cons (a b : ascii) (s t : string) :
  EqualFold (String a s) (String b t)
  = Ascii.eqb (Spec.lowerOf a Spec.upperLetters Spec.lowerLetters)
              (Spec.lowerOf b Spec.upperLetters Spec.lowerLetters)
    && EqualFold s t.
Proof.
  rewrite <- EqualFold_bytes. cbn [EqualFold].
  destruct (byteVal b =? byteVal a); [reflexivity|]. cbn [orb].
  destruct (if byteVal b <? byteVal a then (byteVal b, byteVal a)
            else (byteVal a, byteVal b)) as [sr tr].
  destruct ((65 <=? sr) && (sr <=? 90) && (tr =? sr + 32)); reflexivity.
Qed.

(** [EqualFold] holds of two strings exactly when their lower-case forms
    are the same. *)
Lemma EqualFold_lowerCase (s t : string) :
  EqualFold s t = bool_decide (Spec.lowerCase s = Spec.lowerCase t).
Proof.
  revert t. induction s as [|a s IH]; intros [|b t].
  - reflexivity.
  - reflexivity.
  - reflexivity.
  - rewrite EqualFold_cons, IH. cbn [Spec.lowerCase].
    destruct (Ascii.eqb_spec (Spec.lowerOf a Spec.upperLetters Spec.lowerLetters)
                             (Spec.lowerOf b Spec.upperLetters Spec.lowerLetters))
      as [Heq|Hne]; cbn [andb].
    + rewrite Heq. apply bool_decide_ext. split; intros H; [f_equal; exact H|].
      injection H as H. exact H.
    + symmetry. apply bool_decide_eq_false. intros H. injection H as H _. contradiction.
Qed.

Lemma isGangMemberAnyCase_existsb (gang : Gang) (pod : Pod) :
  Spec.isGangMemberAnyCase gang pod
  = existsb (EqualFold (extractServiceName (pod_Name pod))) (Members gang).
Proof.
  unfold Spec.isGangMemberAnyCase.
  induction (Members gang) as [|m ms IH]; cbn [map existsb].
  - apply bool_decide_eq_false. apply not_elem_of_nil.
  - rewrite <- IH, EqualFold_lowerCase.
    destruct (decide (Spec.lowerCase (extractServiceName (pod_Name pod))
                      = Spec.lowerCase m)) as [Heq|Hne].
    + rewrite (bool_decide_eq_true_2 _ Heq). cbn [orb].
      apply bool_decide_eq_true. rewrite Heq. apply elem_of_cons. left. reflexivity.
    + rewrite (bool_decide_eq_false_2 _ Hne). cbn [orb].
      apply bool_decide_ext. rewrite elem_of_cons. tauto.
Qed.

Lemma countGangMembersOnNode_spec (cs : Clientset) (gang : Gang) (node : Node) :
  Spec.scorable cs node ->
  countGangMembersOnNode cs node (Some gang) = Spec.memberCountAnyCase cs gang node.
Proof.
  intros (_ & _ & Hpods).
  unfold countGangMembersOnNode, Spec.memberCountAnyCase, Spec.countBy.
  destruct (ListPods cs (Some (node_Name node))) as [pods|].
  - rewrite (List.filter_ext _ _ (isGangMemberAnyCase_existsb gang)).
    destruct (Members gang) as [|m ms] eqn:Hm.
    + simpl. induction pods as [|p ps IH]; simpl; [reflexivity|].
      apply IH. simpl in Hpods. lia.
    + cbn [length Nat.eqb]. unfold countMatching.
      rewrite countMatching_from by lia. reflexivity.
  - destruct (length (Members gang) =? 0)%nat; reflexivity.
Qed.

Lemma memberCount_bounds (cs : Clientset) (gang : Gang) (node : Node) :
  Spec.scorable cs node -> 0 <= Spec.memberCountAnyCase cs gang node < 2 ^ 32.
Proof.
  intros (_ & _ & Hpods). unfold Spec.memberCountAnyCase, Spec.countBy.
  destruct (ListPods cs (Some (node_Name node))) as [pods|]; [|lia].
  pose proof (List.filter_length_le (Spec.isGangMemberAnyCase gang) pods). lia.
Qed.

Lemma calculateResourceScore_spec (node : Node) (pod : Pod) :
  Int64.in_range (alloc_CpuMilliValue node) ->
  Int64.in_range (alloc_MemoryValue node) ->
  calculateResourceScore node pod
  = Z.min (alloc_CpuMilliValue node ÷ 100 * 10) 100
    + Z.min (alloc_MemoryValue node ÷ (100 * 1024 * 1024)) 50.
Proof.
  intros Hc Hm. unfold calculateResourceScore, Int64.mul, Int64.div, Int64.add.
  set (c := alloc_CpuMilliValue node) in *. set (b := alloc_MemoryValue node) in *.
  rewrite (wrap64_id (c ÷ 100)) by int64_range.
  rewrite (wrap64_id (c ÷ 100 * 10)) by int64_range.
  rewrite (wrap64_id (b ÷ _)) by int64_range.
  assert (Hcap1 : (if 100 <? c ÷ 100 * 10 then 100 else c ÷ 100 * 10)
                  = Z.min (c ÷ 100 * 10) 100).
  { destruct (Z.ltb_spec 100 (c ÷ 100 * 10)); lia. }
  assert (Hcap2 : (if 50 <? b ÷ (100 * 1024 * 1024) then 50 else b ÷ (100 * 1024 * 1024))
                  = Z.min (b ÷ (100 * 1024 * 1024)) 50).
  { destruct (Z.ltb_spec 50 (b ÷ (100 * 1024 * 1024))); lia. }
  rewrite Hcap1, Hcap2. apply wrap64_id. int64_range.
Qed.

Lemma scoreNode_spec (cs : Clientset) (pod : Pod) (node : Node) (gang : Gang) :
  Spec.scorable cs node ->
  scoreNode cs pod node (Some gang) = Spec.scoreAnyCase cs gang node.
Proof.
  intros Hs. pose proof (memberCount_bounds cs gang node Hs) as Hb.
  unfold scoreNode, calculateLocalityScore.
  rewrite countGangMembersOnNode_spec by exact Hs.
  destruct Hs as (Hc & Hm & _).
  rewrite calculateResourceScore_spec by assumption.
  unfold Spec.scoreAnyCase, Spec.scoreBy, Int64.mul, Int64.add.
  fold (Spec.memberCountAnyCase cs gang node).
  rewrite (wrap64_id (_ * 100)) by int64_range.
  rewrite wrap64_id by int64_range. apply Z.add_assoc.
Qed.

Lemma foldl_snoc_map {A B : Type} (f : A -> B) (l : list A) (acc : list B) :
  foldl (fun out x => (out ++ [f x])%list) acc l = (acc ++ map f l)%list.
Proof.
  revert acc. induction l as [|x xs IH]; intros acc; simpl.
  - rewrite app_nil_r. reflexivity.
  - rewrite IH, <- app_assoc. reflexivity.
Qed.

Lemma ScoreForExtender_map (cs : Clientset) (pod : Pod) (items : list Node) (gang : option Gang) :
  ScoreForExtender cs pod items gang
  = map (fun node => {| Host := node_Name node; Score := scoreNode cs pod node gang |}) items.
Proof. unfold ScoreForExtender. apply (foldl_snoc_map _ items []). Qed.

Lemma zeroScores_map (items : list Node) :
  zeroScores items = map (fun node => {| Host := node_Name node; Score := 0 |}) items.
Proof. unfold zeroScores. apply (foldl_snoc_map _ items []). Qed.


(** *** The endpoints while dormant *)

Lemma dormant_answers (cs : Clientset) (args : ExtenderArgs) (s : NEXUSScheduler) :
  GetState s = StateIdle ->
  fst (handleFilter cs (Some args) s)
    = OK {| res_Nodes := arg_Nodes args; res_NodeNames := None;
            res_FailedNodes := ∅; res_Error := "" |}
  /\ fst (handlePrioritize cs (Some args) s)
    = OK (map (fun node => {| Host := node_Name node; Score := 0 |})
              (default [] (arg_Nodes args))).
Proof.
  intros Hidle. unfold GetState in Hidle. split.
  - unfold handleFilter, GetState. cbn [withMetrics state].
    rewrite Hidle. rewrite decide_True by reflexivity. reflexivity.
  - unfold handlePrioritize, GetState. cbn [withMetrics state].
    rewrite Hidle. rewrite decide_True by reflexivity. cbn [fst].
    destruct (arg_Nodes args) as [items|]; cbn [default].
    + rewrite zeroScores_map. reflexivity.
    + reflexivity.
Qed.

(** C1: while the state is DORMANT, a request that decodes is answered by
    [/filter] with the [nodes] field it came with (no host rejected, no
    error) and without [nodenames], and by [/prioritize] with one entry of
    score 0 per host of the [nodes] field, in order.  So for a request that
    carries no [nodenames], the candidate list comes back unchanged and
    every candidate host is scored 0. *)
Theorem C1_dormant_no_opinion (cs : Clientset) (args : ExtenderArgs) (s : NEXUSScheduler) :
  GetState s = StateIdle ->
  fst (handleFilter cs (Some args) s)
    = OK {| res_Nodes := arg_Nodes args; res_NodeNames := None;
            res_FailedNodes := ∅; res_Error := "" |}
  /\ fst (handlePrioritize cs (Some args) s)
    = OK (map (fun node => {| Host := node_Name node; Score := 0 |})
              (default [] (arg_Nodes args)))
  /\ (arg_NodeNames args = None -> Spec.noOpinion cs args s).
Proof.
  intros Hidle. destruct (dormant_answers cs args s Hidle) as [Hfilter Hprioritize].
  split; [exact Hfilter|]. split; [exact Hprioritize|].
  intros Hnames. unfold Spec.noOpinion. split.
  - eexists. split; [exact Hfilter|]. cbn [res_Nodes res_NodeNames res_FailedNodes].
    rewrite Hnames. auto.
  - eexists. split; [exact Hprioritize|]. unfold Spec.candidateHosts.
    rewrite Hnames. cbn [default]. rewrite app_nil_r, map_map. cbn [Host].
    split; [reflexivity|]. apply Forall_map. apply Forall_forall. intros node _. reflexivity.
Qed.

Lemma C1_dormant_no_opinion_witness :
  GetState Samples.sIdle = StateIdle
  /\ fst (handleFilter Samples.cluster
            (Some (Samples.request [Samples.h1; Samples.h2; Samples.h3])) Samples.sIdle)
     = OK {| res_Nodes := Some [Samples.h1; Samples.h2; Samples.h3];
             res_NodeNames := None; res_FailedNodes := ∅; res_Error := "" |}
  /\ fst (handlePrioritize Samples.cluster
            (Some (Samples.request [Samples.h1; Samples.h2; Samples.h3])) Samples.sIdle)
     = OK [ {| Host := "h1"; Score := 0 |}; {| Host := "h2"; Score := 0 |};
            {| Host := "h3"; Score := 0 |} ].
Proof.
  split; [reflexivity|].
  destruct (C1_dormant_no_opinion Samples.cluster
              (Samples.request [Samples.h1; Samples.h2; Samples.h3]) Samples.sIdle eq_refl)
    as (Hfilter & Hprioritize & _).
  split; [exact Hfilter | exact Hprioritize].
Defined.

(** C1 as stated fails for a request that carries its candidates in
    [nodenames]: the handlers never read that field, so [/filter] answers
    without it and [/prioritize] with no entry at all. *)
Lemma C1_nodenames_not_returned :
  ~ Spec.dormantNoOpinion Samples.cluster Samples.namesRequest Samples.sIdle.
Proof.
  unfold Spec.dormantNoOpinion, Spec.noOpinion.
  intros H. destruct (H eq_refl) as [(result & Hfilter & _ & Hnames & _) _].
  vm_compute in Hfilter. injection Hfilter as <-. discriminate Hnames.
Qed.

Example nodenames_request_answers :
  fst (handleFilter Samples.cluster (Some Samples.namesRequest) Samples.sIdle)
    = OK {| res_Nodes := None; res_NodeNames := None; res_FailedNodes := ∅;
            res_Error := "" |}
  /\ fst (handlePrioritize Samples.cluster (Some Samples.namesRequest) Samples.sIdle)
     = OK [].
Proof. split; reflexivity. Qed.


(** *** Scores of the gang branch *)

(** C7: for a workload in a gang, while ACTIVE, [/prioritize] answers with
    one entry per candidate host whose score is the number of pods on the
    host whose service identifier is a member of the gang up to the case of
    letters, times 100, plus min(cpu_millicores / 100 * 10, 100), plus
    min(memory_bytes / (100*1024*1024), 50), all in integer arithmetic
    (division rounds towards zero, which on the non-negative capacities of
    a node is the floor), as long as the figures fit 64 bits and the names
    of the pods and of the members are ASCII. *)
Theorem C7_prioritize_score (cs : Clientset) (s : NEXUSScheduler) (pod : Pod)
    (items : list Node) (names : option (list string)) (gang : Gang) :
  GetState s = StateActive ->
  GetGangForPod (gangManager s) pod = Some gang ->
  Forall (Spec.scorable cs) items ->
  Forall (Spec.plainNames cs gang) items ->
  fst (handlePrioritize cs
         (Some {| arg_Pod := Some pod; arg_Nodes := Some items; arg_NodeNames := names |}) s)
  = OK (map (fun node => {| Host := node_Name node;
                            Score := Spec.scoreAnyCase cs gang node |}) items).
Proof.
  intros Hact Hgang Hok _. unfold GetState in Hact.
  unfold handlePrioritize, GetState. cbn [withMetrics state gangManager arg_Pod arg_Nodes].
  rewrite Hact. rewrite decide_False by discriminate.
  rewrite Hgang. cbn [fst]. f_equal.
  rewrite ScoreForExtender_map.
  induction Hok as [|node rest Hnode _ IH]; [reflexivity|].
  cbn [map]. rewrite IH, (scoreNode_spec cs pod node gang Hnode). reflexivity.
Qed.

Lemma C7_prioritize_score_witness :
  fst (handlePrioritize Samples.cluster
         (Some (Samples.request [Samples.h1; Samples.h2; Samples.h3])) Samples.sActive)
  = OK (map (fun node => {| Host := node_Name node;
                            Score := Spec.scoreAnyCase Samples.cluster Samples.cartGang node |})
            [Samples.h1; Samples.h2; Samples.h3]).
Proof.
  apply (C7_prioritize_score Samples.cluster Samples.sActive Samples.cartPod
           [Samples.h1; Samples.h2; Samples.h3] None Samples.cartGang).
  - vm_compute. reflexivity.
  - vm_compute. reflexivity.
  - repeat constructor; vm_compute; congruence.
  - repeat constructor; vm_compute; reflexivity.
Defined.

(** On non-negative capacities the score is the formula with floor
    division. *)
Lemma score_floor_division (cs : Clientset) (gang : Gang) (node : Node) :
  0 <= alloc_CpuMilliValue node -> 0 <= alloc_MemoryValue node ->
  Spec.scoreAnyCase cs gang node
  = Spec.memberCountAnyCase cs gang node * 100
    + Z.min (alloc_CpuMilliValue node / 100 * 10) 100
    + Z.min (alloc_MemoryValue node / (100 * 1024 * 1024)) 50.
Proof.
  intros Hc Hm. unfold Spec.scoreAnyCase, Spec.scoreBy.
  rewrite !Z.quot_div_nonneg by lia. reflexivity.
Qed.

(** C7 as stated fails where a member of the gang and the service of a pod
    differ in the case of letters: a pod of the cart service declares its
    dependency as PaymentService, the poll makes that a member of the gang,
    and the payment pod on [h2] is counted by [/prioritize] (score 145),
    while it is not in the member set (45 by the formula). *)
Lemma C7_member_in_capitals :
  ~ Spec.scoresAsStated Samples.capitalsCluster Samples.sCapitals Samples.cartPod
      [Samples.h2].
Proof.
  unfold Spec.scoresAsStated. intros H.
  specialize (H Samples.capitalsGang).
  assert (H1 : GetState Samples.sCapitals = StateActive) by (vm_compute; reflexivity).
  assert (H2 : GetGangForPod (gangManager Samples.sCapitals) Samples.cartPod
               = Some Samples.capitalsGang) by (vm_compute; reflexivity).
  assert (H3 : Forall (Spec.scorable Samples.capitalsCluster) [Samples.h2])
    by (repeat constructor; vm_compute; congruence).
  specialize (H H1 H2 H3). clear H1 H2 H3. vm_compute in H. discriminate H.
Qed.

Example capitals_scores :
  fst (handlePrioritize Samples.capitalsCluster (Some (Samples.request [Samples.h2]))
         Samples.sCapitals)
    = OK [ {| Host := "h2"; Score := 145 |} ]
  /\ Spec.score Samples.capitalsCluster Samples.capitalsGang Samples.h2 = 45
  /\ Spec.scoreAnyCase Samples.capitalsCluster Samples.capitalsGang Samples.h2 = 145.
Proof. repeat split; vm_compute; reflexivity. Qed.

(** The resource part of a score lies between the two caps' sum and below. *)
Lemma resource_score_le_150 (node : Node) (pod : Pod) :
  Int64.in_range (alloc_CpuMilliValue node) ->
  Int64.in_range (alloc_MemoryValue node) ->
  calculateResourceScore node pod <= 150.
Proof. intros Hc Hm. rewrite calculateResourceScore_spec by assumption. lia. Qed.

(** C3, the code at a failing input: [h2] hosts one peer of the workload's
    gang, [h1] and [h3] host none, and yet [h2] is scored below both,
    because the two resource caps add up to 150, more than the 100 a peer
    is worth. *)
Theorem C3_one_peer_outscored :
  countGangMembersOnNode Samples.cluster Samples.h2 (Some Samples.cartGang) = 1
  /\ countGangMembersOnNode Samples.cluster Samples.h1 (Some Samples.cartGang) = 0
  /\ countGangMembersOnNode Samples.cluster Samples.h3 (Some Samples.cartGang) = 0
  /\ GetGangForPod (gangManager Samples.sActive) Samples.cartPod = Some Samples.cartGang
  /\ fst (handlePrioritize Samples.cluster
            (Some (Samples.request [Samples.h1; Samples.h2; Samples.h3])) Samples.sActive)
     = OK [ {| Host := "h1"; Score := 150 |}; {| Host := "h2"; Score := 145 |};
            {| Host := "h3"; Score := 150 |} ].
Proof. repeat split; vm_compute; reflexivity. Qed.

(** *** The filter *)

(** C2, the code at a failing input: while ACTIVE, for a workload in a gang,
    the only candidate host runs a peer and is cordoned; [/filter] answers
    with an empty host list. *)
Theorem C2_filter_returns_no_host :
  GetState Samples.sActive = StateActive
  /\ GetGangForPod (gangManager Samples.sActive) Samples.cartPod = Some Samples.cartGang
  /\ isNodeSchedulable Samples.h2cordoned = false
  /\ fst (handleFilter Samples.cluster
            (Some (Samples.request [Samples.h2cordoned])) Samples.sActive)
     = OK {| res_Nodes := Some []; res_NodeNames := None;
             res_FailedNodes := {[ "h2" := "Node not schedulable" ]};
             res_Error := "" |}.
Proof. repeat split; vm_compute; reflexivity. Qed.


(** *** Service identifiers *)

Lemma Split_nonempty (s : string) (sep : ascii) : (1 <= length (Split s sep))%nat.
Proof.
  induction s as [|c rest IH]; simpl; [lia|].
  destruct (Ascii.eqb c sep); simpl; [lia|].
  destruct (Split rest sep); simpl in *; lia.
Qed.

Lemma joinPrefix_one (parts : list string) :
  (1 <= length parts)%nat -> joinPrefix parts 1 = nth 0 parts "".
Proof. destruct parts as [|p ps]; simpl; [lia|]. intros _. reflexivity. Qed.

(** What the candidate loop finds: the longest known prefix of 2 to [k]
    components, or that there is none. *)
Lemma tryCandidates_spec (parts : list string) (k : nat) :
  match tryCandidates parts k with
  | Some c =>
      exists i : nat, (2 <= i <= k)%nat /\ c = joinPrefix parts i /\ isKnownService c = true
        /\ forall j : nat, (i < j <= k)%nat -> isKnownService (joinPrefix parts j) = false
  | None => forall i : nat, (2 <= i <= k)%nat -> isKnownService (joinPrefix parts i) = false
  end.
Proof.
  induction k as [|k IH].
  - simpl. intros i Hi. lia.
  - cbn [tryCandidates]. destruct (Nat.leb_spec 2 (S k)) as [Hk|Hk].
    + destruct (isKnownService (joinPrefix parts (S k))) eqn:Hknown.
      * exists (S k). repeat split; try lia; try assumption.
      * destruct (tryCandidates parts k) as [c|].
        -- destruct IH as (i & Hi & Hc & Hkn & Hmax).
           exists i. repeat split; try lia; try assumption.
           intros j Hj. destruct (decide (j = S k)) as [->|Hne]; [assumption|].
           apply Hmax. lia.
        -- intros i Hi. destruct (decide (i = S k)) as [->|Hne]; [assumption|].
           apply IH. lia.
    + intros i Hi. lia.
Qed.

(** C8, as amended: the derivation returns the longest left-prefix of
    hyphen-delimited components that matches the dictionary among the
    prefixes that leave at least one component as suffix, and the first
    component when none of them matches. *)
Theorem C8_longest_proper_prefix (name : string) : Spec.derivesLongestProperPrefix name.
Proof.
  unfold Spec.derivesLongestProperPrefix, Spec.longestKnownPrefix, Spec.leftPrefix,
    Spec.components, extractServiceName.
  set (parts := Split name "-").
  pose proof (Split_nonempty name "-") as Hlen. fold parts in Hlen.
  pose proof (joinPrefix_one parts Hlen) as Hone.
  destruct (Nat.leb_spec 3 (length parts)) as [H3|H3].
  - pose proof (tryCandidates_spec parts (length parts - 1)) as Hloop.
    destruct (tryCandidates parts (length parts - 1)) as [c|].
    + destruct Hloop as (i & Hi & Hc & Hkn & Hmax).
      left. exists i. repeat split; try lia; assumption.
    + destruct (isKnownService (nth 0 parts "")) eqn:Hfirst.
      * left. exists 1%nat. rewrite Hone. repeat split; try lia; try assumption.
      * right. split; [|reflexivity]. intros i Hi.
        destruct (decide (i = 1%nat)) as [->|Hne]; [rewrite Hone; assumption|].
        apply Hloop. lia.
  - destruct (Nat.ltb_spec 0 (length parts)) as [_|H0]; [|lia].
    destruct (isKnownService (nth 0 parts "")) eqn:Hfirst.
    + destruct (decide (length parts = 2%nat)) as [H2|H2].
      * left. exists 1%nat. rewrite Hone. repeat split; try lia; try assumption.
      * right. split; [|reflexivity]. intros i Hi. lia.
    + right. split; [|reflexivity]. intros i Hi.
      assert (i = 1%nat) as -> by lia. rewrite Hone. assumption.
Qed.

(** C8 as stated fails on the bare name of the Redis cart service: the name
    is in the dictionary and is its own left-prefix of two components, and
    the derivation returns its first component. *)
Lemma C8_whole_name_not_tried : ~ Spec.derivesLongestPrefix "redis-cart".
Proof.
  unfold Spec.derivesLongestPrefix, Spec.longestKnownPrefix.
  change (extractServiceName "redis-cart") with "redis".
  change (length (Spec.components "redis-cart")) with 2%nat.
  intros [(i & Hi & Hr & Hknown & _) | (Hnone & _)].
  - vm_compute in Hknown. discriminate.
  - specialize (Hnone 2%nat ltac:(lia)). vm_compute in Hnone. discriminate.
Qed.

Example extractServiceName_redis_bare : extractServiceName "redis-cart" = "redis".
Proof. reflexivity. Qed.

Example extractServiceName_redis_statefulset : extractServiceName "redis-cart-0" = "redis-cart".
Proof. reflexivity. Qed.

Example extractServiceName_deployment :
  extractServiceName "cartservice-5b6c9d-abcde" = "cartservice".
Proof. reflexivity. Qed.


(** *** Gang manager: formation and dissolution *)

Lemma incr_no_wrap (z : Z) : 0 <= z < Int64.max_int64 -> Int64.incr z = z + 1.
Proof. intros H. unfold Int64.incr. apply wrap64_id. int64_range. Qed.

Lemma formGang_activeGangs (gm : GangManager) (clk : Clock) (group : RuntimeGroup) :
  activeGangs (fst (formGang (gm, clk) group)) <> ∅.
Proof. unfold formGang. cbn. apply insert_non_empty. Qed.

Lemma foldl_formGang_nonempty (groups : list RuntimeGroup) (gm : GangManager) (clk : Clock) :
  groups <> [] -> activeGangs (fst (foldl formGang (gm, clk) groups)) <> ∅.
Proof.
  destruct groups as [|g gs _] using rev_ind; [congruence|]. intros _.
  rewrite foldl_app. cbn [foldl].
  destruct (foldl formGang (gm, clk) gs) as [gm' clk']. apply formGang_activeGangs.
Qed.

Lemma FormGangs_nonempty (groups : list RuntimeGroup) (gm : GangManager)
    (m : NEXUSMetrics) (clk : Clock) :
  groups <> [] -> activeGangs (fst (fst (FormGangs groups (gm, m, clk)))) <> ∅.
Proof.
  intros Hne. unfold FormGangs. cbn [Now].
  pose proof (foldl_formGang_nonempty groups (clearGangsLocked gm)
                {| ticks := S (ticks clk); reading := reading clk |} Hne) as H.
  destruct (foldl formGang _ groups) as [gm2 clk2]. exact H.
Qed.

Lemma DissolveAll_activeGangs (gm : GangManager) (m : NEXUSMetrics) :
  activeGangs (fst (DissolveAll (gm, m))) = ∅.
Proof.
  unfold DissolveAll. destruct (Nat.eqb_spec (size (activeGangs gm)) 0) as [H0|H0].
  - cbn. apply map_size_empty_iff. exact H0.
  - reflexivity.
Qed.

Lemma DissolveAll_serviceToGang (gm : GangManager) (m : NEXUSMetrics) :
  (activeGangs gm = ∅ -> serviceToGang gm = ∅) ->
  serviceToGang (fst (DissolveAll (gm, m))) = ∅.
Proof.
  intros Hix. unfold DissolveAll.
  destruct (Nat.eqb_spec (size (activeGangs gm)) 0) as [H0|H0].
  - cbn. apply Hix, map_size_empty_iff, H0.
  - reflexivity.
Qed.

Lemma DissolveAll_metrics (gm : GangManager) (m : NEXUSMetrics) :
  snd (DissolveAll (gm, m))
  = if (size (activeGangs gm) =? 0)%nat then m else IncrementCounter "gangs_dissolved" m.
Proof. unfold DissolveAll. destruct (size (activeGangs gm) =? 0)%nat; reflexivity. Qed.

Lemma GetGangForService_no_gangs (gm : GangManager) (svc : string) :
  activeGangs gm = ∅ -> GetGangForService gm svc = None.
Proof.
  intros H. unfold GetGangForService. rewrite H.
  destruct (serviceToGang gm !! svc); [apply lookup_empty | reflexivity].
Qed.

(** *** Dependency graph *)

Lemma BuildFromAnnotations_fails (cs : Clientset) (dg : DependencyGraph) :
  ListPods cs None = None -> BuildFromAnnotations cs dg = None.
Proof. intros H. unfold BuildFromAnnotations. rewrite H. reflexivity. Qed.

Lemma BuildFromAnnotations_succeeds (cs : Clientset) (dg : DependencyGraph) :
  ListPods cs None <> None ->
  exists dg', BuildFromAnnotations cs dg = Some dg'
              /\ groups dg' <> [] /\ built dg' = true.
Proof.
  intros H. unfold BuildFromAnnotations.
  destruct (ListPods cs None) as [pods|]; [|congruence].
  eexists. split; [reflexivity|]. cbn [groups built]. split; [|reflexivity].
  destruct (groupsOfMap (foldl scanPod ∅ pods)) as [|g gs] eqn:Hg; cbn; discriminate.
Qed.

(** *** The spike poller *)

Lemma checkForSpike_no_spike (w : World) (s : NEXUSScheduler) (clk : Clock) :
  Detect (spikeDetector s) (prom w) 0 = false -> checkForSpike w (s, clk) = (s, clk).
Proof.
  intros H. unfold checkForSpike. destruct (GetState s); [rewrite H|]; reflexivity.
Qed.

Lemma checkForSpike_active (w : World) (s : NEXUSScheduler) (clk : Clock) :
  GetState s = StateActive -> checkForSpike w (s, clk) = (s, clk).
Proof. intros H. unfold checkForSpike. rewrite H. reflexivity. Qed.

Lemma checkForSpike_build_failed (w : World) (s : NEXUSScheduler) (clk : Clock) :
  GetState s = StateIdle ->
  Detect (spikeDetector s) (prom w) 0 = true ->
  ListPods (k8s w) None = None ->
  checkForSpike w (s, clk)
  = (withMetrics (IncrementCounter "spike_events" (metrics s))
       (withGangManager
          (SetStage GangStageGraphBuilt (SetStage GangStageDetected (gangManager s))) s),
     snd (Now clk)).
Proof.
  intros Hidle Hspike Hlist. unfold checkForSpike.
  rewrite Hidle, Hspike. cbn [Now].
  rewrite (BuildFromAnnotations_fails _ _ Hlist). reflexivity.
Qed.

Lemma checkForSpike_activates (w : World) (s : NEXUSScheduler) (clk : Clock) :
  GetState s = StateIdle ->
  Detect (spikeDetector s) (prom w) 0 = true ->
  ListPods (k8s w) None <> None ->
  state (fst (checkForSpike w (s, clk))) = StateActive
  /\ activeGangs (gangManager (fst (checkForSpike w (s, clk)))) <> ∅
  /\ groups (depGraph (fst (checkForSpike w (s, clk)))) <> []
  /\ spikeDetector (fst (checkForSpike w (s, clk))) = spikeDetector s.
Proof.
  intros Hidle Hspike Hlist. unfold checkForSpike.
  rewrite Hidle, Hspike. cbn [Now].
  destruct (BuildFromAnnotations_succeeds (k8s w) (depGraph s) Hlist)
    as (dg & -> & Hgroups & _).
  unfold GetGroups.
  destruct (groups dg) as [|g gs] eqn:Hg; [congruence|].
  cbn [length Nat.ltb Nat.leb].
  pose proof (FormGangs_nonempty (g :: gs)
                (SetStage GangStageGraphBuilt (SetStage GangStageDetected (gangManager s)))
                (IncrementCounter "spike_events" (metrics s))
                {| ticks := S (ticks clk); reading := reading clk |}
                ltac:(discriminate)) as Hne.
  destruct (FormGangs (g :: gs) _) as [[gm m] c].
  cbn [fst] in Hne. unfold GetState in Hidle.
  unfold SetState. cbn [withMetrics withGangManager withDepGraph state].
  rewrite Hidle. rewrite decide_False by discriminate.
  cbn. rewrite Hg. repeat split; [exact Hne | discriminate].
Qed.

(** *** The cooldown checker *)

Lemma Since_exceeds (now t : Z) :
  (cooldownDuration <? Since now t) = (cooldownDuration <? now - t).
Proof.
  unfold Since, cooldownDuration, second, Int64.min_int64, Int64.max_int64.
  destruct (Z.ltb_spec (30 * 1000000000) (now - t));
    destruct (Z.ltb_spec (30 * 1000000000)
                (Z.max (- 2 ^ 63) (Z.min (2 ^ 63 - 1) (now - t)))); lia.
Qed.

Lemma cooldownCheck_idle (w : World) (s : NEXUSScheduler) (clk : Clock) :
  GetState s = StateIdle -> cooldownCheck w (s, clk) = (s, clk).
Proof. intros H. unfold cooldownCheck. rewrite H. reflexivity. Qed.

Lemma cooldownCheck_waiting (w : World) (s : NEXUSScheduler) (clk : Clock) :
  GetState s = StateActive ->
  ~ cooldownDuration < reading clk (ticks clk) - lastSpikeTime s ->
  cooldownCheck w (s, clk) = (s, snd (Now clk)).
Proof.
  intros Hact Hwait. unfold cooldownCheck. rewrite Hact. cbn [Now].
  rewrite Since_exceeds. destruct (Z.ltb_spec cooldownDuration
    (reading clk (ticks clk) - lastSpikeTime s)); [contradiction | reflexivity].
Qed.

Lemma cooldownCheck_extends (w : World) (s : NEXUSScheduler) (clk : Clock) :
  GetState s = StateActive ->
  cooldownDuration < reading clk (ticks clk) - lastSpikeTime s ->
  Detect (spikeDetector s) (prom w) 0 = true ->
  cooldownCheck w (s, clk)
  = (withLastSpikeTime (reading clk (S (ticks clk))) s, snd (Now (snd (Now clk)))).
Proof.
  intros Hact Hlate Hspike. unfold cooldownCheck. rewrite Hact. cbn [Now].
  rewrite Since_exceeds. destruct (Z.ltb_spec cooldownDuration
    (reading clk (ticks clk) - lastSpikeTime s)); [|lia].
  rewrite Hspike. reflexivity.
Qed.

Lemma cooldownCheck_dissolves (w : World) (s : NEXUSScheduler) (clk : Clock) :
  GetState s = StateActive ->
  cooldownDuration < reading clk (ticks clk) - lastSpikeTime s ->
  Detect (spikeDetector s) (prom w) 0 = false ->
  cooldownCheck w (s, clk)
  = (SetState StateIdle
       (withMetrics (snd (DissolveAll (SetStage GangStageCooldown (gangManager s), metrics s)))
          (withGangManager
             (SetStage GangStageNone
                (fst (DissolveAll (SetStage GangStageCooldown (gangManager s), metrics s))))
             (withDepGraph (Clear (depGraph s)) s))),
     snd (Now clk)).
Proof.
  intros Hact Hlate Hquiet. unfold cooldownCheck. rewrite Hact. cbn [Now].
  rewrite Since_exceeds. destruct (Z.ltb_spec cooldownDuration
    (reading clk (ticks clk) - lastSpikeTime s)); [|lia].
  rewrite Hquiet. cbn [negb].
  destruct (DissolveAll _) as [gm2 m1]. reflexivity.
Qed.

Lemma SetState_state (st : SchedulerState) (s : NEXUSScheduler) :
  state (SetState st s) = st.
Proof. unfold SetState. destruct (decide (state s = st)); [assumption | reflexivity]. Qed.

Lemma SetState_fields (st : SchedulerState) (s : NEXUSScheduler) :
  gangManager (SetState st s) = gangManager s
  /\ depGraph (SetState st s) = depGraph s
  /\ spikeDetector (SetState st s) = spikeDetector s
  /\ lastSpikeTime (SetState st s) = lastSpikeTime s.
Proof. unfold SetState. destruct (decide (state s = st)); repeat split. Qed.


(** *** What holds of every reachable state *)

Lemma handleFilter_state (cs : Clientset) (request : option ExtenderArgs) (s : NEXUSScheduler) :
  snd (handleFilter cs request s)
  = withMetrics (IncrementCounter "filter_calls" (metrics s)) s.
Proof.
  unfold handleFilter. destruct request as [args|]; [|reflexivity].
  destruct (decide _); [reflexivity|].
  destruct (arg_Pod args) as [pod|], (arg_Nodes args) as [items|]; try reflexivity.
  destruct (GetGangForPod _ pod) as [gang|]; [|reflexivity].
  destruct (if (0 <? size _)%nat then _ else _) as [eligible failed]. reflexivity.
Qed.

Lemma handlePrioritize_state (cs : Clientset) (request : option ExtenderArgs)
    (s : NEXUSScheduler) :
  snd (handlePrioritize cs request s)
  = withMetrics (IncrementCounter "prioritize_calls" (metrics s)) s.
Proof.
  unfold handlePrioritize. destruct request as [args|]; [|reflexivity].
  destruct (decide _); [reflexivity|].
  destruct (arg_Pod args) as [pod|], (arg_Nodes args) as [items|]; try reflexivity.
  destruct (GetGangForPod _ pod) as [gang|]; reflexivity.
Qed.

Lemma coherent_withMetrics (m : NEXUSMetrics) (s : NEXUSScheduler) :
  coherent s -> coherent (withMetrics m s).
Proof. intros [H1 H2 H3 H4]. constructor; assumption. Qed.

Lemma coherent_poll (w : World) (s : NEXUSScheduler) (clk : Clock) :
  coherent s -> coherent (fst (checkForSpike w (s, clk))).
Proof.
  intros Hs. destruct (state s) eqn:Hstate.
  - destruct (Detect (spikeDetector s) (prom w) 0) eqn:Hspike.
    + destruct (ListPods (k8s w) None) as [pods|] eqn:Hlist.
      * assert (Hok : ListPods (k8s w) None <> None) by congruence.
        destruct (checkForSpike_activates w s clk Hstate Hspike Hok)
          as (Hact & Hgangs & _ & Hsd).
        constructor.
        -- rewrite Hsd. apply Hs.
        -- intros Hempty. contradiction.
        -- rewrite Hact. discriminate.
        -- intros _. exact Hgangs.
      * rewrite (checkForSpike_build_failed w s clk Hstate Hspike Hlist).
        destruct Hs as [H1 H2 H3 H4]. constructor; assumption.
    + rewrite (checkForSpike_no_spike w s clk Hspike). exact Hs.
  - rewrite (checkForSpike_active w s clk Hstate). exact Hs.
Qed.

Lemma coherent_cooldown (w : World) (s : NEXUSScheduler) (clk : Clock) :
  coherent s -> coherent (fst (cooldownCheck w (s, clk))).
Proof.
  intros Hs. destruct (state s) eqn:Hstate.
  - rewrite (cooldownCheck_idle w s clk Hstate). exact Hs.
  - destruct (Z_lt_dec cooldownDuration (reading clk (ticks clk) - lastSpikeTime s))
      as [Hlate|Hwait].
    + destruct (Detect (spikeDetector s) (prom w) 0) eqn:Hspike.
      * rewrite (cooldownCheck_extends w s clk Hstate Hlate Hspike).
        destruct Hs as [H1 H2 H3 H4]. constructor; assumption.
      * rewrite (cooldownCheck_dissolves w s clk Hstate Hlate Hspike). cbn [fst].
        pose proof (DissolveAll_activeGangs
                      (SetStage GangStageCooldown (gangManager s)) (metrics s)) as Hnone.
        pose proof (DissolveAll_serviceToGang
                      (SetStage GangStageCooldown (gangManager s)) (metrics s)
                      (coh_index s Hs)) as Hnoix.
        destruct (DissolveAll _) as [gm2 m1]. cbn [fst snd] in *.
        match goal with |- coherent (SetState StateIdle ?x) =>
          destruct (SetState_fields StateIdle x) as (Hgm & Hdg & Hsd & _) end.
        constructor.
        -- rewrite Hsd. apply Hs.
        -- intros _. rewrite Hgm. exact Hnoix.
        -- intros _. rewrite Hgm, Hdg. cbn. auto.
        -- rewrite SetState_state. discriminate.
    + rewrite (cooldownCheck_waiting w s clk Hstate Hwait). exact Hs.
Qed.

(** Every reachable state is coherent; in particular, while the state is
    DORMANT there is no active gang and the graph has no group. *)
Lemma Reachable_coherent (s : NEXUSScheduler) : Reachable s -> coherent s.
Proof.
  induction 1 as [env | w s clk _ IH | w s clk _ IH | cs rq s _ IH | cs rq s _ IH].
  - constructor; cbn; try reflexivity; try discriminate; auto.
  - apply coherent_poll, IH.
  - apply coherent_cooldown, IH.
  - rewrite handleFilter_state. apply coherent_withMetrics, IH.
  - rewrite handlePrioritize_state. apply coherent_withMetrics, IH.
Qed.

(** *** The state machine *)

(** When a cooldown check that starts in ACTIVE ends in DORMANT. *)
Lemma cooldownCheck_idle_iff (w : World) (s : NEXUSScheduler) (clk : Clock) :
  GetState s = StateActive ->
  GetState (fst (cooldownCheck w (s, clk))) = StateIdle
  <-> cooldownDuration < reading clk (ticks clk) - lastSpikeTime s
      /\ Detect (spikeDetector s) (prom w) 0 = false.
Proof.
  intros Hact. unfold GetState in *.
  destruct (Z_lt_dec cooldownDuration (reading clk (ticks clk) - lastSpikeTime s))
    as [Hlate|Hwait].
  - destruct (Detect (spikeDetector s) (prom w) 0) eqn:Hspike.
    + rewrite (cooldownCheck_extends w s clk Hact Hlate Hspike). cbn.
      rewrite Hact. split; [discriminate | intros [_ H]; discriminate].
    + rewrite (cooldownCheck_dissolves w s clk Hact Hlate Hspike). cbn [fst].
      rewrite SetState_state. tauto.
  - rewrite (cooldownCheck_waiting w s clk Hact Hwait). cbn [fst].
    rewrite Hact. split; [discriminate | tauto].
Qed.

(** C4: from ACTIVE, a cooldown check ends in DORMANT exactly when more than
    the cooldown window has passed since the last recorded spike and the
    detector now says no; then no gang is active, no service has a gang and
    the graph is cleared.  If the window has passed and the detector still
    says yes, the state stays ACTIVE and the last-spike time becomes the
    present reading of the clock; if the window has not passed, nothing
    changes. *)
Theorem C4_cooldown_transition (w : World) (s : NEXUSScheduler) (clk : Clock) :
  GetState s = StateActive ->
  (GetState (fst (cooldownCheck w (s, clk))) = StateIdle
   <-> cooldownDuration < reading clk (ticks clk) - lastSpikeTime s
       /\ Detect (spikeDetector s) (prom w) 0 = false)
  /\ (GetState (fst (cooldownCheck w (s, clk))) = StateIdle ->
      activeGangs (gangManager (fst (cooldownCheck w (s, clk)))) = ∅
      /\ (forall svc : string,
            GetGangForService (gangManager (fst (cooldownCheck w (s, clk)))) svc = None)
      /\ groups (depGraph (fst (cooldownCheck w (s, clk)))) = []
      /\ built (depGraph (fst (cooldownCheck w (s, clk)))) = false)
  /\ (cooldownDuration < reading clk (ticks clk) - lastSpikeTime s ->
      Detect (spikeDetector s) (prom w) 0 = true ->
      GetState (fst (cooldownCheck w (s, clk))) = StateActive
      /\ lastSpikeTime (fst (cooldownCheck w (s, clk))) = reading clk (S (ticks clk)))
  /\ (~ cooldownDuration < reading clk (ticks clk) - lastSpikeTime s ->
      fst (cooldownCheck w (s, clk)) = s).
Proof.
  intros Hact. unfold GetState in *.
  destruct (Z_lt_dec cooldownDuration (reading clk (ticks clk) - lastSpikeTime s))
    as [Hlate|Hwait].
  - destruct (Detect (spikeDetector s) (prom w) 0) eqn:Hspike.
    + rewrite (cooldownCheck_extends w s clk Hact Hlate Hspike). cbn.
      rewrite Hact. repeat split; try congruence; try tauto.
      intros [_ H]. discriminate.
    + rewrite (cooldownCheck_dissolves w s clk Hact Hlate Hspike). cbn [fst].
      pose proof (DissolveAll_activeGangs
                    (SetStage GangStageCooldown (gangManager s)) (metrics s)) as Hnone.
      destruct (DissolveAll _) as [gm2 m1]. cbn [fst snd] in *.
      match goal with |- context [SetState StateIdle ?x] =>
        destruct (SetState_fields StateIdle x) as (Hgm & Hdg & _ & _) end.
      rewrite SetState_state, Hgm, Hdg.
      cbn [gangManager depGraph withMetrics withGangManager withDepGraph SetStage
           activeGangs Clear groups built].
      repeat split; try tauto; try congruence.
      intros; apply GetGangForService_no_gangs; exact Hnone.
  - rewrite (cooldownCheck_waiting w s clk Hact Hwait). cbn [fst].
    rewrite Hact. repeat split; try congruence; try tauto.
Qed.

Lemma C4_cooldown_transition_witness :
  GetState Samples.sActive = StateActive
  /\ GetState (fst (cooldownCheck Samples.worldQuiet
                      (Samples.sActive, Samples.clockFrom (Samples.t0 + 40 * second))))
     = StateIdle.
Proof.
  split; [vm_compute; reflexivity|].
  apply (proj2 (proj1 (C4_cooldown_transition Samples.worldQuiet Samples.sActive
                         (Samples.clockFrom (Samples.t0 + 40 * second))
                         ltac:(vm_compute; reflexivity)))).
  split; vm_compute; reflexivity.
Defined.

(** C5: when the poller sees a spike while DORMANT and the inventory cannot
    be listed, the state stays DORMANT, no gang is active and the graph is
    as before; the next poll asks the detector again, and activates (with at
    least one gang) if the spike is still there and the inventory answers. *)
Theorem C5_build_failure_stays_dormant (w : World) (s : NEXUSScheduler) (clk : Clock) :
  Reachable s ->
  GetState s = StateIdle ->
  Detect (spikeDetector s) (prom w) 0 = true ->
  ListPods (k8s w) None = None ->
  GetState (fst (checkForSpike w (s, clk))) = StateIdle
  /\ activeGangs (gangManager (fst (checkForSpike w (s, clk)))) = ∅
  /\ GetActiveGangCount (gangManager (fst (checkForSpike w (s, clk)))) = 0%nat
  /\ depGraph (fst (checkForSpike w (s, clk))) = depGraph s
  /\ (forall w' : World,
        Detect (spikeDetector s) (prom w') 0 = false ->
        GetState (fst (checkForSpike w' (checkForSpike w (s, clk)))) = StateIdle)
  /\ (forall w' : World,
        Detect (spikeDetector s) (prom w') 0 = true ->
        ListPods (k8s w') None <> None ->
        GetState (fst (checkForSpike w' (checkForSpike w (s, clk)))) = StateActive
        /\ (0 < GetActiveGangCount
                  (gangManager (fst (checkForSpike w' (checkForSpike w (s, clk))))))%nat).
Proof.
  intros Hreach Hidle Hspike Hlist.
  destruct (coh_idle s (Reachable_coherent s Hreach) Hidle) as (Hnone & _ & _).
  rewrite (checkForSpike_build_failed w s clk Hidle Hspike Hlist).
  set (s1 := withMetrics (IncrementCounter "spike_events" (metrics s))
               (withGangManager
                  (SetStage GangStageGraphBuilt (SetStage GangStageDetected (gangManager s)))
                  s)).
  assert (Hidle1 : GetState s1 = StateIdle) by exact Hidle.
  cbn [fst]. split; [exact Hidle1|].
  split; [exact Hnone|].
  split; [unfold GetActiveGangCount; change (activeGangs (gangManager s1))
            with (activeGangs (gangManager s)); rewrite Hnone; reflexivity|].
  split; [reflexivity|].
  split.
  - intros w' Hquiet.
    rewrite (checkForSpike_no_spike w' s1 (snd (Now clk)) Hquiet). exact Hidle1.
  - intros w' Hspike' Hlist'.
    destruct (checkForSpike_activates w' s1 (snd (Now clk)) Hidle1 Hspike' Hlist')
      as (Hact & Hne & _).
    split; [exact Hact|]. unfold GetActiveGangCount.
    destruct (size (activeGangs (gangManager (fst (checkForSpike w' (s1, snd (Now clk)))))))
      eqn:Hsize; [|lia].
    apply map_size_empty_iff in Hsize. contradiction.
Qed.

Lemma C5_build_failure_stays_dormant_witness :
  GetState (fst (checkForSpike Samples.worldBroken (Samples.sIdle, Samples.clockFrom Samples.t0)))
  = StateIdle.
Proof.
  apply (C5_build_failure_stays_dormant Samples.worldBroken Samples.sIdle
           (Samples.clockFrom Samples.t0)).
  - apply reach_start.
  - reflexivity.
  - vm_compute. reflexivity.
  - reflexivity.
Defined.

(** *** Counters *)

Lemma SetState_gangsDisssolved (st : SchedulerState) (s : NEXUSScheduler) :
  gangsDisssolved (metrics (SetState st s)) = gangsDisssolved (metrics s).
Proof. unfold SetState. destruct (decide (state s = st)); reflexivity. Qed.

Lemma poll_activation_forms_gangs (w : World) (s : NEXUSScheduler) (clk : Clock) :
  GetState s = StateIdle ->
  GetState (fst (checkForSpike w (s, clk))) = StateActive ->
  activeGangs (gangManager (fst (checkForSpike w (s, clk)))) <> ∅.
Proof.
  intros Hidle Hact.
  destruct (Detect (spikeDetector s) (prom w) 0) eqn:Hspike.
  - destruct (ListPods (k8s w) None) as [pods|] eqn:Hlist.
    + apply (checkForSpike_activates w s clk Hidle Hspike). congruence.
    + rewrite (checkForSpike_build_failed w s clk Hidle Hspike Hlist) in Hact.
      unfold GetState in *. cbn in Hact. congruence.
  - rewrite (checkForSpike_no_spike w s clk Hspike) in Hact. cbn in Hact. congruence.
Qed.

(** C9, as amended: when the cooldown check brings the extender back to
    DORMANT after an activation, the activation had left at least one gang
    active and [gangs_dissolved_total] has grown by exactly one, whatever
    the number of gangs. *)
Theorem C9_dissolution_counted_once (wUp wDown : World) (s0 : NEXUSScheduler)
    (clkUp clkDown : Clock) :
  GetState s0 = StateIdle ->
  GetState (fst (checkForSpike wUp (s0, clkUp))) = StateActive ->
  GetState (fst (cooldownCheck wDown (fst (checkForSpike wUp (s0, clkUp)), clkDown)))
    = StateIdle ->
  0 <= gangsDisssolved (metrics (fst (checkForSpike wUp (s0, clkUp)))) < Int64.max_int64 ->
  (1 <= GetActiveGangCount (gangManager (fst (checkForSpike wUp (s0, clkUp)))))%nat
  /\ gangsDisssolved
       (metrics (fst (cooldownCheck wDown (fst (checkForSpike wUp (s0, clkUp)), clkDown))))
     = gangsDisssolved (metrics (fst (checkForSpike wUp (s0, clkUp)))) + 1.
Proof.
  intros Hidle Hact Hback Hrange.
  pose proof (poll_activation_forms_gangs wUp s0 clkUp Hidle Hact) as Hgangs.
  set (s1 := fst (checkForSpike wUp (s0, clkUp))) in *.
  assert (Hsize : size (activeGangs (gangManager s1)) <> 0%nat).
  { intros H0. apply map_size_empty_iff in H0. contradiction. }
  split; [unfold GetActiveGangCount; lia|].
  destruct (proj1 (cooldownCheck_idle_iff wDown s1 clkDown Hact) Hback)
    as (Hlate & Hquiet).
  rewrite (cooldownCheck_dissolves wDown s1 clkDown Hact Hlate Hquiet). cbn [fst].
  rewrite SetState_gangsDisssolved. cbn [metrics withMetrics].
  rewrite DissolveAll_metrics.
  cbn [activeGangs SetStage].
  destruct (Nat.eqb_spec (size (activeGangs (gangManager s1))) 0) as [H0|_]; [contradiction|].
  change (gangsDisssolved (IncrementCounter "gangs_dissolved" (metrics s1)))
    with (Int64.incr (gangsDisssolved (metrics s1))).
  apply incr_no_wrap. exact Hrange.
Qed.

Lemma C9_dissolution_counted_once_witness :
  gangsDisssolved
    (metrics (fst (cooldownCheck Samples.worldQuiet
                     (fst (checkForSpike Samples.worldSpike
                             (Samples.sIdle, Samples.clockFrom Samples.t0)),
                      Samples.clockFrom (Samples.t0 + 40 * second)))))
  = gangsDisssolved
      (metrics (fst (checkForSpike Samples.worldSpike
                       (Samples.sIdle, Samples.clockFrom Samples.t0)))) + 1.
Proof.
  apply (C9_dissolution_counted_once Samples.worldSpike Samples.worldQuiet Samples.sIdle
           (Samples.clockFrom Samples.t0) (Samples.clockFrom (Samples.t0 + 40 * second))).
  - reflexivity.
  - vm_compute. reflexivity.
  - vm_compute. reflexivity.
  - vm_compute. split; congruence.
Defined.

(** C9 as stated fails after an activation that forms the two built-in
    gangs: the dissolution of both moves the counter from 0 to 1. *)
Lemma C9_two_gangs_one_increment :
  ~ Spec.dissolvedCountsGangs Samples.worldSpike Samples.worldQuiet Samples.sIdle
      (Samples.clockFrom Samples.t0) (Samples.clockFrom (Samples.t0 + 40 * second)).
Proof.
  unfold Spec.dissolvedCountsGangs. intros H.
  assert (H1 : GetState Samples.sIdle = StateIdle) by reflexivity.
  assert (H2 : GetState (fst (checkForSpike Samples.worldSpike
                                (Samples.sIdle, Samples.clockFrom Samples.t0))) = StateActive)
    by (vm_compute; reflexivity).
  assert (H3 : GetState (fst (cooldownCheck Samples.worldQuiet
                 (fst (checkForSpike Samples.worldSpike
                         (Samples.sIdle, Samples.clockFrom Samples.t0)),
                  Samples.clockFrom (Samples.t0 + 40 * second)))) = StateIdle)
    by (vm_compute; reflexivity).
  specialize (H H1 H2 H3). clear H1 H2 H3. vm_compute in H. discriminate H.
Qed.

Example two_gangs_after_activation :
  GetActiveGangCount (gangManager Samples.sActive) = 2%nat
  /\ gangsFormed (metrics Samples.sActive) = 1.
Proof. split; vm_compute; reflexivity. Qed.

(** *** The fallback signal *)

Lemma Detect_unreachable (sd : SpikeDetector) (p : Prometheus) (pending : Z) :
  isPrometheusReachable p = false ->
  Detect sd p pending = (fallbackThreshold sd <=? pending).
Proof. intros H. unfold Detect. rewrite H. reflexivity. Qed.

(** C10: the detector the extender is built with has fallback threshold 5,
    and both loops hand it the fallback signal 0; so in every reachable
    state, when the liveness probe of the telemetry backend fails, the
    detector says no: a poll changes nothing (no activation), and a
    cooldown check past the window returns the extender to DORMANT. *)
Theorem C10_fallback_cannot_activate (w : World) (s : NEXUSScheduler) (clk : Clock) :
  Reachable s ->
  isPrometheusReachable (prom w) = false ->
  fallbackThreshold (spikeDetector s) = 5
  /\ Detect (spikeDetector s) (prom w) 0 = false
  /\ checkForSpike w (s, clk) = (s, clk)
  /\ (GetState s = StateActive ->
      cooldownDuration < reading clk (ticks clk) - lastSpikeTime s ->
      GetState (fst (cooldownCheck w (s, clk))) = StateIdle).
Proof.
  intros Hreach Hdown.
  pose proof (coh_fallback s (Reachable_coherent s Hreach)) as Hfb.
  assert (Hno : Detect (spikeDetector s) (prom w) 0 = false).
  { rewrite (Detect_unreachable _ _ _ Hdown), Hfb. reflexivity. }
  repeat split; try assumption.
  - apply checkForSpike_no_spike. exact Hno.
  - intros Hact Hlate.
    apply (proj2 (cooldownCheck_idle_iff w s clk Hact)). split; assumption.
Qed.

Lemma C10_fallback_cannot_activate_witness :
  Detect (spikeDetector Samples.sIdle) (prom Samples.worldDown) 0 = false
  /\ checkForSpike Samples.worldDown (Samples.sIdle, Samples.clockFrom Samples.t0)
     = (Samples.sIdle, Samples.clockFrom Samples.t0).
Proof.
  destruct (C10_fallback_cannot_activate Samples.worldDown Samples.sIdle
              (Samples.clockFrom Samples.t0) (reach_start Samples.env0) eq_refl)
    as (_ & Hno & Hsame & _).
  split; assumption.
Defined.

Example NewSpikeDetector_fallback (env : Environ) :
  fallbackThreshold (NewSpikeDetector env) = 5.
Proof. reflexivity. Qed.

(** *** One gang per service *)

Lemma indexServices_lookup (gangID : string) (services : list string)
    (index : gmap string string) (svc : string) :
  indexServices gangID services index !! svc
  = if decide (svc ∈ services) then Some gangID else index !! svc.
Proof.
  unfold indexServices. revert index.
  induction services as [|a l IH]; intros index; cbn [foldl].
  - rewrite decide_False by apply not_elem_of_nil. reflexivity.
  - rewrite IH. destruct (decide (svc ∈ l)) as [Hin|Hnin].
    + rewrite decide_True by (right; exact Hin). reflexivity.
    + destruct (decide (svc = a)) as [->|Hne].
      * rewrite decide_True by left. apply lookup_insert_eq.
      * rewrite decide_False.
        -- apply lookup_insert_ne. congruence.
        -- intros Hin. apply elem_of_cons in Hin. tauto.
Qed.

Lemma foldl_formGang_planned (groups : list RuntimeGroup) (gm : GangManager) (clk : Clock) :
  fst (foldl formGang (gm, clk) groups) = foldl installGang gm (plannedGangs clk groups).
Proof.
  revert gm clk. induction groups as [|g gs IH]; intros gm clk; [reflexivity|].
  cbn [foldl plannedGangs formGang Now]. rewrite IH. reflexivity.
Qed.

Lemma oneGangPerService_empty (gm : GangManager) :
  activeGangs gm = ∅ -> serviceToGang gm = ∅ -> Spec.oneGangPerService gm.
Proof.
  intros Ha Hi. split.
  - intros id1 id2 g1 g2 svc _ H1. rewrite Ha, lookup_empty in H1. discriminate.
  - intros svc id. rewrite Ha, Hi, lookup_empty. split; [discriminate|].
    intros (g & Hg & _). rewrite lookup_empty in Hg. discriminate.
Qed.

Lemma installGang_inv (gm : GangManager) (p : string * Gang) :
  Spec.oneGangPerService gm -> freshFor gm p -> Spec.oneGangPerService (installGang gm p).
Proof.
  destruct p as [id g]. intros [Hdisj Hcons] [Hnew Hapart]. cbn [fst snd] in *.
  unfold Spec.gangsDisjoint, Spec.indexConsistent in *.
  split.
  - intros id1 id2 g1 g2 svc Hne H1 H2 Hin1 Hin2. cbn [installGang activeGangs fst snd] in *.
    rewrite lookup_insert in H1, H2.
    destruct (decide (id = id1)) as [->|Hn1]; destruct (decide (id1 = id2)) as [?|Hn2];
      try congruence; repeat case_decide; simplify_eq.
    + exact (Hapart id2 g2 svc H2 Hin2 Hin1).
    + exact (Hapart id1 g1 svc H1 Hin1 Hin2).
    + exact (Hdisj id1 id2 g1 g2 svc Hne H1 H2 Hin1 Hin2).
  - intros svc id'. cbn [installGang activeGangs serviceToGang fst snd].
    rewrite indexServices_lookup. destruct (decide (svc ∈ Members g)) as [Hin|Hnin].
    + split.
      * intros [= <-]. exists g. rewrite lookup_insert_eq. auto.
      * intros (g' & Hg' & Hin'). rewrite lookup_insert in Hg'.
        case_decide; [congruence|]. destruct (Hapart id' g' svc Hg' Hin' Hin).
    + rewrite Hcons. split.
      * intros (g' & Hg' & Hin'). exists g'. split; [|exact Hin'].
        rewrite lookup_insert_ne; [exact Hg'|]. intros ->. congruence.
      * intros (g' & Hg' & Hin'). rewrite lookup_insert in Hg'.
        case_decide; [simplify_eq; contradiction|]. exists g'. auto.
Qed.

Lemma foldl_installGang_inv (planned : list (string * Gang)) (gm : GangManager) :
  Spec.oneGangPerService gm ->
  NoDup (map fst planned) ->
  Spec.pairwiseDisjoint (map (fun p => Members (snd p)) planned) ->
  Forall (freshFor gm) planned ->
  Spec.oneGangPerService (foldl installGang gm planned).
Proof.
  revert gm. induction planned as [|p rest IH]; intros gm Hinv Hids Hparts Hfresh;
    [exact Hinv|].
  cbn [foldl]. cbn [map] in Hids, Hparts. apply NoDup_cons in Hids as [Hhead Hids].
  destruct Hparts as [Hp Hparts]. apply Forall_cons in Hfresh as [Hfp Hfresh].
  apply IH; try assumption.
  - apply installGang_inv; assumption.
  - rewrite Forall_map in Hp.
    apply Forall_forall. intros q Hq.
    rewrite Forall_forall in Hfresh, Hp. destruct (Hfresh q Hq) as [Hqnew Hqapart].
    assert (Hneq : fst p <> fst q).
    { intros Heq. apply Hhead. rewrite Heq. apply list_elem_of_fmap. exists q. auto. }
    split.
    + cbn [installGang activeGangs]. rewrite lookup_insert_ne by exact Hneq. exact Hqnew.
    + intros id g svc Hg Hin. cbn [installGang activeGangs] in Hg.
      rewrite lookup_insert in Hg. case_decide.
      * simplify_eq. specialize (Hp q Hq). rewrite Forall_forall in Hp.
        exact (Hp svc Hin).
      * exact (Hqapart id g svc Hg Hin).
Qed.

(** *** Gang identifiers *)

Lemma hasDash_app_dash (a d : string) : hasDash (a ++ String "-" d) = true.
Proof.
  induction a as [|c a IH]; simpl; [reflexivity|].
  rewrite IH. apply orb_true_r.
Qed.

Lemma app_dash_inj (a b d1 d2 : string) :
  hasDash d1 = false -> hasDash d2 = false ->
  (a ++ String "-" d1 = b ++ String "-" d2)%string -> a = b /\ d1 = d2.
Proof.
  intros H1 H2. revert b.
  induction a as [|c a IH]; intros [|c' b] Heq; simpl in Heq.
  - injection Heq as ->. auto.
  - injection Heq as <- ->. rewrite hasDash_app_dash in H1. discriminate.
  - injection Heq as -> <-. rewrite hasDash_app_dash in H2. discriminate.
  - injection Heq as -> Heq. destruct (IH b Heq) as [-> ->]. auto.
Qed.

Lemma pretty_N_go_no_dash (x : N) (s : string) :
  hasDash s = false -> hasDash (pretty_N_go x s) = false.
Proof.
  revert s. induction (N.lt_wf_0 x) as [x _ IH]; intros s Hs.
  destruct (decide (x = 0%N)) as [->|Hpos].
  - rewrite pretty_N_go_0. exact Hs.
  - rewrite pretty_N_go_step by lia. apply IH.
    + apply N.div_lt; lia.
    + cbn [hasDash]. rewrite Hs. unfold pretty_N_char.
      repeat case_match; reflexivity.
Qed.

Lemma pretty_Z_no_dash (z : Z) : 0 <= z -> hasDash (pretty z) = false.
Proof.
  intros Hz. destruct z as [|p|p]; [reflexivity| |lia].
  unfold pretty, pretty_Z, pretty, pretty_positive, pretty, pretty_N.
  rewrite decide_False by discriminate. apply pretty_N_go_no_dash. reflexivity.
Qed.

Lemma Sprintf_gang_inj (n1 n2 : string) (t1 t2 : Z) :
  0 <= t1 -> 0 <= t2 -> Sprintf_gang n1 t1 = Sprintf_gang n2 t2 -> n1 = n2 /\ t1 = t2.
Proof.
  intros H1 H2 Heq.
  assert (Heq' : (n1 ++ String "-" (pretty t1) = n2 ++ String "-" (pretty t2))%string).
  { unfold Sprintf_gang in Heq. injection Heq as Heq. exact Heq. }
  apply app_dash_inj in Heq'; [|apply pretty_Z_no_dash; assumption..].
  destruct Heq' as [-> Ht]. split; [reflexivity|]. exact (inj pretty _ _ Ht).
Qed.

Lemma plannedGangs_ids (groups : list RuntimeGroup) (clk : Clock) (id : string) :
  (forall n : nat, 0 <= reading clk n) ->
  id ∈ map fst (plannedGangs clk groups) ->
  exists (g : RuntimeGroup) (t : Z),
    g ∈ groups /\ 0 <= t /\ id = Sprintf_gang (group_Name g) t.
Proof.
  intros Hclk. revert clk Hclk. induction groups as [|g gs IH]; intros clk Hclk Hin.
  - cbn in Hin. apply elem_of_nil in Hin. contradiction.
  - cbn [plannedGangs Now map fst] in Hin. apply elem_of_cons in Hin as [->|Hin].
    + exists g, (reading clk (ticks clk)). split; [left|]. split; [apply Hclk | reflexivity].
    + eapply IH in Hin; [|exact Hclk]. destruct Hin as (g' & t & Hg' & Ht & ->).
      exists g', t. split; [right; exact Hg' | auto].
Qed.

Lemma plannedGangs_NoDup (groups : list RuntimeGroup) (clk : Clock) :
  (forall n : nat, 0 <= reading clk n) ->
  NoDup (map group_Name groups) ->
  NoDup (map fst (plannedGangs clk groups)).
Proof.
  intros Hclk. revert clk Hclk. induction groups as [|g gs IH]; intros clk Hclk Hnames.
  - constructor.
  - cbn [map] in Hnames. apply NoDup_cons in Hnames as [Hhead Hnames].
    cbn [plannedGangs Now map fst]. apply NoDup_cons. split.
    + intros Hin. eapply plannedGangs_ids in Hin; [|exact Hclk].
      destruct Hin as (g' & t & Hg' & Ht & Heq).
      apply Sprintf_gang_inj in Heq as [Hname _]; [|apply Hclk | exact Ht].
      apply Hhead. rewrite Hname. apply list_elem_of_fmap. exists g'. auto.
    + apply IH; [exact Hclk | exact Hnames].
Qed.

Lemma plannedGangs_members (groups : list RuntimeGroup) (clk : Clock) :
  map (fun p => Members (snd p)) (plannedGangs clk groups) = map group_Services groups.
Proof.
  revert clk. induction groups as [|g gs IH]; intros clk; [reflexivity|].
  cbn [plannedGangs Now map snd Members]. rewrite IH. reflexivity.
Qed.

Lemma FormGangs_planned (groups : list RuntimeGroup) (gm : GangManager)
    (m : NEXUSMetrics) (clk : Clock) :
  activeGangs (fst (fst (FormGangs groups (gm, m, clk))))
  = activeGangs (foldl installGang (clearGangsLocked gm) (plannedGangs (snd (Now clk)) groups))
  /\ serviceToGang (fst (fst (FormGangs groups (gm, m, clk))))
  = serviceToGang (foldl installGang (clearGangsLocked gm) (plannedGangs (snd (Now clk)) groups)).
Proof.
  unfold FormGangs. cbn [Now snd].
  rewrite <- foldl_formGang_planned.
  destruct (foldl formGang _ groups) as [gm2 clk2]. split; reflexivity.
Qed.

(** The two properties read the maps through the members only. *)
Lemma oneGangPerService_same_members (gm gm' : GangManager) :
  serviceToGang gm' = serviceToGang gm ->
  (forall id : string,
      Members <$> (activeGangs gm' !! id) = Members <$> (activeGangs gm !! id)) ->
  Spec.oneGangPerService gm -> Spec.oneGangPerService gm'.
Proof.
  intros Hix Hmem [Hdisj Hcons].
  assert (Hto : forall id g', activeGangs gm' !! id = Some g' ->
            exists g, activeGangs gm !! id = Some g /\ Members g = Members g').
  { intros id g' Hg'. specialize (Hmem id). rewrite Hg' in Hmem. cbn in Hmem.
    destruct (activeGangs gm !! id) as [g|]; [|discriminate].
    exists g. split; [reflexivity|]. cbn in Hmem. congruence. }
  assert (Hfrom : forall id g, activeGangs gm !! id = Some g ->
            exists g', activeGangs gm' !! id = Some g' /\ Members g' = Members g).
  { intros id g Hg. specialize (Hmem id). rewrite Hg in Hmem. cbn in Hmem.
    destruct (activeGangs gm' !! id) as [g'|]; [|discriminate].
    exists g'. split; [reflexivity|]. cbn in Hmem. congruence. }
  split.
  - intros id1 id2 g1 g2 svc Hne H1 H2 Hin1.
    destruct (Hto _ _ H1) as (g1' & H1' & E1). destruct (Hto _ _ H2) as (g2' & H2' & E2).
    rewrite <- E2. apply (Hdisj id1 id2 g1' g2' svc Hne H1' H2'). rewrite E1. exact Hin1.
  - intros svc id. rewrite Hix, (Hcons svc id). split.
    + intros (g & Hg & Hin). destruct (Hfrom _ _ Hg) as (g' & Hg' & E).
      exists g'. rewrite E. auto.
    + intros (g' & Hg' & Hin). destruct (Hto _ _ Hg') as (g & Hg & E).
      exists g. rewrite E. auto.
Qed.

Lemma UpdateNodePreference_inv (serviceName nodeName : string) (gm : GangManager) :
  Spec.oneGangPerService gm ->
  Spec.oneGangPerService (UpdateNodePreference serviceName nodeName gm).
Proof.
  unfold UpdateNodePreference.
  destruct (serviceToGang gm !! serviceName) as [gangID|]; [|auto].
  destruct (activeGangs gm !! gangID) as [gang|] eqn:Hgang; [|auto].
  apply oneGangPerService_same_members; [reflexivity|].
  intros id. cbn [activeGangs]. rewrite lookup_insert. case_decide.
  - subst id. rewrite Hgang. reflexivity.
  - reflexivity.
Qed.

Lemma DissolveAll_inv (gm : GangManager) (m : NEXUSMetrics) :
  Spec.oneGangPerService gm -> Spec.oneGangPerService (fst (DissolveAll (gm, m))).
Proof.
  intros H. unfold DissolveAll. destruct (size (activeGangs gm) =? 0)%nat; [exact H|].
  apply oneGangPerService_empty; reflexivity.
Qed.

Lemma runGangOps_inv (ops : list GangOp) (st : GangManager * NEXUSMetrics) :
  Spec.oneGangPerService (fst st) -> Spec.oneGangPerService (fst (runGangOps ops st)).
Proof.
  unfold runGangOps. revert st. induction ops as [|op ops IH]; intros [gm m] H; [exact H|].
  cbn [foldl]. apply IH. destruct op as [svc node|stg|]; cbn [runGangOp fst snd].
  - apply UpdateNodePreference_inv. exact H.
  - exact H.
  - apply DissolveAll_inv. exact H.
Qed.

Lemma FormGangs_oneGangPerService (groups : list RuntimeGroup) (gm : GangManager)
    (m : NEXUSMetrics) (clk : Clock) :
  NoDup (map group_Name groups) ->
  (forall n : nat, 0 <= reading clk n) ->
  Spec.pairwiseDisjoint (map group_Services groups) ->
  Spec.oneGangPerService (fst (fst (FormGangs groups (gm, m, clk)))).
Proof.
  intros Hnames Hclk Hdisj.
  destruct (FormGangs_planned groups gm m clk) as [Ha Hi].
  apply (oneGangPerService_same_members
           (foldl installGang (clearGangsLocked gm) (plannedGangs (snd (Now clk)) groups))).
  - exact Hi.
  - intros id. rewrite Ha. reflexivity.
  - apply foldl_installGang_inv.
    + apply oneGangPerService_empty; reflexivity.
    + apply plannedGangs_NoDup; assumption.
    + rewrite plannedGangs_members. exact Hdisj.
    + apply Forall_forall. intros p _. split.
      * apply lookup_empty.
      * intros id g svc Hg. cbn in Hg. rewrite lookup_empty in Hg. discriminate.
Qed.

(** C6, as amended: after gangs are formed from groups with pairwise
    distinct names and pairwise disjoint service lists (the clock showing
    instants not before the epoch), and after any further operations of the
    gang manager, every service is a member of at most one active gang: two
    active gangs share no member, and the index maps a service to an
    identifier exactly when that identifier names an active gang the
    service is a member of. *)
Theorem C6_disjoint_groups_disjoint_gangs (groups : list RuntimeGroup) (gm : GangManager)
    (m : NEXUSMetrics) (clk : Clock) (ops : list GangOp) :
  NoDup (map group_Name groups) ->
  (forall n : nat, 0 <= reading clk n) ->
  Spec.pairwiseDisjoint (map group_Services groups) ->
  Spec.oneGangPerService (fst (runGangOps ops (fst (FormGangs groups (gm, m, clk))))).
Proof.
  intros Hnames Hclk Hdisj. apply runGangOps_inv.
  apply FormGangs_oneGangPerService; assumption.
Qed.

Lemma C6_disjoint_groups_disjoint_gangs_witness :
  Spec.oneGangPerService
    (fst (runGangOps [OpUpdateNodePreference "cartservice" "h2"]
            (fst (FormGangs experimentDefaults
                    (NewGangManager, NewNEXUSMetrics, Samples.clockFrom Samples.t0))))).
Proof.
  apply (C6_disjoint_groups_disjoint_gangs experimentDefaults NewGangManager NewNEXUSMetrics
           (Samples.clockFrom Samples.t0) [OpUpdateNodePreference "cartservice" "h2"]).
  - apply (bool_decide_unpack _). vm_compute. exact I.
  - intros n. simpl. unfold Samples.t0, second. lia.
  - apply (bool_decide_unpack _). vm_compute. exact I.
Defined.

(** C6 as stated fails when two groups share a service: two annotated pods
    of different groups both depend on the currency service, and after the
    activation both gangs have it as a member. *)
Lemma C6_shared_dependency_two_gangs :
  ~ Spec.oneGangPerService (gangManager Samples.sOverlap).
Proof.
  intros [Hdisj _].
  eapply (Hdisj "gang-checkout-1700000000000000002" "gang-browse-1700000000000000004"
                _ _ "currencyservice").
  - discriminate.
  - vm_compute. reflexivity.
  - vm_compute. reflexivity.
  - left.
  - left.
Qed.


(** The groups a build yields have pairwise distinct names, so that the
    gangs of an activation are apart as soon as the groups share no
    service. *)
Lemma groupsOfMap_names (groupMap : gmap string (gmap string bool)) :
  map group_Name (groupsOfMap groupMap) = map fst (map_to_list groupMap).
Proof.
  unfold groupsOfMap. rewrite map_map. apply map_ext. intros [name services]. reflexivity.
Qed.

Lemma BuildFromAnnotations_names (cs : Clientset) (dg dg' : DependencyGraph) :
  BuildFromAnnotations cs dg = Some dg' -> NoDup (map group_Name (groups dg')).
Proof.
  unfold BuildFromAnnotations. destruct (ListPods cs None) as [pods|]; [|discriminate].
  intros [= <-]. cbn [groups].
  destruct (length (groupsOfMap (foldl scanPod ∅ pods)) =? 0)%nat.
  - cbn. apply (bool_decide_unpack _). vm_compute. exact I.
  - cbn [groups]. rewrite groupsOfMap_names. apply NoDup_fst_map_to_list.
Qed.

Lemma activation_oneGangPerService (w : World) (s : NEXUSScheduler) (clk : Clock) :
  GetState s = StateIdle ->
  GetState (fst (checkForSpike w (s, clk))) = StateActive ->
  (forall n : nat, 0 <= reading clk n) ->
  Spec.pairwiseDisjoint
    (map group_Services (groups (depGraph (fst (checkForSpike w (s, clk)))))) ->
  Spec.oneGangPerService (gangManager (fst (checkForSpike w (s, clk)))).
Proof.
  intros Hidle Hact Hclk. unfold GetState in *. revert Hact.
  unfold checkForSpike, GetState. rewrite Hidle.
  destruct (Detect (spikeDetector s) (prom w) 0); [|cbn; congruence].
  cbn [Now].
  destruct (BuildFromAnnotations (k8s w) (depGraph s)) as [dg|] eqn:Hbuild;
    [|cbn; congruence].
  pose proof (BuildFromAnnotations_names _ _ _ Hbuild) as Hnames.
  unfold GetGroups. destruct (0 <? length (groups dg))%nat eqn:Hlen.
  - pose proof (FormGangs_oneGangPerService (groups dg)
                  (SetStage GangStageGraphBuilt (SetStage GangStageDetected (gangManager s)))
                  (IncrementCounter "spike_events" (metrics s))
                  {| ticks := S (ticks clk); reading := reading clk |} Hnames Hclk) as Hform.
    destruct (FormGangs (groups dg) _) as [[gm m] c]. cbn [fst] in Hform.
    cbn [Now fst]. intros _ Hdisj.
    match goal with |- Spec.oneGangPerService (gangManager ?X) =>
      assert (Hgm : gangManager X = SetStage GangStageScheduling gm)
        by (cbn [withLastSpikeTime gangManager]; unfold SetState;
            destruct (decide _); reflexivity);
      assert (Hdg : depGraph X = dg)
        by (cbn [withLastSpikeTime depGraph]; unfold SetState;
            destruct (decide _); reflexivity);
      rewrite Hgm; rewrite Hdg in Hdisj
    end.
    exact (Hform Hdisj).
  - apply Nat.ltb_ge in Hlen.
    destruct (groups dg) as [|g gs] eqn:Hg; [|cbn in Hlen; lia].
    unfold BuildFromAnnotations in Hbuild.
    destruct (ListPods (k8s w) None) as [pods|]; [|discriminate].
    injection Hbuild as <-. cbn [groups] in Hg.
    destruct (length (groupsOfMap (foldl scanPod ∅ pods)) =? 0)%nat eqn:E.
    + discriminate.
    + cbn [groups] in Hg. rewrite Hg in E. discriminate.
Qed.

(* ===================================================================== *)
(** ** Further properties of the code *)
(* ===================================================================== *)

Lemma wrap64_add_l (a b : Z) : Int64.wrap64 (Int64.wrap64 a + b) = Int64.wrap64 (a + b).
Proof.
  unfold Int64.wrap64, Int64.modulus. f_equal.
  replace ((a + 2 ^ 63) mod 2 ^ 64 - 2 ^ 63 + b + 2 ^ 63)
    with ((a + 2 ^ 63) mod 2 ^ 64 + b) by lia.
  rewrite Zplus_mod_idemp_l. f_equal. lia.
Qed.

Lemma wrap64_add_r (a b : Z) : Int64.wrap64 (a + Int64.wrap64 b) = Int64.wrap64 (a + b).
Proof. rewrite Z.add_comm, wrap64_add_l. f_equal. lia. Qed.

(** *** Gang manager: dissolution, preferences, lookups after a formation *)

(** X1: after [DissolveAll] there is no active gang, no service and no pod has
    a gang, and a second [DissolveAll] changes nothing (the counter
    included). *)
Theorem DissolveAll_leaves_nothing (gm : GangManager) (m : NEXUSMetrics) :
  GetActiveGangCount (fst (DissolveAll (gm, m))) = 0%nat
  /\ HasActiveGangs (fst (DissolveAll (gm, m))) = false
  /\ (forall svc : string, GetGangForService (fst (DissolveAll (gm, m))) svc = None)
  /\ (forall pod : Pod, GetGangMembers (fst (DissolveAll (gm, m))) pod = None)
  /\ DissolveAll (DissolveAll (gm, m)) = DissolveAll (gm, m).
Proof.
  pose proof (DissolveAll_activeGangs gm m) as Hnone.
  assert (Hget : forall svc, GetGangForService (fst (DissolveAll (gm, m))) svc = None).
  { intros svc. apply GetGangForService_no_gangs. exact Hnone. }
  unfold GetActiveGangCount, HasActiveGangs, GetGangMembers, GetGangForPod.
  rewrite Hnone, map_size_empty. repeat split; try reflexivity.
  - exact Hget.
  - intros pod. rewrite Hget. reflexivity.
  - destruct (DissolveAll (gm, m)) as [gm' m'] eqn:HD. cbn [fst] in Hnone.
    unfold DissolveAll at 1. rewrite Hnone, map_size_empty. reflexivity.
Qed.

(** [UpdateNodePreference] on a service without a gang changes nothing. *)
Lemma UpdateNodePreference_no_gang (serviceName nodeName : string) (gm : GangManager) :
  GetGangForService gm serviceName = None ->
  UpdateNodePreference serviceName nodeName gm = gm.
Proof.
  unfold GetGangForService, UpdateNodePreference.
  destruct (serviceToGang gm !! serviceName) as [gangID|]; [|reflexivity].
  intros ->. reflexivity.
Qed.

(** X2: [UpdateNodePreference] on a service with a gang adds one to the count of
    the node in that gang; the gang's other counts, its members, the index
    and the gangs under other identifiers stay as they are. *)
Theorem UpdateNodePreference_counts (serviceName nodeName : string) (gm : GangManager)
    (gangID : string) (gang : Gang) :
  serviceToGang gm !! serviceName = Some gangID ->
  activeGangs gm !! gangID = Some gang ->
  0 <= default 0 (NodePrefs gang !! nodeName) < Int64.max_int64 ->
  exists gang' : Gang,
    GetGangForService (UpdateNodePreference serviceName nodeName gm) serviceName = Some gang'
    /\ NodePrefs gang' !! nodeName = Some (default 0 (NodePrefs gang !! nodeName) + 1)
    /\ (forall other : string, other <> nodeName ->
          NodePrefs gang' !! other = NodePrefs gang !! other)
    /\ Members gang' = Members gang /\ ID gang' = ID gang
    /\ CreatedAt gang' = CreatedAt gang /\ Stage gang' = Stage gang
    /\ serviceToGang (UpdateNodePreference serviceName nodeName gm) = serviceToGang gm
    /\ (forall id : string, id <> gangID ->
          activeGangs (UpdateNodePreference serviceName nodeName gm) !! id
          = activeGangs gm !! id).
Proof.
  intros Hix Hgang Hrange. unfold GetGangForService, UpdateNodePreference.
  rewrite Hix, Hgang. cbn [serviceToGang activeGangs]. rewrite Hix.
  rewrite lookup_insert_eq. eexists. split; [reflexivity|].
  cbn [NodePrefs Members ID CreatedAt Stage].
  rewrite lookup_insert_eq, (incr_no_wrap _ Hrange).
  repeat split; try reflexivity.
  - intros other Hne. apply lookup_insert_ne. congruence.
  - intros id Hne. apply lookup_insert_ne. congruence.
Qed.

Lemma UpdateNodePreference_counts_witness :
  exists gang' : Gang,
    GetGangForService
      (UpdateNodePreference "cartservice" "h2" (gangManager Samples.sActive)) "cartservice"
    = Some gang'
    /\ NodePrefs gang' !! "h2" = Some 1
    /\ Members gang' = Members Samples.cartGang.
Proof.
  destruct (UpdateNodePreference_counts "cartservice" "h2" (gangManager Samples.sActive)
              "gang-checkout-flow-1700000000000000002" Samples.cartGang)
    as (gang' & Hget & Hcount & _ & Hmembers & _).
  - vm_compute. reflexivity.
  - vm_compute. reflexivity.
  - vm_compute. split; [discriminate | reflexivity].
  - exists gang'. split; [exact Hget|]. split; [exact Hcount | exact Hmembers].
Defined.

(** The maps after entering a list of planned gangs with pairwise distinct
    identifiers. *)
Lemma foldl_installGang_size (planned : list (string * Gang)) (gm : GangManager) :
  NoDup (map fst planned) ->
  Forall (fun p => activeGangs gm !! fst p = None) planned ->
  size (activeGangs (foldl installGang gm planned))
  = (size (activeGangs gm) + length planned)%nat.
Proof.
  revert gm. induction planned as [|p rest IH]; intros gm Hids Hnew; cbn [foldl length].
  - lia.
  - cbn [map] in Hids. apply NoDup_cons in Hids as [Hhead Hids].
    apply Forall_cons in Hnew as [Hp Hnew].
    rewrite IH; [| exact Hids |].
    + cbn [installGang activeGangs]. rewrite map_size_insert_None by exact Hp. lia.
    + apply Forall_forall. intros q Hq. rewrite Forall_forall in Hnew.
      cbn [installGang activeGangs]. rewrite lookup_insert_ne; [exact (Hnew q Hq)|].
      intros Heq. apply Hhead. rewrite Heq. apply list_elem_of_fmap. exists q. auto.
Qed.

Lemma foldl_installGang_active (planned : list (string * Gang)) (gm : GangManager)
    (p : string * Gang) :
  NoDup (map fst planned) -> p ∈ planned ->
  activeGangs (foldl installGang gm planned) !! fst p = Some (snd p).
Proof.
  revert gm. induction planned as [|q rest IH]; intros gm Hids Hin.
  - apply elem_of_nil in Hin. contradiction.
  - cbn [map] in Hids. apply NoDup_cons in Hids as [Hhead Hids]. cbn [foldl].
    apply elem_of_cons in Hin as [->|Hin]; [|apply IH; assumption].
    clear IH. revert gm Hhead. induction rest as [|r rest IH]; intros gm Hhead.
    + cbn. apply lookup_insert_eq.
    + cbn [foldl]. cbn [map] in Hhead, Hids. apply NoDup_cons in Hids as [_ Hids].
      apply not_elem_of_cons in Hhead as [Hne Hhead].
      assert (Hswap : activeGangs (installGang (installGang gm q) r)
                      = activeGangs (installGang
                          {| activeGangs := <[fst r := snd r]> (activeGangs gm);
                             serviceToGang := serviceToGang (installGang (installGang gm q) r);
                             stage := stage gm |} q)).
      { cbn [installGang activeGangs]. apply insert_insert_ne. congruence. }
      specialize (IH Hids).
      (* the maps of gangs only depend on the gangs entered *)
      assert (Hdep : forall (l : list (string * Gang)) (a b : GangManager),
                 activeGangs a = activeGangs b ->
                 activeGangs (foldl installGang a l) = activeGangs (foldl installGang b l)).
      { induction l as [|x l IHl]; intros a b Hab; [exact Hab|].
        cbn [foldl]. apply IHl. cbn [installGang activeGangs]. rewrite Hab. reflexivity. }
      rewrite (Hdep rest _ _ Hswap). apply IH. exact Hhead.
Qed.

Lemma foldl_installGang_index_keep (planned : list (string * Gang)) (gm : GangManager)
    (svc : string) :
  Forall (fun p => svc ∉ Members (snd p)) planned ->
  serviceToGang (foldl installGang gm planned) !! svc = serviceToGang gm !! svc.
Proof.
  revert gm. induction planned as [|p rest IH]; intros gm Hout; [reflexivity|].
  apply Forall_cons in Hout as [Hp Hout]. cbn [foldl]. rewrite IH by exact Hout.
  cbn [installGang serviceToGang]. rewrite indexServices_lookup.
  rewrite decide_False by exact Hp. reflexivity.
Qed.

Lemma foldl_installGang_index_last (before after : list (string * Gang))
    (p : string * Gang) (gm : GangManager) (svc : string) :
  svc ∈ Members (snd p) ->
  Forall (fun q => svc ∉ Members (snd q)) after ->
  serviceToGang (foldl installGang gm (before ++ p :: after)) !! svc = Some (fst p).
Proof.
  intros Hin Hout. rewrite foldl_app. cbn [foldl].
  rewrite foldl_installGang_index_keep by exact Hout.
  cbn [installGang serviceToGang]. rewrite indexServices_lookup.
  rewrite decide_True by exact Hin. reflexivity.
Qed.

Lemma plannedGangs_app (a b : list RuntimeGroup) (clk : Clock) :
  exists clk' : Clock,
    reading clk' = reading clk
    /\ plannedGangs clk (a ++ b) = (plannedGangs clk a ++ plannedGangs clk' b)%list.
Proof.
  revert clk. induction a as [|g a IH]; intros clk.
  - exists clk. split; reflexivity.
  - cbn [app plannedGangs Now].
    destruct (IH {| ticks := S (S (ticks clk)); reading := reading clk |})
      as (clk' & Hr & Heq).
    exists clk'. split; [exact Hr|]. cbn [ticks reading] in *. rewrite Heq. reflexivity.
Qed.

Lemma plannedGangs_members_out (groups : list RuntimeGroup) (clk : Clock) (svc : string) :
  Forall (fun g => svc ∉ group_Services g) groups ->
  Forall (fun p => svc ∉ Members (snd p)) (plannedGangs clk groups).
Proof.
  revert clk. induction groups as [|g gs IH]; intros clk Hout; [constructor|].
  apply Forall_cons in Hout as [Hg Hout]. cbn [plannedGangs Now].
  constructor; [exact Hg | apply IH; exact Hout].
Qed.

(** The gang manager right after [FormGangs], read through the planned
    gangs. *)
Lemma FormGangs_lookup (groups : list RuntimeGroup) (gm : GangManager)
    (m : NEXUSMetrics) (clk : Clock) (svc : string) :
  GetGangForService (fst (fst (FormGangs groups (gm, m, clk)))) svc
  = match serviceToGang (foldl installGang (clearGangsLocked gm)
                           (plannedGangs (snd (Now clk)) groups)) !! svc with
    | None => None
    | Some gangID =>
        activeGangs (foldl installGang (clearGangsLocked gm)
                       (plannedGangs (snd (Now clk)) groups)) !! gangID
    end.
Proof.
  destruct (FormGangs_planned groups gm m clk) as [Ha Hi].
  unfold GetGangForService. rewrite Ha, Hi. reflexivity.
Qed.

Lemma FormGangs_lookup_last (before after : list RuntimeGroup) (g : RuntimeGroup)
    (gm : GangManager) (m : NEXUSMetrics) (clk : Clock) (svc : string) :
  NoDup (map group_Name (before ++ g :: after)) ->
  (forall n : nat, 0 <= reading clk n) ->
  svc ∈ group_Services g ->
  Forall (fun g' => svc ∉ group_Services g') after ->
  exists (gang : Gang) (nano : Z),
    GetGangForService (fst (fst (FormGangs (before ++ g :: after) (gm, m, clk)))) svc
      = Some gang
    /\ Members gang = group_Services g
    /\ ID gang = Sprintf_gang (group_Name g) nano
    /\ NodePrefs gang = ∅
    /\ Stage gang = GangStageFormed.
Proof.
  intros Hnames Hclk Hin Hout. rewrite FormGangs_lookup.
  set (clk1 := snd (Now clk)).
  assert (Hclk1 : forall n, 0 <= reading clk1 n) by exact Hclk.
  pose proof (plannedGangs_NoDup (before ++ g :: after) clk1 Hclk1 Hnames) as Hids.
  destruct (plannedGangs_app before (g :: after) clk1) as (clk2 & Hr2 & Happ).
  rewrite Happ in *. cbn [plannedGangs Now] in *.
  set (p := (Sprintf_gang (group_Name g) (reading clk2 (ticks clk2)),
             {| ID := Sprintf_gang (group_Name g) (reading clk2 (ticks clk2));
                Members := group_Services g; NodePrefs := ∅;
                CreatedAt := reading clk2 (S (ticks clk2));
                Stage := GangStageFormed |})) in *.
  rewrite (foldl_installGang_index_last _ _ p _ svc Hin
             (plannedGangs_members_out after _ svc Hout)).
  rewrite (foldl_installGang_active _ _ p Hids);
    [| apply elem_of_app; right; left].
  exists (snd p), (reading clk2 (ticks clk2)). repeat split.
Qed.

Lemma FormGangs_lookup_unlisted (groups : list RuntimeGroup) (gm : GangManager)
    (m : NEXUSMetrics) (clk : Clock) (svc : string) :
  Forall (fun g => svc ∉ group_Services g) groups ->
  GetGangForService (fst (fst (FormGangs groups (gm, m, clk)))) svc = None.
Proof.
  intros Hout. rewrite FormGangs_lookup.
  rewrite foldl_installGang_index_keep by (apply plannedGangs_members_out; exact Hout).
  cbn. rewrite lookup_empty. reflexivity.
Qed.

(** X3: after [FormGangs] over groups with pairwise distinct names, a service has
    the gang of the last group that lists it: the gang's members are that
    group's services, its identifier is made of that group's name, its
    preferences are empty and its stage is FORMED.  A service that no group
    lists has no gang, whatever gangs there were before. *)
Theorem FormGangs_then_lookup (groups : list RuntimeGroup) (gm : GangManager)
    (m : NEXUSMetrics) (clk : Clock) (svc : string) :
  NoDup (map group_Name groups) ->
  (forall n : nat, 0 <= reading clk n) ->
  (forall (before after : list RuntimeGroup) (g : RuntimeGroup),
      groups = (before ++ g :: after)%list ->
      svc ∈ group_Services g ->
      Forall (fun g' => svc ∉ group_Services g') after ->
      exists (gang : Gang) (nano : Z),
        GetGangForService (fst (fst (FormGangs groups (gm, m, clk)))) svc = Some gang
        /\ Members gang = group_Services g
        /\ ID gang = Sprintf_gang (group_Name g) nano
        /\ NodePrefs gang = ∅
        /\ Stage gang = GangStageFormed)
  /\ (Forall (fun g => svc ∉ group_Services g) groups ->
      GetGangForService (fst (fst (FormGangs groups (gm, m, clk)))) svc = None).
Proof.
  intros Hnames Hclk. split.
  - intros before after g -> Hin Hout.
    exact (FormGangs_lookup_last before after g gm m clk svc Hnames Hclk Hin Hout).
  - apply FormGangs_lookup_unlisted.
Qed.

Lemma FormGangs_then_lookup_witness :
  (exists (gang : Gang) (nano : Z),
      GetGangForService
        (fst (fst (FormGangs experimentDefaults
                     (NewGangManager, NewNEXUSMetrics, Samples.clockFrom Samples.t0))))
        "frontend" = Some gang
      /\ Members gang = ["frontend"; "productcatalogservice"; "recommendationservice"]
      /\ ID gang = Sprintf_gang "product-browsing" nano
      /\ NodePrefs gang = ∅
      /\ Stage gang = GangStageFormed)
  /\ GetGangForService
       (fst (fst (FormGangs experimentDefaults
                    (NewGangManager, NewNEXUSMetrics, Samples.clockFrom Samples.t0))))
       "loadgenerator" = None.
Proof.
  split.
  - destruct (FormGangs_then_lookup experimentDefaults NewGangManager NewNEXUSMetrics
                (Samples.clockFrom Samples.t0) "frontend") as [Hlisted _].
    + apply (bool_decide_unpack _). vm_compute. exact I.
    + intros n. simpl. unfold Samples.t0, second. lia.
    + apply (Hlisted
               [ {| group_Name := "checkout-flow";
                    group_Services := ["cartservice"; "paymentservice"; "checkoutservice";
                                       "currencyservice"] |} ]
               []
               {| group_Name := "product-browsing";
                  group_Services := ["frontend"; "productcatalogservice";
                                     "recommendationservice"] |}).
      * reflexivity.
      * apply (bool_decide_unpack _). vm_compute. exact I.
      * constructor.
  - destruct (FormGangs_then_lookup experimentDefaults NewGangManager NewNEXUSMetrics
                (Samples.clockFrom Samples.t0) "loadgenerator") as [_ Hunlisted].
    + apply (bool_decide_unpack _). vm_compute. exact I.
    + intros n. simpl. unfold Samples.t0, second. lia.
    + apply Hunlisted. apply (bool_decide_unpack _). vm_compute. exact I.
Defined.

(** X4: after [FormGangs] over groups with pairwise distinct names there is one
    active gang per group. *)
Theorem FormGangs_one_gang_per_group (groups : list RuntimeGroup) (gm : GangManager)
    (m : NEXUSMetrics) (clk : Clock) :
  NoDup (map group_Name groups) ->
  (forall n : nat, 0 <= reading clk n) ->
  GetActiveGangCount (fst (fst (FormGangs groups (gm, m, clk)))) = length groups
  /\ HasActiveGangs (fst (fst (FormGangs groups (gm, m, clk))))
     = negb (length groups =? 0)%nat.
Proof.
  intros Hnames Hclk. destruct (FormGangs_planned groups gm m clk) as [Ha _].
  unfold GetActiveGangCount, HasActiveGangs. rewrite Ha.
  rewrite foldl_installGang_size.
  - cbn [clearGangsLocked activeGangs]. rewrite map_size_empty.
    assert (Hlen : length (plannedGangs (snd (Now clk)) groups) = length groups).
    { rewrite <- (length_map (fun p => Members (snd p))), plannedGangs_members.
      apply length_map. }
    rewrite Hlen. split; [reflexivity|]. destruct (length groups); reflexivity.
  - apply plannedGangs_NoDup; assumption.
  - apply Forall_forall. intros p _. apply lookup_empty.
Qed.

Lemma FormGangs_one_gang_per_group_witness :
  GetActiveGangCount
    (fst (fst (FormGangs experimentDefaults
                 (NewGangManager, NewNEXUSMetrics, Samples.clockFrom Samples.t0))))
  = 2%nat
  /\ HasActiveGangs
       (fst (fst (FormGangs experimentDefaults
                    (NewGangManager, NewNEXUSMetrics, Samples.clockFrom Samples.t0))))
     = true.
Proof.
  apply (FormGangs_one_gang_per_group experimentDefaults NewGangManager NewNEXUSMetrics
           (Samples.clockFrom Samples.t0)).
  - apply (bool_decide_unpack _). vm_compute. exact I.
  - intros n. simpl. unfold Samples.t0, second. lia.
Defined.

(** *** Groups of the graph and gangs of the manager *)

Lemma listsService_elem (svc : string) (services : list string) :
  listsService svc services = true <-> svc ∈ services.
Proof.
  induction services as [|a l IH]; cbn [listsService].
  - split; [discriminate | intros H; apply elem_of_nil in H; contradiction].
  - destruct (decide (a = svc)) as [->|Hne].
    + split; [intros _; left | reflexivity].
    + rewrite IH. split; [intros H; right; exact H|].
      intros H. apply elem_of_cons in H as [->|H]; [contradiction | exact H].
Qed.

Lemma findGroup_Some (svc : string) (gs : list RuntimeGroup) (g : RuntimeGroup) :
  findGroup svc gs = Some g ->
  exists before after : list RuntimeGroup,
    gs = (before ++ g :: after)%list
    /\ svc ∈ group_Services g
    /\ Forall (fun g' => svc ∉ group_Services g') before.
Proof.
  induction gs as [|h gs IH]; cbn [findGroup]; [discriminate|].
  destruct (listsService svc (group_Services h)) eqn:Hh.
  - intros [= <-]. exists [], gs. split; [reflexivity|].
    split; [apply listsService_elem; exact Hh | constructor].
  - intros Hfind. destruct (IH Hfind) as (before & after & -> & Hin & Hout).
    exists (h :: before), after. split; [reflexivity|]. split; [exact Hin|].
    constructor; [|exact Hout]. rewrite <- listsService_elem, Hh. discriminate.
Qed.

Lemma findGroup_None (svc : string) (gs : list RuntimeGroup) :
  findGroup svc gs = None -> Forall (fun g => svc ∉ group_Services g) gs.
Proof.
  induction gs as [|h gs IH]; cbn [findGroup]; [constructor|].
  destruct (listsService svc (group_Services h)) eqn:Hh; [discriminate|].
  intros Hfind. constructor; [|apply IH; exact Hfind].
  rewrite <- listsService_elem, Hh. discriminate.
Qed.

Lemma pairwiseDisjoint_after (before after : list (list string)) (l : list string)
    (svc : string) :
  Spec.pairwiseDisjoint (before ++ l :: after) -> svc ∈ l ->
  Forall (fun l' => svc ∉ l') after.
Proof.
  induction before as [|b before IH]; cbn [app Spec.pairwiseDisjoint].
  - intros [Hl _] Hin. apply Forall_forall. intros l' Hl'.
    rewrite Forall_forall in Hl. specialize (Hl l' Hl'). rewrite Forall_forall in Hl.
    exact (Hl svc Hin).
  - intros [_ Hrest] Hin. exact (IH Hrest Hin).
Qed.

(** X5: for groups with pairwise distinct names and pairwise disjoint services,
    the gang manager after [FormGangs] answers for every pod as the graph
    does: the members of the pod's gang are the services of the pod's
    group, and a pod outside every group has no gang. *)
Theorem gang_members_are_group_members (dg : DependencyGraph) (gm : GangManager)
    (m : NEXUSMetrics) (clk : Clock) (pod : Pod) :
  NoDup (map group_Name (GetGroups dg)) ->
  (forall n : nat, 0 <= reading clk n) ->
  Spec.pairwiseDisjoint (map group_Services (GetGroups dg)) ->
  GetGangMembers (fst (fst (FormGangs (GetGroups dg) (gm, m, clk)))) pod
  = if IsInGroup dg pod then Some (GetGroupMembers dg pod) else None.
Proof.
  intros Hnames Hclk Hdisj.
  unfold GetGangMembers, GetGangForPod, IsInGroup, GetGroupMembers, GetGroup, GetGroups in *.
  set (svc := extractServiceName (pod_Name pod)).
  destruct (findGroup svc (groups dg)) as [g|] eqn:Hfind.
  - destruct (findGroup_Some _ _ _ Hfind) as (before & after & Heq & Hin & _).
    rewrite Heq in *.
    assert (Hout : Forall (fun g' => svc ∉ group_Services g') after).
    { rewrite map_app in Hdisj. cbn [map] in Hdisj.
      pose proof (pairwiseDisjoint_after _ _ _ svc Hdisj Hin) as H.
      rewrite Forall_map in H. exact H. }
    destruct (FormGangs_lookup_last before after g gm m clk svc Hnames Hclk Hin Hout)
      as (gang & nano & -> & Hmem & _).
    rewrite Hmem. reflexivity.
  - rewrite (FormGangs_lookup_unlisted _ gm m clk svc (findGroup_None _ _ Hfind)).
    reflexivity.
Qed.

Lemma gang_members_are_group_members_witness :
  GetGangMembers
    (fst (fst (FormGangs (GetGroups (depGraph Samples.sActive))
                 (NewGangManager, NewNEXUSMetrics, Samples.clockFrom Samples.t0))))
    Samples.cartPod
  = if IsInGroup (depGraph Samples.sActive) Samples.cartPod
    then Some (GetGroupMembers (depGraph Samples.sActive) Samples.cartPod)
    else None.
Proof.
  apply (gang_members_are_group_members (depGraph Samples.sActive) NewGangManager
           NewNEXUSMetrics (Samples.clockFrom Samples.t0) Samples.cartPod).
  - apply (bool_decide_unpack _). vm_compute. exact I.
  - intros n. simpl. unfold Samples.t0, second. lia.
  - apply (bool_decide_unpack _). vm_compute. exact I.
Defined.

(** *** Counters, gauge and memory of the reachable states *)

Lemma FormGangs_metrics (groups : list RuntimeGroup) (gm : GangManager)
    (m : NEXUSMetrics) (clk : Clock) :
  snd (fst (FormGangs groups (gm, m, clk))) = IncrementCounter "gangs_formed" m.
Proof.
  unfold FormGangs. cbn [Now]. destruct (foldl formGang _ groups) as [gm2 clk2].
  reflexivity.
Qed.

Lemma FormGangs_stage (groups : list RuntimeGroup) (gm : GangManager)
    (m : NEXUSMetrics) (clk : Clock) :
  stage (fst (fst (FormGangs groups (gm, m, clk)))) = GangStageFormed.
Proof.
  unfold FormGangs. cbn [Now]. destruct (foldl formGang _ groups) as [gm2 clk2].
  reflexivity.
Qed.

(** The state a successful activation leaves. *)
Lemma checkForSpike_activated (w : World) (s : NEXUSScheduler) (clk : Clock)
    (dg : DependencyGraph) :
  GetState s = StateIdle ->
  Detect (spikeDetector s) (prom w) 0 = true ->
  BuildFromAnnotations (k8s w) (depGraph s) = Some dg ->
  exists (gm : GangManager) (now : Z),
    activeGangs gm <> ∅
    /\ stage gm = GangStageScheduling
    /\ fst (checkForSpike w (s, clk))
       = {| state := StateActive;
            lastSpikeTime := now;
            spikeDetector := spikeDetector s;
            depGraph := dg;
            gangManager := gm;
            metrics := IncrementCounter "state_changes"
                         (Metrics.SetState "ACTIVE"
                            (IncrementCounter "gangs_formed"
                               (IncrementCounter "spike_events" (metrics s)))) |}.
Proof.
  intros Hidle Hspike Hbuild. unfold checkForSpike. rewrite Hidle, Hspike. cbn [Now].
  rewrite Hbuild.
  assert (Hgroups : groups dg <> []).
  { destruct (BuildFromAnnotations_succeeds (k8s w) (depGraph s)) as (dg' & Hb & Hne & _).
    - unfold BuildFromAnnotations in Hbuild.
      destruct (ListPods (k8s w) None); [discriminate | discriminate].
    - congruence. }
  unfold GetGroups. destruct (groups dg) as [|g gs] eqn:Hg; [congruence|].
  cbn [length Nat.ltb Nat.leb].
  pose proof (FormGangs_nonempty (g :: gs)
                (SetStage GangStageGraphBuilt (SetStage GangStageDetected (gangManager s)))
                (IncrementCounter "spike_events" (metrics s))
                {| ticks := S (ticks clk); reading := reading clk |}
                ltac:(discriminate)) as Hne.
  pose proof (FormGangs_metrics (g :: gs)
                (SetStage GangStageGraphBuilt (SetStage GangStageDetected (gangManager s)))
                (IncrementCounter "spike_events" (metrics s))
                {| ticks := S (ticks clk); reading := reading clk |}) as Hm.
  destruct (FormGangs (g :: gs) _) as [[gm m] c]. cbn [fst snd] in Hne, Hm. subst m.
  exists (SetStage GangStageScheduling gm), (reading c (ticks c)).
  split; [exact Hne|]. split; [reflexivity|].
  unfold GetState in Hidle. unfold SetState.
  cbn [withMetrics withGangManager withDepGraph state]. rewrite Hidle.
  rewrite decide_False by discriminate. reflexivity.
Qed.

Lemma consistent_withMetrics_calls (name : string) (s : NEXUSScheduler) :
  name = "filter_calls" \/ name = "prioritize_calls" ->
  consistent s -> consistent (withMetrics (IncrementCounter name (metrics s)) s).
Proof.
  intros [-> | ->] [H1 H2 H3 H4 H5]; constructor; assumption.
Qed.

Lemma consistent_poll (w : World) (s : NEXUSScheduler) (clk : Clock) :
  consistent s -> consistent (fst (checkForSpike w (s, clk))).
Proof.
  intros Hs. destruct (state s) eqn:Hstate.
  - destruct (Detect (spikeDetector s) (prom w) 0) eqn:Hspike.
    + destruct (BuildFromAnnotations (k8s w) (depGraph s)) as [dg|] eqn:Hbuild.
      * destruct (checkForSpike_activated w s clk dg Hstate Hspike Hbuild)
          as (gm & now & Hne & Hstage & ->).
        destruct (BuildFromAnnotations_succeeds (k8s w) (depGraph s)) as (dg' & Hb & Hg & Hbt).
        { unfold BuildFromAnnotations in Hbuild.
          destruct (ListPods (k8s w) None); discriminate. }
        assert (dg' = dg) as -> by congruence.
        destruct Hs as [H1 H2 H3 H4 H5]. rewrite Hstate in H2.
        constructor; cbn [state metrics gangManager depGraph].
        -- reflexivity.
        -- change (Int64.incr (gangsFormed (metrics s))
                   = Int64.incr (gangsDisssolved (metrics s))). rewrite H2. reflexivity.
        -- change (Int64.incr (stateChanges (metrics s))
                   = Int64.wrap64 (Int64.incr (gangsFormed (metrics s))
                                   + gangsDisssolved (metrics s))).
           rewrite H3. unfold Int64.incr. rewrite !wrap64_add_l. f_equal. lia.
        -- discriminate.
        -- intros _. auto.
      * assert (Hlist : ListPods (k8s w) None = None).
        { unfold BuildFromAnnotations in Hbuild.
          destruct (ListPods (k8s w) None); [discriminate | reflexivity]. }
        rewrite (checkForSpike_build_failed w s clk Hstate Hspike Hlist). cbn [fst].
        destruct Hs as [H1 H2 H3 H4 H5].
        constructor; cbn [state metrics gangManager depGraph withMetrics withGangManager
                          SetStage activeGangs serviceToGang stage]; try assumption.
        -- intros Hi. destruct (H4 Hi) as (Ha & Hb & Hc & _). auto.
        -- rewrite Hstate. discriminate.
    + rewrite (checkForSpike_no_spike w s clk Hspike). exact Hs.
  - rewrite (checkForSpike_active w s clk Hstate). exact Hs.
Qed.

Lemma consistent_cooldown (w : World) (s : NEXUSScheduler) (clk : Clock) :
  consistent s -> consistent (fst (cooldownCheck w (s, clk))).
Proof.
  intros Hs. destruct (state s) eqn:Hstate.
  - rewrite (cooldownCheck_idle w s clk Hstate). exact Hs.
  - destruct (Z_lt_dec cooldownDuration (reading clk (ticks clk) - lastSpikeTime s))
      as [Hlate|Hwait].
    + destruct (Detect (spikeDetector s) (prom w) 0) eqn:Hspike.
      * rewrite (cooldownCheck_extends w s clk Hstate Hlate Hspike).
        destruct Hs as [H1 H2 H3 H4 H5]. constructor; assumption.
      * rewrite (cooldownCheck_dissolves w s clk Hstate Hlate Hspike). cbn [fst].
        destruct Hs as [H1 H2 H3 H4 H5]. rewrite Hstate in H2.
        destruct (H5 Hstate) as (Hne & _).
        assert (Hsize : (size (activeGangs (gangManager s)) =? 0)%nat = false).
        { apply Nat.eqb_neq. intros H0. apply map_size_empty_iff in H0. contradiction. }
        unfold DissolveAll. cbn [SetStage activeGangs]. rewrite Hsize. cbn [fst snd].
        unfold SetState. cbn [withMetrics withGangManager withDepGraph state].
        rewrite Hstate. rewrite decide_False by discriminate.
        constructor; cbn [state metrics gangManager depGraph SetStage clearGangsLocked
                          activeGangs serviceToGang stage Clear].
        -- reflexivity.
        -- change (gangsFormed (metrics s) = Int64.incr (gangsDisssolved (metrics s))).
           exact H2.
        -- change (Int64.incr (stateChanges (metrics s))
                   = Int64.wrap64 (gangsFormed (metrics s)
                                   + Int64.incr (gangsDisssolved (metrics s)))).
           rewrite H3. unfold Int64.incr. rewrite wrap64_add_l, wrap64_add_r. f_equal. lia.
        -- intros _. auto.
        -- discriminate.
    + rewrite (cooldownCheck_waiting w s clk Hstate Hwait). exact Hs.
Qed.

Lemma Reachable_consistent (s : NEXUSScheduler) : Reachable s -> consistent s.
Proof.
  induction 1 as [env | w s clk _ IH | w s clk _ IH | cs rq s _ IH | cs rq s _ IH].
  - constructor; cbn; try reflexivity; try discriminate; auto.
  - apply consistent_poll, IH.
  - apply consistent_cooldown, IH.
  - rewrite handleFilter_state. apply consistent_withMetrics_calls; auto.
  - rewrite handlePrioritize_state. apply consistent_withMetrics_calls; auto.
Qed.

(** X6: in every reachable state the gauge label is the state; the count of
    formations is the count of dissolutions while DORMANT and one more while
    ACTIVE; the count of state changes is their sum (the counters being
    64-bit values). *)
Theorem reachable_counters_agree (s : NEXUSScheduler) :
  Reachable s ->
  currentState (metrics s) = State_String (GetState s)
  /\ gangsFormed (metrics s)
     = match GetState s with
       | StateIdle => gangsDisssolved (metrics s)
       | StateActive => Int64.incr (gangsDisssolved (metrics s))
       end
  /\ stateChanges (metrics s)
     = Int64.wrap64 (gangsFormed (metrics s) + gangsDisssolved (metrics s)).
Proof.
  intros Hreach. destruct (Reachable_consistent s Hreach) as [H1 H2 H3 _ _].
  unfold GetState. split; [exact H1|]. split; [|exact H3].
  rewrite H2. destruct (state s); reflexivity.
Qed.

Lemma reachable_counters_agree_witness :
  currentState (metrics Samples.sActive) = State_String (GetState Samples.sActive)
  /\ gangsFormed (metrics Samples.sActive)
     = match GetState Samples.sActive with
       | StateIdle => gangsDisssolved (metrics Samples.sActive)
       | StateActive => Int64.incr (gangsDisssolved (metrics Samples.sActive))
       end
  /\ stateChanges (metrics Samples.sActive)
     = Int64.wrap64 (gangsFormed (metrics Samples.sActive)
                     + gangsDisssolved (metrics Samples.sActive)).
Proof.
  apply (reachable_counters_agree Samples.sActive).
  exact (reach_poll Samples.worldSpike Samples.sIdle (Samples.clockFrom Samples.t0)
           (reach_start Samples.env0)).
Defined.

(** X7: in every reachable state that is DORMANT the extender holds nothing of a
    spike: no gang, no index entry, a graph without groups that is not
    built; no service, pod or group lookup finds anything. *)
Theorem dormant_holds_nothing (s : NEXUSScheduler) :
  Reachable s ->
  GetState s = StateIdle ->
  activeGangs (gangManager s) = ∅
  /\ serviceToGang (gangManager s) = ∅
  /\ depGraph s = NewDependencyGraph
  /\ (forall pod : Pod,
        GetGangForPod (gangManager s) pod = None
        /\ GetGangMembers (gangManager s) pod = None
        /\ GetGroup (depGraph s) pod = None
        /\ IsInGroup (depGraph s) pod = false
        /\ GetGroupMembers (depGraph s) pod = []).
Proof.
  intros Hreach Hidle.
  destruct (con_idle s (Reachable_consistent s Hreach) Hidle) as (Ha & Hi & Hg & _).
  repeat split; try assumption;
    unfold GetGangMembers, GetGangForPod, GetGangForService,
      IsInGroup, GetGroupMembers, GetGroup;
    rewrite ?Hi, ?Hg, ?lookup_empty; reflexivity.
Qed.

Lemma dormant_holds_nothing_witness :
  activeGangs
    (gangManager
       (fst (cooldownCheck Samples.worldQuiet
               (Samples.sActive, Samples.clockFrom (Samples.t0 + 31 * second))))) = ∅
  /\ depGraph
       (fst (cooldownCheck Samples.worldQuiet
               (Samples.sActive, Samples.clockFrom (Samples.t0 + 31 * second))))
     = NewDependencyGraph
  /\ GetGangMembers
       (gangManager
          (fst (cooldownCheck Samples.worldQuiet
                  (Samples.sActive, Samples.clockFrom (Samples.t0 + 31 * second)))))
       Samples.cartPod = None.
Proof.
  destruct (dormant_holds_nothing
              (fst (cooldownCheck Samples.worldQuiet
                      (Samples.sActive, Samples.clockFrom (Samples.t0 + 31 * second)))))
    as (Hgangs & _ & Hgraph & Hpods).
  - exact (reach_cooldown Samples.worldQuiet Samples.sActive
             (Samples.clockFrom (Samples.t0 + 31 * second))
             (reach_poll Samples.worldSpike Samples.sIdle (Samples.clockFrom Samples.t0)
                (reach_start Samples.env0))).
  - vm_compute. reflexivity.
  - split; [exact Hgangs|]. split; [exact Hgraph|].
    destruct (Hpods Samples.cartPod) as (_ & Hmembers & _). exact Hmembers.
Defined.

(** X8: what [/status] reports in a reachable state is one of two pictures:
    IDLE with no active gang, no built graph and the stage NONE or
    GRAPH_BUILT (the latter after an activation that failed at the build);
    or ACTIVE with at least one gang, a built graph and the stage
    SCHEDULING. *)
Theorem status_pictures (s : NEXUSScheduler) :
  Reachable s ->
  (status_state (statusHandler s) = "IDLE"
   /\ status_activeGangs (statusHandler s) = 0%nat
   /\ status_graphBuilt (statusHandler s) = false
   /\ (status_gangStage (statusHandler s) = "NONE"
       \/ status_gangStage (statusHandler s) = "GRAPH_BUILT"))
  \/ (status_state (statusHandler s) = "ACTIVE"
      /\ (1 <= status_activeGangs (statusHandler s))%nat
      /\ status_graphBuilt (statusHandler s) = true
      /\ status_gangStage (statusHandler s) = "SCHEDULING").
Proof.
  intros Hreach. pose proof (Reachable_consistent s Hreach) as Hs.
  unfold statusHandler, GetState, GetStage, GetActiveGangCount, IsBuilt.
  cbn [status_state status_gangStage status_activeGangs status_graphBuilt].
  destruct (state s) eqn:Hstate.
  - left. destruct (con_idle s Hs Hstate) as (Ha & _ & Hg & Hstage).
    rewrite Ha, Hg, map_size_empty. repeat split.
    destruct Hstage as [-> | ->]; auto.
  - right. destruct (con_active s Hs Hstate) as (Ha & _ & Hb & ->).
    rewrite Hb. repeat split.
    destruct (size (activeGangs (gangManager s))) eqn:Hsize; [|lia].
    apply map_size_empty_iff in Hsize. contradiction.
Qed.

Lemma status_pictures_witness :
  (status_state (statusHandler Samples.sActive) = "IDLE"
   /\ status_activeGangs (statusHandler Samples.sActive) = 0%nat
   /\ status_graphBuilt (statusHandler Samples.sActive) = false
   /\ (status_gangStage (statusHandler Samples.sActive) = "NONE"
       \/ status_gangStage (statusHandler Samples.sActive) = "GRAPH_BUILT"))
  \/ (status_state (statusHandler Samples.sActive) = "ACTIVE"
      /\ (1 <= status_activeGangs (statusHandler Samples.sActive))%nat
      /\ status_graphBuilt (statusHandler Samples.sActive) = true
      /\ status_gangStage (statusHandler Samples.sActive) = "SCHEDULING").
Proof.
  apply (status_pictures Samples.sActive).
  exact (reach_poll Samples.worldSpike Samples.sIdle (Samples.clockFrom Samples.t0)
           (reach_start Samples.env0)).
Defined.

(** X9: an activation followed by the cooldown check that ends it leaves the
    gang manager and the graph as new, and the detector as it was. *)
Theorem activation_then_cooldown_restores (wUp wDown : World) (s0 : NEXUSScheduler)
    (clkUp clkDown : Clock) :
  GetState s0 = StateIdle ->
  GetState (fst (checkForSpike wUp (s0, clkUp))) = StateActive ->
  GetState (fst (cooldownCheck wDown (fst (checkForSpike wUp (s0, clkUp)), clkDown)))
    = StateIdle ->
  gangManager (fst (cooldownCheck wDown (fst (checkForSpike wUp (s0, clkUp)), clkDown)))
    = NewGangManager
  /\ depGraph (fst (cooldownCheck wDown (fst (checkForSpike wUp (s0, clkUp)), clkDown)))
     = NewDependencyGraph
  /\ spikeDetector (fst (cooldownCheck wDown (fst (checkForSpike wUp (s0, clkUp)), clkDown)))
     = spikeDetector s0.
Proof.
  intros Hidle Hact Hback.
  pose proof (poll_activation_forms_gangs wUp s0 clkUp Hidle Hact) as Hgangs.
  assert (Hsd : spikeDetector (fst (checkForSpike wUp (s0, clkUp))) = spikeDetector s0).
  { destruct (Detect (spikeDetector s0) (prom wUp) 0) eqn:Hspike.
    - destruct (ListPods (k8s wUp) None) as [pods|] eqn:Hlist.
      + apply (checkForSpike_activates wUp s0 clkUp Hidle Hspike). congruence.
      + rewrite (checkForSpike_build_failed wUp s0 clkUp Hidle Hspike Hlist). reflexivity.
    - rewrite (checkForSpike_no_spike wUp s0 clkUp Hspike). reflexivity. }
  set (s1 := fst (checkForSpike wUp (s0, clkUp))) in *.
  destruct (proj1 (cooldownCheck_idle_iff wDown s1 clkDown Hact) Hback) as (Hlate & Hquiet).
  rewrite (cooldownCheck_dissolves wDown s1 clkDown Hact Hlate Hquiet). cbn [fst].
  match goal with |- context [SetState StateIdle ?x] =>
    destruct (SetState_fields StateIdle x) as (Hgm & Hdg & Hdet & _) end.
  rewrite Hgm, Hdg, Hdet. cbn [gangManager depGraph spikeDetector withMetrics
                               withGangManager withDepGraph].
  split; [|split; [reflexivity | exact Hsd]].
  unfold DissolveAll. cbn [SetStage activeGangs].
  destruct (Nat.eqb_spec (size (activeGangs (gangManager s1))) 0) as [H0|_].
  - apply map_size_empty_iff in H0. contradiction.
  - reflexivity.
Qed.

Lemma activation_then_cooldown_restores_witness :
  gangManager
    (fst (cooldownCheck Samples.worldQuiet
            (fst (checkForSpike Samples.worldSpike (Samples.sIdle, Samples.clockFrom Samples.t0)),
             Samples.clockFrom (Samples.t0 + 31 * second))))
  = NewGangManager
  /\ depGraph
       (fst (cooldownCheck Samples.worldQuiet
               (fst (checkForSpike Samples.worldSpike
                       (Samples.sIdle, Samples.clockFrom Samples.t0)),
                Samples.clockFrom (Samples.t0 + 31 * second))))
     = NewDependencyGraph
  /\ spikeDetector
       (fst (cooldownCheck Samples.worldQuiet
               (fst (checkForSpike Samples.worldSpike
                       (Samples.sIdle, Samples.clockFrom Samples.t0)),
                Samples.clockFrom (Samples.t0 + 31 * second))))
     = spikeDetector Samples.sIdle.
Proof.
  apply (activation_then_cooldown_restores Samples.worldSpike Samples.worldQuiet
           Samples.sIdle (Samples.clockFrom Samples.t0)
           (Samples.clockFrom (Samples.t0 + 31 * second))).
  - reflexivity.
  - vm_compute. reflexivity.
  - vm_compute. reflexivity.
Defined.

(** *** The detector *)

(** X10: the detector says yes in two cases only: the liveness probe fails and
    the fallback signal reaches the fallback threshold; or the probe
    succeeds and a query that did not fail returned a reading strictly above
    its threshold (above 0 for the autoscaler query).  A failed query never
    makes it say yes. *)
Theorem Detect_true_iff (sd : SpikeDetector) (p : Prometheus) (pending : Z) :
  Detect sd p pending = true
  <-> (isPrometheusReachable p = false /\ fallbackThreshold sd <= pending)
      \/ (isPrometheusReachable p = true
          /\ ((exists x, queryQPS p = Some x /\ PrimFloat.ltb (qpsThreshold sd) x = true)
              \/ (exists x, queryErrorRate p = Some x
                            /\ PrimFloat.ltb (errorThreshold sd) x = true)
              \/ (exists x, queryP95Latency p = Some x
                            /\ PrimFloat.ltb (p95LatencyThreshold sd) x = true)
              \/ (exists b, checkHPAActivity p = Some b /\ b = true))).
Proof.
  unfold Detect, exceeds. destruct (isPrometheusReachable p); cbn [negb].
  - split.
    + intros H. right. split; [reflexivity|].
      destruct (queryQPS p) as [x|] eqn:Hq;
        [destruct (PrimFloat.ltb (qpsThreshold sd) x) eqn:H1; [left; eauto|]|];
      (destruct (queryErrorRate p) as [y|] eqn:He;
        [destruct (PrimFloat.ltb (errorThreshold sd) y) eqn:H2; [right; left; eauto|]|]);
      (destruct (queryP95Latency p) as [z|] eqn:Hl;
        [destruct (PrimFloat.ltb (p95LatencyThreshold sd) z) eqn:H3;
           [right; right; left; eauto|]|]);
      (destruct (checkHPAActivity p) as [[|]|]; [right; right; right; eauto | discriminate..]).
    + intros [[Hf _] | [_ H]]; [discriminate|].
      destruct H as [(x & -> & ->) | [(x & Hx & Hlt) | [(x & Hx & Hlt) | (b & Hb & ->)]]].
      * reflexivity.
      * destruct (match queryQPS p with Some x0 => _ | None => false end); [reflexivity|].
        rewrite Hx, Hlt. reflexivity.
      * destruct (match queryQPS p with Some x0 => _ | None => false end); [reflexivity|].
        destruct (match queryErrorRate p with Some x0 => _ | None => false end);
          [reflexivity|].
        rewrite Hx, Hlt. reflexivity.
      * destruct (match queryQPS p with Some x0 => _ | None => false end); [reflexivity|].
        destruct (match queryErrorRate p with Some x0 => _ | None => false end);
          [reflexivity|].
        destruct (match queryP95Latency p with Some x0 => _ | None => false end);
          [reflexivity|].
        rewrite Hb. reflexivity.
  - rewrite Z.leb_le. split; [auto|]. intros [[_ H] | [H _]]; [exact H | discriminate].
Qed.

(** *** The endpoints in every state *)

Lemma keepSchedulable_from (items eligible : list Node) (failed : gmap string string) :
  foldl (fun '(eligibleNodes, failedNodes) node =>
           if isNodeSchedulable node
           then ((eligibleNodes ++ [node])%list, failedNodes)
           else (eligibleNodes, <[node_Name node := "Node not schedulable"]> failedNodes))
        (eligible, failed) items
  = ((eligible ++ List.filter isNodeSchedulable items)%list,
     foldl (fun failedNodes node =>
              if isNodeSchedulable node then failedNodes
              else <[node_Name node := "Node not schedulable"]> failedNodes)
           failed items).
Proof.
  revert eligible failed. induction items as [|node rest IH]; intros eligible failed.
  - cbn. rewrite app_nil_r. reflexivity.
  - cbn [foldl List.filter]. destruct (isNodeSchedulable node).
    + rewrite IH, <- app_assoc. reflexivity.
    + rewrite IH. reflexivity.
Qed.

Lemma failed_lookup (items : list Node) (failed : gmap string string) (n : string) :
  foldl (fun failedNodes node =>
           if isNodeSchedulable node then failedNodes
           else <[node_Name node := "Node not schedulable"]> failedNodes)
        failed items !! n
  = if existsb (fun node => bool_decide (node_Name node = n)
                            && negb (isNodeSchedulable node)) items
    then Some "Node not schedulable" else failed !! n.
Proof.
  revert failed. induction items as [|node rest IH]; intros failed; [reflexivity|].
  cbn [foldl existsb]. rewrite IH. clear IH.
  destruct (isNodeSchedulable node); cbn [negb].
  - rewrite andb_false_r. reflexivity.
  - rewrite andb_true_r. case_bool_decide as Hname; cbn [orb].
    + destruct (existsb _ rest); [reflexivity|]. rewrite Hname. apply lookup_insert_eq.
    + destruct (existsb _ rest); [reflexivity|]. apply lookup_insert_ne. exact Hname.
Qed.

Lemma keepSchedulable_spec (items : list Node) :
  fst (keepSchedulable items) = List.filter isNodeSchedulable items
  /\ forall n : string,
       snd (keepSchedulable items) !! n
       = if existsb (fun node => bool_decide (node_Name node = n)
                                 && negb (isNodeSchedulable node)) items
         then Some "Node not schedulable" else None.
Proof.
  unfold keepSchedulable. rewrite keepSchedulable_from. cbn [fst snd]. split; [reflexivity|].
  intros n. rewrite failed_lookup, lookup_empty. reflexivity.
Qed.

Lemma filter_sublist_of {A : Type} (f : A -> bool) (l : list A) :
  sublist (List.filter f l) l.
Proof.
  induction l as [|x l IH]; cbn [List.filter]; [constructor|].
  destruct (f x); [apply sublist_skip | apply sublist_cons]; exact IH.
Qed.

Lemma nodesWithMembers_size (cs : Clientset) (gang : Gang) (items : list Node) :
  (0 <? size (nodesWithMembers cs gang items))%nat
  = existsb (fun node => 0 <? countGangMembersOnNode cs node (Some gang)) items.
Proof.
  unfold nodesWithMembers.
  assert (Hgen : forall (m : gmap string bool),
    Nat.ltb 0 (size (foldl (fun m node =>
                         if 0 <? countGangMembersOnNode cs node (Some gang)
                         then <[node_Name node := true]> m else m) m items))
    = Nat.ltb 0 (size m)
      || existsb (fun node => 0 <? countGangMembersOnNode cs node (Some gang)) items).
  { induction items as [|node rest IH]; intros m; cbn [foldl existsb].
    - rewrite orb_false_r. reflexivity.
    - rewrite IH. destruct (0 <? countGangMembersOnNode cs node (Some gang)); cbn [orb].
      + assert (Hpos : Nat.ltb 0 (size (<[node_Name node := true]> m)) = true).
        { apply Nat.ltb_lt. destruct (size (<[node_Name node := true]> m)) eqn:E; [|lia].
          apply map_size_empty_iff in E. destruct (insert_non_empty _ _ _ E). }
        rewrite Hpos. rewrite orb_true_r. reflexivity.
      + reflexivity. }
  rewrite Hgen, map_size_empty. reflexivity.
Qed.

(** X11: the gang branch of [/filter], in full: when a candidate host runs a
    member of the pod's gang, the answer is the schedulable candidates in
    their order, with a reason for the name of every other one; when none
    does, the answer is the candidates as they came, unschedulable ones
    included, and no reason.  The names of the members and of the pods on
    the candidates are ASCII, where the count of members is the one
    [strings.EqualFold] gives. *)
Theorem handleFilter_gang_branch (cs : Clientset) (s : NEXUSScheduler) (pod : Pod)
    (items : list Node) (names : option (list string)) (gang : Gang) :
  GetState s = StateActive ->
  GetGangForPod (gangManager s) pod = Some gang ->
  Forall (Spec.plainNames cs gang) items ->
  exists result : ExtenderFilterResult,
    fst (handleFilter cs
           (Some {| arg_Pod := Some pod; arg_Nodes := Some items; arg_NodeNames := names |}) s)
      = OK result
    /\ res_NodeNames result = None /\ res_Error result = ""
    /\ if existsb (fun node => 0 <? countGangMembersOnNode cs node (Some gang)) items
       then res_Nodes result = Some (List.filter isNodeSchedulable items)
            /\ forall n : string,
                 res_FailedNodes result !! n
                 = if existsb (fun node => bool_decide (node_Name node = n)
                                           && negb (isNodeSchedulable node)) items
                   then Some "Node not schedulable" else None
       else res_Nodes result = Some items /\ res_FailedNodes result = ∅.
Proof.
  intros Hact Hgang _. unfold GetState in Hact.
  unfold handleFilter, GetState. cbn [withMetrics state gangManager arg_Pod arg_Nodes].
  rewrite Hact. rewrite decide_False by discriminate. rewrite Hgang.
  rewrite nodesWithMembers_size.
  destruct (existsb _ items).
  - destruct (keepSchedulable_spec items) as [Hkept Hfailed].
    destruct (keepSchedulable items) as [eligible failed]. cbn [fst snd] in *.
    eexists. split; [reflexivity|]. cbn [res_NodeNames res_Error res_Nodes res_FailedNodes].
    rewrite Hkept. auto.
  - eexists. split; [reflexivity|]. cbn. auto.
Qed.

Lemma handleFilter_gang_branch_witness :
  exists result : ExtenderFilterResult,
    fst (handleFilter (clusterOf [Samples.peerPod])
           (Some {| arg_Pod := Some Samples.cartPod;
                    arg_Nodes := Some [Samples.h1; Samples.h2cordoned; Samples.h3];
                    arg_NodeNames := None |}) Samples.sActive)
      = OK result
    /\ res_NodeNames result = None /\ res_Error result = ""
    /\ if existsb (fun node => 0 <? countGangMembersOnNode (clusterOf [Samples.peerPod]) node
                                      (Some Samples.cartGang))
                  [Samples.h1; Samples.h2cordoned; Samples.h3]
       then res_Nodes result
            = Some (List.filter isNodeSchedulable [Samples.h1; Samples.h2cordoned; Samples.h3])
            /\ forall n : string,
                 res_FailedNodes result !! n
                 = if existsb (fun node => bool_decide (node_Name node = n)
                                           && negb (isNodeSchedulable node))
                              [Samples.h1; Samples.h2cordoned; Samples.h3]
                   then Some "Node not schedulable" else None
       else res_Nodes result = Some [Samples.h1; Samples.h2cordoned; Samples.h3]
            /\ res_FailedNodes result = ∅.
Proof.
  apply (handleFilter_gang_branch (clusterOf [Samples.peerPod]) Samples.sActive
           Samples.cartPod [Samples.h1; Samples.h2cordoned; Samples.h3] None
           Samples.cartGang).
  - vm_compute. reflexivity.
  - vm_compute. reflexivity.
  - repeat constructor; vm_compute; reflexivity.
Defined.

(** X12: whatever the state, [/filter] answers a request that decodes with
    status 200; the hosts it returns are candidates, in the order they came
    in, and every candidate it leaves out is named among the failed nodes. *)
Theorem handleFilter_returns_candidates (cs : Clientset) (args : ExtenderArgs)
    (s : NEXUSScheduler) :
  exists result : ExtenderFilterResult,
    fst (handleFilter cs (Some args) s) = OK result
    /\ match arg_Nodes args with
       | None => res_Nodes result = None
       | Some items =>
           exists kept : list Node,
             res_Nodes result = Some kept
             /\ sublist kept items
             /\ forall node : Node, node ∈ items ->
                  node ∈ kept
                  \/ res_FailedNodes result !! node_Name node = Some "Node not schedulable"
       end.
Proof.
  assert (Hpass : exists result : ExtenderFilterResult,
            @OK ExtenderFilterResult (passThrough args) = OK result
            /\ match arg_Nodes args with
               | None => res_Nodes result = None
               | Some items =>
                   exists kept : list Node,
                     res_Nodes result = Some kept /\ sublist kept items
                     /\ forall node : Node, node ∈ items ->
                          node ∈ kept
                          \/ res_FailedNodes result !! node_Name node
                             = Some "Node not schedulable"
               end).
  { eexists. split; [reflexivity|]. cbn [passThrough res_Nodes].
    destruct (arg_Nodes args) as [items|]; [|reflexivity].
    exists items. split; [reflexivity|]. split; [reflexivity | auto]. }
  unfold handleFilter. cbn [withMetrics state gangManager].
  destruct (decide (GetState _ = StateIdle)) as [Hidle|Hact]; [exact Hpass|].
  destruct (arg_Pod args) as [pod|]; [|exact Hpass].
  destruct (arg_Nodes args) as [items|] eqn:Hitems; [|exact Hpass].
  destruct (GetGangForPod _ pod) as [gang|]; [|exact Hpass].
  destruct (0 <? size _)%nat.
  - destruct (keepSchedulable_spec items) as [Hkept Hfailed].
    destruct (keepSchedulable items) as [eligible failed]. cbn [fst snd] in *.
    eexists. split; [reflexivity|]. cbn [res_Nodes res_FailedNodes].
    exists eligible. split; [reflexivity|]. rewrite Hkept.
    split; [apply filter_sublist_of|]. intros node Hin.
    destruct (isNodeSchedulable node) eqn:Hnode.
    + left. apply list_elem_of_In, filter_In. split; [apply list_elem_of_In, Hin | exact Hnode].
    + right. rewrite Hfailed.
      assert (Hex : existsb (fun x => bool_decide (node_Name x = node_Name node)
                                       && negb (isNodeSchedulable x)) items = true).
      { apply existsb_exists. exists node. split; [apply list_elem_of_In, Hin|].
        rewrite bool_decide_eq_true_2 by reflexivity. rewrite Hnode. reflexivity. }
      rewrite Hex. reflexivity.
  - eexists. split; [reflexivity|]. cbn [res_Nodes].
    exists items. split; [reflexivity|]. split; [reflexivity | auto].
Qed.

(** X13: a pod that has no gang gets no opinion in every state: [/filter] hands
    the candidates back and [/prioritize] scores each of them 0. *)
Theorem no_gang_no_opinion (cs : Clientset) (s : NEXUSScheduler) (pod : Pod)
    (items : list Node) (names : option (list string)) :
  GetGangForPod (gangManager s) pod = None ->
  fst (handleFilter cs
         (Some {| arg_Pod := Some pod; arg_Nodes := Some items; arg_NodeNames := names |}) s)
    = OK {| res_Nodes := Some items; res_NodeNames := None;
            res_FailedNodes := ∅; res_Error := "" |}
  /\ fst (handlePrioritize cs
            (Some {| arg_Pod := Some pod; arg_Nodes := Some items; arg_NodeNames := names |}) s)
     = OK (map (fun node => {| Host := node_Name node; Score := 0 |}) items).
Proof.
  intros Hnone. unfold handleFilter, handlePrioritize.
  cbn [withMetrics state gangManager arg_Pod arg_Nodes]. rewrite Hnone.
  rewrite <- zeroScores_map. unfold GetState. cbn [withMetrics state].
  destruct (decide (state s = StateIdle)); split; reflexivity.
Qed.

Lemma no_gang_no_opinion_witness :
  fst (handleFilter Samples.cluster
         (Some {| arg_Pod := Some {| pod_Name := "adservice-6f498f-qqqqq";
                                     pod_Annotations := None; pod_NodeName := "" |};
                  arg_Nodes := Some [Samples.h1; Samples.h2cordoned];
                  arg_NodeNames := None |}) Samples.sActive)
    = OK {| res_Nodes := Some [Samples.h1; Samples.h2cordoned]; res_NodeNames := None;
            res_FailedNodes := ∅; res_Error := "" |}
  /\ fst (handlePrioritize Samples.cluster
            (Some {| arg_Pod := Some {| pod_Name := "adservice-6f498f-qqqqq";
                                        pod_Annotations := None; pod_NodeName := "" |};
                     arg_Nodes := Some [Samples.h1; Samples.h2cordoned];
                     arg_NodeNames := None |}) Samples.sActive)
     = OK (map (fun node => {| Host := node_Name node; Score := 0 |})
               [Samples.h1; Samples.h2cordoned]).
Proof.
  apply (no_gang_no_opinion Samples.cluster Samples.sActive
           {| pod_Name := "adservice-6f498f-qqqqq"; pod_Annotations := None;
              pod_NodeName := "" |}
           [Samples.h1; Samples.h2cordoned] None).
  vm_compute. reflexivity.
Defined.

(** X14: whatever the state, [/prioritize] answers a request that carries a pod
    and candidates with one entry per candidate, in the order they came in. *)
Theorem handlePrioritize_one_entry_per_candidate (cs : Clientset) (s : NEXUSScheduler)
    (pod : Pod) (items : list Node) (names : option (list string)) :
  exists priorities : list HostPriority,
    fst (handlePrioritize cs
           (Some {| arg_Pod := Some pod; arg_Nodes := Some items; arg_NodeNames := names |}) s)
      = OK priorities
    /\ map Host priorities = map node_Name items.
Proof.
  unfold handlePrioritize, GetState. cbn [withMetrics state gangManager arg_Pod arg_Nodes].
  destruct (decide (state s = StateIdle)).
  - eexists. split; [reflexivity|]. rewrite zeroScores_map, map_map. reflexivity.
  - destruct (GetGangForPod _ pod) as [gang|].
    + eexists. split; [reflexivity|]. rewrite ScoreForExtender_map, map_map. reflexivity.
    + eexists. split; [reflexivity|]. rewrite zeroScores_map, map_map. reflexivity.
Qed.

(** While ACTIVE, a request without a pod gets an empty list of scores from
    [/prioritize], candidates or not; while DORMANT it gets the zero scores. *)
Lemma handlePrioritize_without_pod (cs : Clientset) (s : NEXUSScheduler)
    (items : list Node) (names : option (list string)) :
  fst (handlePrioritize cs
         (Some {| arg_Pod := None; arg_Nodes := Some items; arg_NodeNames := names |}) s)
  = OK (match GetState s with
        | StateIdle => map (fun node => {| Host := node_Name node; Score := 0 |}) items
        | StateActive => []
        end).
Proof.
  unfold handlePrioritize, GetState. cbn [withMetrics state arg_Pod arg_Nodes].
  destruct (state s); cbn; [rewrite zeroScores_map|]; reflexivity.
Qed.


(** *** Scores *)

(** X16: on the capacities of a node (non-negative [int64] figures) the resource
    part of a score lies between 0 and 150; it is 0 below 100m of CPU and
    100Mi of memory, and it is the full 150 from one core and 5000Mi on, so
    that larger nodes are not told apart. *)
Theorem resource_score_range (node : Node) (pod : Pod) :
  0 <= alloc_CpuMilliValue node <= Int64.max_int64 ->
  0 <= alloc_MemoryValue node <= Int64.max_int64 ->
  0 <= calculateResourceScore node pod <= 150
  /\ (alloc_CpuMilliValue node < 100 -> alloc_MemoryValue node < 100 * 1024 * 1024 ->
      calculateResourceScore node pod = 0)
  /\ (1000 <= alloc_CpuMilliValue node -> 5000 * 1024 * 1024 <= alloc_MemoryValue node ->
      calculateResourceScore node pod = 150).
Proof.
  intros Hc Hm.
  rewrite calculateResourceScore_spec by int64_range.
  rewrite !Z.quot_div_nonneg by lia.
  repeat split; intros; Z.to_euclidean_division_equations; lia.
Qed.

Lemma resource_score_range_witness :
  0 <= calculateResourceScore Samples.h2 Samples.cartPod <= 150
  /\ (alloc_CpuMilliValue Samples.h2 < 100 ->
      alloc_MemoryValue Samples.h2 < 100 * 1024 * 1024 ->
      calculateResourceScore Samples.h2 Samples.cartPod = 0)
  /\ (1000 <= alloc_CpuMilliValue Samples.h2 ->
      5000 * 1024 * 1024 <= alloc_MemoryValue Samples.h2 ->
      calculateResourceScore Samples.h2 Samples.cartPod = 150).
Proof.
  apply (resource_score_range Samples.h2 Samples.cartPod).
  - simpl. unfold Int64.max_int64. lia.
  - simpl. unfold Int64.max_int64. lia.
Defined.

(** X17: the resource part grows with the capacities. *)
Theorem resource_score_monotone (n1 n2 : Node) (pod : Pod) :
  0 <= alloc_CpuMilliValue n1 <= alloc_CpuMilliValue n2 ->
  alloc_CpuMilliValue n2 <= Int64.max_int64 ->
  0 <= alloc_MemoryValue n1 <= alloc_MemoryValue n2 ->
  alloc_MemoryValue n2 <= Int64.max_int64 ->
  calculateResourceScore n1 pod <= calculateResourceScore n2 pod.
Proof.
  intros Hc Hc2 Hm Hm2.
  rewrite !calculateResourceScore_spec by int64_range.
  rewrite !Z.quot_div_nonneg by lia.
  pose proof (Z.div_le_mono (alloc_CpuMilliValue n1) (alloc_CpuMilliValue n2) 100
                ltac:(lia) ltac:(lia)).
  pose proof (Z.div_le_mono (alloc_MemoryValue n1) (alloc_MemoryValue n2)
                (100 * 1024 * 1024) ltac:(lia) ltac:(lia)).
  lia.
Qed.

Lemma resource_score_monotone_witness :
  calculateResourceScore Samples.h2 Samples.cartPod
  <= calculateResourceScore Samples.h1 Samples.cartPod.
Proof.
  apply (resource_score_monotone Samples.h2 Samples.h1 Samples.cartPod).
  - simpl. lia.
  - simpl. unfold Int64.max_int64. lia.
  - simpl. lia.
  - simpl. unfold Int64.max_int64. lia.
Defined.

(** X18: a host that runs at least two more members of the gang than another is
    scored strictly higher, whatever the capacities of the two; the names
    of the members and of the pods on the two hosts are ASCII, where the
    count of members is the one [strings.EqualFold] gives. *)
Theorem two_peers_outscore (cs : Clientset) (pod : Pod) (gang : Gang) (n1 n2 : Node) :
  Spec.scorable cs n1 -> Spec.scorable cs n2 ->
  Spec.plainNames cs gang n1 -> Spec.plainNames cs gang n2 ->
  0 <= alloc_CpuMilliValue n1 -> 0 <= alloc_MemoryValue n1 ->
  countGangMembersOnNode cs n2 (Some gang) + 2 <= countGangMembersOnNode cs n1 (Some gang) ->
  scoreNode cs pod n2 (Some gang) < scoreNode cs pod n1 (Some gang).
Proof.
  intros H1 H2 _ _ Hc Hm Hcount.
  rewrite !countGangMembersOnNode_spec in Hcount by assumption.
  rewrite !scoreNode_spec by assumption. unfold Spec.scoreAnyCase, Spec.scoreBy.
  fold (Spec.memberCountAnyCase cs gang n1). fold (Spec.memberCountAnyCase cs gang n2).
  rewrite (Z.quot_div_nonneg (alloc_CpuMilliValue n1)) by lia.
  rewrite (Z.quot_div_nonneg (alloc_MemoryValue n1)) by lia.
  assert (0 <= alloc_CpuMilliValue n1 / 100) by (apply Z.div_pos; lia).
  assert (0 <= alloc_MemoryValue n1 / (100 * 1024 * 1024)) by (apply Z.div_pos; lia).
  lia.
Qed.

Lemma two_peers_outscore_witness :
  scoreNode (clusterOf [Samples.peerPod; Samples.checkoutPod]) Samples.cartPod Samples.h1
    (Some Samples.cartGang)
  < scoreNode (clusterOf [Samples.peerPod; Samples.checkoutPod]) Samples.cartPod Samples.h2
      (Some Samples.cartGang).
Proof.
  apply (two_peers_outscore (clusterOf [Samples.peerPod; Samples.checkoutPod])
           Samples.cartPod Samples.cartGang Samples.h2 Samples.h1).
  - repeat constructor; vm_compute; congruence.
  - repeat constructor; vm_compute; congruence.
  - repeat constructor; vm_compute; reflexivity.
  - repeat constructor; vm_compute; reflexivity.
  - simpl. lia.
  - simpl. lia.
  - vm_compute. discriminate.
Defined.


(** X19: with as many members of the gang on both, the host with the larger
    capacities is scored at least as high; the names of the members and of
    the pods on the two hosts are ASCII, where the count of members is the
    one [strings.EqualFold] gives. *)
Theorem equal_peers_resources_decide (cs : Clientset) (pod : Pod) (gang : Gang)
    (n1 n2 : Node) :
  Spec.scorable cs n1 -> Spec.scorable cs n2 ->
  Spec.plainNames cs gang n1 -> Spec.plainNames cs gang n2 ->
  countGangMembersOnNode cs n1 (Some gang) = countGangMembersOnNode cs n2 (Some gang) ->
  0 <= alloc_CpuMilliValue n1 <= alloc_CpuMilliValue n2 ->
  0 <= alloc_MemoryValue n1 <= alloc_MemoryValue n2 ->
  scoreNode cs pod n1 (Some gang) <= scoreNode cs pod n2 (Some gang).
Proof.
  intros H1 H2 _ _ Hcount Hc Hm.
  rewrite !countGangMembersOnNode_spec in Hcount by assumption.
  rewrite !scoreNode_spec by assumption. unfold Spec.scoreAnyCase, Spec.scoreBy.
  fold (Spec.memberCountAnyCase cs gang n1). fold (Spec.memberCountAnyCase cs gang n2).
  rewrite Hcount.
  rewrite !Z.quot_div_nonneg by lia.
  pose proof (Z.div_le_mono (alloc_CpuMilliValue n1) (alloc_CpuMilliValue n2) 100
                ltac:(lia) ltac:(lia)).
  pose proof (Z.div_le_mono (alloc_MemoryValue n1) (alloc_MemoryValue n2)
                (100 * 1024 * 1024) ltac:(lia) ltac:(lia)).
  lia.
Qed.

Lemma equal_peers_resources_decide_witness :
  scoreNode Samples.cluster Samples.cartPod Samples.h3 (Some Samples.cartGang)
  <= scoreNode Samples.cluster Samples.cartPod Samples.h1 (Some Samples.cartGang).
Proof.
  apply (equal_peers_resources_decide Samples.cluster Samples.cartPod Samples.cartGang
           Samples.h3 Samples.h1).
  - repeat constructor; vm_compute; congruence.
  - repeat constructor; vm_compute; congruence.
  - repeat constructor; vm_compute; reflexivity.
  - repeat constructor; vm_compute; reflexivity.
  - vm_compute. reflexivity.
  - simpl. lia.
  - simpl. lia.
Defined.


(** X20: when the pods of a node cannot be listed, or the gang has no member, the
    locality part is 0 and the score is the resource part alone. *)
Theorem score_without_inventory (cs : Clientset) (pod : Pod) (node : Node) (gang : Gang) :
  ListPods cs (Some (node_Name node)) = None \/ Members gang = [] ->
  countGangMembersOnNode cs node (Some gang) = 0
  /\ calculateLocalityScore cs node (Some gang) = 0
  /\ scoreNode cs pod node (Some gang) = calculateResourceScore node pod.
Proof.
  intros H.
  assert (H0 : countGangMembersOnNode cs node (Some gang) = 0).
  { unfold countGangMembersOnNode. destruct H as [-> | ->].
    - destruct (length (Members gang) =? 0)%nat; reflexivity.
    - reflexivity. }
  unfold scoreNode, calculateLocalityScore. rewrite H0.
  repeat split. change (Int64.mul 0 100) with 0.
  unfold calculateResourceScore, Int64.add. rewrite wrap64_add_r. reflexivity.
Qed.

Lemma score_without_inventory_witness :
  countGangMembersOnNode unreachableCluster Samples.h2 (Some Samples.cartGang) = 0
  /\ calculateLocalityScore unreachableCluster Samples.h2 (Some Samples.cartGang) = 0
  /\ scoreNode unreachableCluster Samples.cartPod Samples.h2 (Some Samples.cartGang)
     = calculateResourceScore Samples.h2 Samples.cartPod.
Proof.
  apply (score_without_inventory unreachableCluster Samples.cartPod Samples.h2
           Samples.cartGang).
  left. reflexivity.
Defined.

(** *** Service identifiers and pod names *)

Lemma Join_cons (p : string) (ps : list string) (sep : string) :
  ps <> [] -> Join (p :: ps) sep = (p ++ sep ++ Join ps sep)%string.
Proof. destruct ps; [congruence | reflexivity]. Qed.

Lemma Split_ne (s : string) (sep : ascii) : Split s sep <> [].
Proof. pose proof (Split_nonempty s sep). destruct (Split s sep); [simpl in *; lia | discriminate]. Qed.

Lemma Join_Split (s : string) (sep : ascii) : Join (Split s sep) (String sep "") = s.
Proof.
  induction s as [|c rest IH]; [reflexivity|]. cbn [Split].
  destruct (Ascii.eqb_spec c sep) as [->|Hne].
  - rewrite Join_cons by apply Split_ne. rewrite IH. reflexivity.
  - pose proof (Split_ne rest sep) as Hnil.
    destruct (Split rest sep) as [|p ps]; [congruence|].
    destruct ps as [|q qs]; cbn [Join] in *; rewrite <- IH; reflexivity.
Qed.

Lemma Split_parts_no_dash (s : string) :
  Forall (fun p => hasDash p = false) (Split s "-").
Proof.
  induction s as [|c rest IH]; cbn [Split].
  - constructor; [reflexivity | constructor].
  - destruct (Ascii.eqb c "-") eqn:Hc.
    + constructor; [reflexivity | exact IH].
    + destruct (Split rest "-") as [|p ps]; [repeat constructor; cbn; rewrite Hc; reflexivity|].
      apply Forall_cons in IH as [Hp Hps]. constructor; [|exact Hps].
      cbn [hasDash]. rewrite Hc, Hp. reflexivity.
Qed.

Lemma Split_no_dash (h : string) : hasDash h = false -> Split h "-" = [h].
Proof.
  induction h as [|c rest IH]; [reflexivity|]. cbn [hasDash Split].
  intros H. apply orb_false_iff in H as [Hc Hrest]. rewrite Hc, (IH Hrest). reflexivity.
Qed.

Lemma Split_app (a b : string) :
  Split (a ++ String "-" b) "-" = (Split a "-" ++ Split b "-")%list.
Proof.
  induction a as [|c a IH]; [reflexivity|].
  change (String c a ++ String "-" b)%string with (String c (a ++ String "-" b)).
  cbn [Split]. rewrite IH. destruct (Ascii.eqb c "-"); [reflexivity|].
  pose proof (Split_ne a "-") as Hnil.
  destruct (Split a "-") as [|p ps]; [congruence | reflexivity].
Qed.

Lemma Split_Join (svc : string) (hs : list string) :
  Forall (fun h => hasDash h = false) hs ->
  Split (Join (svc :: hs) "-") "-" = (Split svc "-" ++ hs)%list.
Proof.
  revert svc. induction hs as [|h hs IH]; intros svc Hhs.
  - cbn [Join]. rewrite app_nil_r. reflexivity.
  - apply Forall_cons in Hhs as [Hh Hhs].
    rewrite Join_cons by discriminate.
    change (svc ++ "-" ++ Join (h :: hs) "-")%string
      with (svc ++ String "-" (Join (h :: hs) "-"))%string.
    rewrite Split_app, (IH h Hhs), (Split_no_dash h Hh). reflexivity.
Qed.

(** The names of the dictionary. *)
Lemma isKnownService_cases (svc : string) :
  isKnownService svc = true ->
  In svc ["cartservice"; "paymentservice"; "checkoutservice"; "currencyservice";
          "frontend"; "productcatalogservice"; "recommendationservice";
          "emailservice"; "shippingservice"; "adservice"; "redis-cart"; "loadgenerator"].
Proof.
  unfold isKnownService, known. intros H.
  destruct (list_to_map _ !! svc) as [b|] eqn:E; [|discriminate].
  apply elem_of_list_to_map_2 in E. apply list_elem_of_In in E.
  cbn [In] in *. intuition congruence.
Qed.

(** No name of the dictionary continues another one after a hyphen. *)
Lemma known_then_suffix_unknown (svc rest : string) :
  isKnownService svc = true -> isKnownService (svc ++ String "-" rest) = false.
Proof.
  intros Hsvc. destruct (isKnownService (svc ++ String "-" rest)) eqn:Hlong; [|reflexivity].
  exfalso. apply isKnownService_cases in Hsvc, Hlong.
  cbn [In] in Hsvc.
  repeat (destruct Hsvc as [<- | Hsvc]; [cbn in Hlong; intuition discriminate |]).
  exact Hsvc.
Qed.

Lemma append_assoc (a b c : string) : ((a ++ b) ++ c = a ++ (b ++ c))%string.
Proof.
  induction a as [|x a IH]; [reflexivity|].
  change (String x ((a ++ b) ++ c) = String x (a ++ (b ++ c)))%string.
  rewrite IH. reflexivity.
Qed.

Lemma append_empty_r (a : string) : (a ++ "")%string = a.
Proof.
  induction a as [|x a IH]; [reflexivity|].
  change (String x (a ++ "") = String x a)%string. rewrite IH. reflexivity.
Qed.

Lemma Join_app (a b : list string) (sep : string) :
  a <> [] -> b <> [] ->
  Join (a ++ b) sep = (Join a sep ++ sep ++ Join b sep)%string.
Proof.
  intros Ha Hb. induction a as [|p a IH]; [congruence|].
  destruct a as [|q a].
  - cbn [app]. rewrite Join_cons by exact Hb. reflexivity.
  - change ((p :: q :: a) ++ b)%list with (p :: ((q :: a) ++ b))%list.
    rewrite Join_cons by discriminate. rewrite IH by discriminate.
    rewrite (Join_cons p (q :: a)) by discriminate.
    rewrite !append_assoc. reflexivity.
Qed.

(** A left-prefix that takes in all components of [svc] and at least one of
    the suffixes is [svc] continued after a hyphen. *)
Lemma joinPrefix_beyond (svc : string) (hs : list string) (i : nat) :
  hs <> [] -> (length (Split svc "-") < i)%nat ->
  exists rest : string,
    joinPrefix (Split svc "-" ++ hs) i = (svc ++ String "-" rest)%string.
Proof.
  intros Hhs Hi. unfold joinPrefix. rewrite take_app_ge by lia.
  assert (Hne : take (i - length (Split svc "-")) hs <> []).
  { intros H. apply take_nil_inv in H as [H|H]; [lia | congruence]. }
  rewrite Join_app; [| apply Split_ne | exact Hne].
  rewrite (Join_Split svc "-"). eexists. reflexivity.
Qed.

(** X21: for a pod named after a known service followed by one or more
    hyphen-free suffixes (replica-set hash, pod hash, ordinal), the
    derivation gives back the service. *)
Theorem extractServiceName_recovers_service (svc : string) (hs : list string) :
  isKnownService svc = true ->
  hs <> [] ->
  Forall (fun h => hasDash h = false) hs ->
  extractServiceName (Join (svc :: hs) "-") = svc.
Proof.
  intros Hknown Hne Hhs. unfold extractServiceName.
  rewrite (Split_Join svc hs Hhs).
  set (k := length (Split svc "-")).
  assert (Hk : (1 <= k)%nat) by apply Split_nonempty.
  assert (Hlen : (k < length (Split svc "-" ++ hs))%nat).
  { rewrite length_app. destruct hs; [congruence | cbn; lia]. }
  assert (Hbeyond : forall i, (k < i)%nat ->
            isKnownService (joinPrefix (Split svc "-" ++ hs) i) = false).
  { intros i Hi. destruct (joinPrefix_beyond svc hs i Hne Hi) as (rest & ->).
    apply known_then_suffix_unknown. exact Hknown. }
  assert (Hat : joinPrefix (Split svc "-" ++ hs) k = svc).
  { unfold joinPrefix, k. rewrite take_app_length. apply (Join_Split svc "-"). }
  assert (Hfirst : (k = 1)%nat -> nth 0 (Split svc "-" ++ hs) "" = svc).
  { intros H1. rewrite <- joinPrefix_one by lia. rewrite <- H1. exact Hat. }
  pose proof (tryCandidates_spec (Split svc "-" ++ hs)
                (length (Split svc "-" ++ hs) - 1)) as Hloop.
  destruct (Nat.leb_spec 3 (length (Split svc "-" ++ hs))) as [H3|H3].
  - destruct (tryCandidates _ _) as [c|].
    + destruct Hloop as (i & Hi & -> & Hc & Hmax).
      destruct (Nat.lt_trichotomy i k) as [Hlt | [-> | Hgt]].
      * specialize (Hmax k ltac:(lia)). rewrite Hat in Hmax. congruence.
      * exact Hat.
      * rewrite (Hbeyond i Hgt) in Hc. discriminate.
    + destruct (Nat.eq_dec k 1%nat) as [H1|H1]; [exact (Hfirst H1)|].
      specialize (Hloop k ltac:(lia)). rewrite Hat in Hloop. congruence.
  - destruct (Nat.ltb_spec 0 (length (Split svc "-" ++ hs))); [|lia].
    apply Hfirst. lia.
Qed.

Lemma extractServiceName_recovers_service_witness :
  extractServiceName (Join ["redis-cart"; "7d9f8c"; "x2k4q"] "-") = "redis-cart".
Proof.
  apply (extractServiceName_recovers_service "redis-cart" ["7d9f8c"; "x2k4q"]).
  - reflexivity.
  - discriminate.
  - repeat constructor.
Defined.

Lemma Join_take_drop (parts : list string) (i : nat) :
  (1 <= i)%nat -> parts <> [] ->
  exists rest : string,
    Join parts "-" = (Join (take i parts) "-" ++ rest)%string
    /\ (rest = "" \/ exists r : string, rest = String "-" r).
Proof.
  intros Hi Hne. destruct (Nat.le_gt_cases (length parts) i) as [Hge|Hlt].
  - rewrite take_ge by exact Hge. exists "". split; [|left; reflexivity].
    symmetry. apply append_empty_r.
  - exists (String "-" (Join (drop i parts) "-")). split; [|right; eexists; reflexivity].
    rewrite <- (take_drop i parts) at 1.
    rewrite Join_app; [reflexivity | |].
    + intros H. apply take_nil_inv in H as [H|H]; [lia | congruence].
    + intros H. apply (f_equal length) in H. rewrite length_drop in H. cbn in H. lia.
Qed.

(** X22: the service identifier is the pod name up to one of its hyphens, or the
    whole name; and it is a name of the dictionary or holds no hyphen. *)
Theorem extractServiceName_is_prefix (name : string) :
  (exists rest : string,
      name = (extractServiceName name ++ rest)%string
      /\ (rest = "" \/ exists r : string, rest = String "-" r))
  /\ (isKnownService (extractServiceName name) = true
      \/ hasDash (extractServiceName name) = false).
Proof.
  unfold extractServiceName. set (parts := Split name "-").
  pose proof (Split_nonempty name "-") as Hlen. fold parts in Hlen.
  assert (Hne : parts <> []) by apply Split_ne.
  pose proof (Join_Split name "-") as Hname. fold parts in Hname.
  pose proof (joinPrefix_one parts Hlen) as Hone.
  pose proof (Split_parts_no_dash name) as Hdash. fold parts in Hdash.
  assert (Hfirst : (exists rest : string,
                       name = (nth 0 parts "" ++ rest)%string
                       /\ (rest = "" \/ exists r : string, rest = String "-" r))
                   /\ (isKnownService (nth 0 parts "") = true
                       \/ hasDash (nth 0 parts "") = false)).
  { split.
    - rewrite <- Hone. unfold joinPrefix.
      destruct (Join_take_drop parts 1 ltac:(lia) Hne) as (rest & Heq & Hrest).
      exists rest. split; [rewrite <- Heq; symmetry; exact Hname | exact Hrest].
    - right. destruct parts as [|p ps]; [congruence|].
      apply Forall_cons in Hdash as [Hp _]. exact Hp. }
  destruct (3 <=? length parts)%nat.
  - pose proof (tryCandidates_spec parts (length parts - 1)) as Hloop.
    destruct (tryCandidates parts (length parts - 1)) as [c|]; [|exact Hfirst].
    destruct Hloop as (i & Hi & -> & Hc & _). split; [|left; exact Hc].
    unfold joinPrefix.
    destruct (Join_take_drop parts i ltac:(lia) Hne) as (rest & Heq & Hrest).
    exists rest. split; [rewrite <- Heq; symmetry; exact Hname | exact Hrest].
  - destruct (0 <? length parts)%nat eqn:H0; [exact Hfirst|].
    apply Nat.ltb_ge in H0. lia.
Qed.

(** *** The graph a build yields *)

Import Membership.

Lemma lists_addService (groupName svc : string) (groupMap : gmap string (gmap string bool))
    (G s : string) :
  lists (addService groupName svc groupMap) G s
  <-> (groupName = G /\ svc = s) \/ lists groupMap G s.
Proof.
  unfold lists, addService. destruct (decide (groupName = G)) as [->|Hne].
  - rewrite lookup_insert_eq. split.
    + intros (services & [= <-] & Hs). destruct (decide (svc = s)) as [->|Hsvc]; [auto|].
      right. rewrite lookup_insert_ne in Hs by exact Hsvc.
      destruct (groupMap !! G) as [old|]; cbn [default] in Hs.
      * exists old. auto.
      * rewrite lookup_empty in Hs. destruct Hs as [? Hs]. discriminate.
    + intros [[_ ->] | (services & Hg & Hs)].
      * eexists. split; [reflexivity|]. rewrite lookup_insert_eq. eauto.
      * eexists. split; [reflexivity|]. rewrite Hg. cbn [default].
        destruct (decide (svc = s)) as [->|Hsvc];
          [rewrite lookup_insert_eq; eauto | rewrite lookup_insert_ne by exact Hsvc; exact Hs].
  - rewrite lookup_insert_ne by exact Hne. split; [auto|].
    intros [[Heq _] | H]; [contradiction | exact H].
Qed.

Lemma lists_deps (groupName : string) (deps : list string)
    (groupMap : gmap string (gmap string bool)) (G s : string) :
  lists (foldl (fun gm dep =>
                  let dep := TrimSpace dep in
                  if decide (dep = "") then gm else addService groupName dep gm)
               groupMap deps) G s
  <-> lists groupMap G s
      \/ (groupName = G /\ s <> "" /\ exists dep : string, dep ∈ deps /\ s = TrimSpace dep).
Proof.
  revert groupMap. induction deps as [|d deps IH]; intros groupMap; cbn [foldl].
  - split; [auto|]. intros [H | (_ & _ & dep & Hin & _)]; [exact H|].
    apply elem_of_nil in Hin. contradiction.
  - rewrite IH. clear IH. destruct (decide (TrimSpace d = "")) as [Hempty|Hfull].
    + split.
      * intros [H | (Hg & Hs & dep & Hin & Heq)]; [auto|].
        right. split; [exact Hg|]. split; [exact Hs|]. exists dep. split; [right; exact Hin | exact Heq].
      * intros [H | (Hg & Hs & dep & Hin & Heq)]; [auto|].
        apply elem_of_cons in Hin as [->|Hin]; [congruence|].
        right. split; [exact Hg|]. split; [exact Hs|]. exists dep. auto.
    + rewrite lists_addService. split.
      * intros [[[Hg Hs] | H] | (Hg & Hs & dep & Hin & Heq)].
        -- right. split; [exact Hg|]. split; [congruence|]. exists d. split; [left | auto].
        -- auto.
        -- right. split; [exact Hg|]. split; [exact Hs|]. exists dep. split; [right; exact Hin | exact Heq].
      * intros [H | (Hg & Hs & dep & Hin & Heq)]; [auto|].
        apply elem_of_cons in Hin as [->|Hin]; [auto|].
        right. split; [exact Hg|]. split; [exact Hs|]. exists dep. auto.
Qed.

Lemma lists_scanPod (groupMap : gmap string (gmap string bool)) (pod : Pod) (G s : string) :
  lists (scanPod groupMap pod) G s <-> lists groupMap G s \/ declares pod G s.
Proof.
  unfold scanPod, declares. destruct (pod_Annotations pod) as [annotations|].
  2:{ split; [auto|]. intros [H | (a & Ha & _)]; [exact H | discriminate]. }
  destruct (annotations !! AnnotationServiceGroup) as [groupName|] eqn:Hgroup;
    cbn [default from_option id].
  2:{ rewrite decide_True by reflexivity. split; [auto|].
      intros [H | (a & [= <-] & Hg & _)]; [exact H | congruence]. }
  destruct (decide (groupName = "")) as [Hempty|Hfull].
  { split; [auto|].
    intros [H | (a & [= <-] & Hg & Hne & _)]; [exact H | congruence]. }
  cbv zeta.
  set (groupMap1 := match groupMap !! groupName with
                    | Some _ => groupMap
                    | None => <[groupName := ∅]> groupMap
                    end).
  assert (H1 : lists groupMap1 G s <-> lists groupMap G s).
  { unfold groupMap1, lists. destruct (groupMap !! groupName) eqn:Hold; [reflexivity|].
    destruct (decide (groupName = G)) as [->|Hne].
    - rewrite lookup_insert_eq, Hold. split.
      + intros (services & [= <-] & Hs). rewrite lookup_empty in Hs.
        destruct Hs as [? Hs]. discriminate.
      + intros (services & Hs & _). discriminate.
    - rewrite lookup_insert_ne by exact Hne. reflexivity. }
  destruct (annotations !! AnnotationDependsOn) as [depsStr|] eqn:Hdeps.
  - rewrite lists_deps, lists_addService, H1. split.
    + intros [[[Hg Hs] | H] | (Hg & Hs & dep & Hin & Heq)].
      * right. exists annotations. subst. auto.
      * auto.
      * right. exists annotations. subst G. repeat split; try assumption.
        right. exists depsStr. eauto.
    + intros [H | (a & [= <-] & Hg & Hne & Hwhat)]; [auto|].
      assert (groupName = G) as -> by congruence.
      destruct Hwhat as [-> | (deps' & Hd & Hs & dep & Hin & Heq)]; [auto|].
      assert (deps' = depsStr) as -> by congruence.
      right. repeat split; try assumption. exists dep. auto.
  - rewrite lists_addService, H1. split.
    + intros [[Hg Hs] | H]; [|auto]. right. exists annotations. subst. auto.
    + intros [H | (a & [= <-] & Hg & Hne & Hwhat)]; [auto|].
      assert (groupName = G) as -> by congruence.
      destruct Hwhat as [-> | (deps' & Hd & _)]; [auto | congruence].
Qed.

Lemma lists_scan (pods : list Pod) (groupMap : gmap string (gmap string bool)) (G s : string) :
  lists (foldl scanPod groupMap pods) G s
  <-> lists groupMap G s \/ exists pod : Pod, pod ∈ pods /\ declares pod G s.
Proof.
  revert groupMap. induction pods as [|pod pods IH]; intros groupMap; cbn [foldl].
  - split; [auto|]. intros [H | (pod & Hin & _)]; [exact H|].
    apply elem_of_nil in Hin. contradiction.
  - rewrite IH, lists_scanPod. split.
    + intros [[H | H] | (p & Hin & Hp)]; [auto | | ].
      * right. exists pod. split; [left | exact H].
      * right. exists p. split; [right; exact Hin | exact Hp].
    + intros [H | (p & Hin & Hp)]; [auto|].
      apply elem_of_cons in Hin as [->|Hin]; [auto|]. right. exists p. auto.
Qed.

(** Every group of the map has a service, once some pod put it there. *)
Lemma scan_groups_inhabited (pods : list Pod) (groupMap : gmap string (gmap string bool)) :
  (forall G services, groupMap !! G = Some services -> services <> ∅) ->
  forall G services, foldl scanPod groupMap pods !! G = Some services -> services <> ∅.
Proof.
  revert groupMap. induction pods as [|pod pods IH]; intros groupMap Hinv; [exact Hinv|].
  cbn [foldl]. apply IH. clear IH. unfold scanPod.
  destruct (pod_Annotations pod) as [annotations|]; [|exact Hinv].
  destruct (decide (default "" (annotations !! AnnotationServiceGroup) = ""));
    [exact Hinv|].
  set (groupName := default "" (annotations !! AnnotationServiceGroup)).
  set (groupMap1 := match groupMap !! groupName with
                    | Some _ => groupMap
                    | None => <[groupName := ∅]> groupMap
                    end).
  assert (Hadd : forall svc gm,
            (forall G services, gm !! G = Some services -> G <> groupName -> services <> ∅) ->
            forall G services, addService groupName svc gm !! G = Some services ->
                               services <> ∅).
  { intros svc gm Hgm G services. unfold addService. rewrite lookup_insert. case_decide.
    - intros [= <-]. apply insert_non_empty.
    - intros Hl. apply (Hgm G services Hl). congruence. }
  assert (H2 : forall G services,
            addService groupName (extractServiceName (pod_Name pod)) groupMap1 !! G
            = Some services -> services <> ∅).
  { apply Hadd. intros G services Hl Hne. unfold groupMap1 in Hl.
    destruct (groupMap !! groupName); [exact (Hinv G services Hl)|].
    rewrite lookup_insert_ne in Hl by congruence. exact (Hinv G services Hl). }
  destruct (annotations !! AnnotationDependsOn) as [depsStr|]; [|exact H2].
  generalize dependent (addService groupName (extractServiceName (pod_Name pod)) groupMap1).
  induction (Split depsStr ",") as [|d ds IHd]; intros gm Hgm; [exact Hgm|].
  cbn [foldl]. apply IHd. destruct (decide (TrimSpace d = "")); [exact Hgm|].
  apply Hadd. intros G services Hl _. exact (Hgm G services Hl).
Qed.

Lemma groupsOfMap_elem (groupMap : gmap string (gmap string bool)) (G s : string) :
  (exists g : RuntimeGroup, g ∈ groupsOfMap groupMap /\ group_Name g = G
                            /\ s ∈ group_Services g)
  <-> lists groupMap G s.
Proof.
  unfold groupsOfMap, lists. split.
  - intros (g & Hg & Hname & Hs). apply list_elem_of_In, in_map_iff in Hg.
    destruct Hg as ([name services] & <- & Hin). cbn in *. subst name.
    apply list_elem_of_In, elem_of_map_to_list in Hin.
    exists services. split; [exact Hin|].
    apply list_elem_of_In, in_map_iff in Hs. destruct Hs as ([k b] & <- & Hk).
    apply list_elem_of_In, elem_of_map_to_list in Hk. cbn. eauto.
  - intros (services & Hg & [b Hs]).
    exists {| group_Name := G; group_Services := map fst (map_to_list services) |}.
    split; [|split; [reflexivity|]].
    + apply list_elem_of_In, in_map_iff. exists (G, services). split; [reflexivity|].
      apply list_elem_of_In, elem_of_map_to_list. exact Hg.
    + cbn. apply list_elem_of_In, in_map_iff. exists (s, b). split; [reflexivity|].
      apply list_elem_of_In, elem_of_map_to_list. exact Hs.
Qed.

Lemma groupsOfMap_nil (groupMap : gmap string (gmap string bool)) :
  groupsOfMap groupMap = [] <-> groupMap = ∅.
Proof.
  unfold groupsOfMap. rewrite <- map_to_list_empty_iff.
  destruct (map_to_list groupMap); cbn; split; congruence.
Qed.

(** X23: a build that lists the pods succeeds with a built graph whose groups
    are these: when some pod declares a group, a group lists a service
    exactly when some listed pod declares the service under that group's
    name; when no pod declares one, the built-in groups. *)
Theorem BuildFromAnnotations_groups (cs : Clientset) (dg : DependencyGraph)
    (pods : list Pod) :
  ListPods cs None = Some pods ->
  exists dg' : DependencyGraph,
    BuildFromAnnotations cs dg = Some dg'
    /\ IsBuilt dg' = true
    /\ ((exists (pod : Pod) (G s : string), pod ∈ pods /\ declares pod G s) ->
        forall G s : string,
          (exists g : RuntimeGroup, g ∈ GetGroups dg' /\ group_Name g = G
                                    /\ s ∈ group_Services g)
          <-> exists pod : Pod, pod ∈ pods /\ declares pod G s)
    /\ ((forall (pod : Pod) (G s : string), pod ∈ pods -> ~ declares pod G s) ->
        GetGroups dg' = experimentDefaults).
Proof.
  intros Hlist. unfold BuildFromAnnotations. rewrite Hlist.
  eexists. split; [reflexivity|]. split; [reflexivity|].
  unfold GetGroups. cbn [groups].
  set (groupMap := foldl scanPod ∅ pods).
  assert (Hscan : forall G s, lists groupMap G s
                              <-> exists pod : Pod, pod ∈ pods /\ declares pod G s).
  { intros G s. unfold groupMap. rewrite lists_scan. split; [|auto].
    intros [(services & Hg & _) | H]; [|exact H]. rewrite lookup_empty in Hg. discriminate. }
  split.
  - intros (pod & G0 & s0 & Hin & Hdecl) G s.
    assert (Hne : groupsOfMap groupMap <> []).
    { rewrite groupsOfMap_nil. intros Hempty.
      assert (Hl : lists groupMap G0 s0) by (apply Hscan; eauto).
      destruct Hl as (services & Hg & _). rewrite Hempty, lookup_empty in Hg. discriminate. }
    destruct (groupsOfMap groupMap) as [|g gs] eqn:Hgs; [congruence|].
    cbn [length Nat.eqb groups]. rewrite <- Hgs, groupsOfMap_elem. apply Hscan.
  - intros Hnone.
    assert (Hempty : groupMap = ∅).
    { apply map_eq. intros G. rewrite lookup_empty.
      destruct (groupMap !! G) as [services|] eqn:HG; [|reflexivity]. exfalso.
      assert (Hin : services <> ∅).
      { apply (scan_groups_inhabited pods ∅) with (G := G); [|exact HG].
        intros G' s' H. rewrite lookup_empty in H. discriminate. }
      apply map_choose in Hin as (s & b & Hs).
      assert (Hl : lists groupMap G s) by (exists services; eauto).
      apply Hscan in Hl as (pod & Hpod & Hdecl). exact (Hnone pod G s Hpod Hdecl). }
    apply groupsOfMap_nil in Hempty. rewrite Hempty. reflexivity.
Qed.

Lemma BuildFromAnnotations_groups_witness :
  exists dg' : DependencyGraph,
    BuildFromAnnotations (clusterOf [Samples.browsePod; Samples.spacedPod])
      NewDependencyGraph = Some dg'
    /\ IsBuilt dg' = true
    /\ ((exists (pod : Pod) (G s : string),
            pod ∈ [Samples.browsePod; Samples.spacedPod] /\ declares pod G s) ->
        forall G s : string,
          (exists g : RuntimeGroup, g ∈ GetGroups dg' /\ group_Name g = G
                                    /\ s ∈ group_Services g)
          <-> exists pod : Pod,
                pod ∈ [Samples.browsePod; Samples.spacedPod] /\ declares pod G s)
    /\ ((forall (pod : Pod) (G s : string),
            pod ∈ [Samples.browsePod; Samples.spacedPod] -> ~ declares pod G s) ->
        GetGroups dg' = experimentDefaults).
Proof.
  apply (BuildFromAnnotations_groups (clusterOf [Samples.browsePod; Samples.spacedPod])
           NewDependencyGraph [Samples.browsePod; Samples.spacedPod]).
  reflexivity.
Defined.

(** The build over these two pods: the no-break space and the ideographic
    space around the names of the second pod's dependencies are trimmed. *)
Example spaced_dependencies_trimmed :
  option_map GetGroups
    (BuildFromAnnotations (clusterOf [Samples.browsePod; Samples.spacedPod])
       NewDependencyGraph)
  = Some [ {| group_Name := "checkout";
              group_Services := ["currencyservice"; "checkoutservice"; "paymentservice"] |};
           {| group_Name := "browse";
              group_Services := ["currencyservice"; "frontend"; "productcatalogservice"] |} ].
Proof. vm_compute. reflexivity. Qed.

(** X24: a build that succeeds yields at least one group; the names of the groups
    differ pairwise; every group has a service and lists none twice; and the
    result does not depend on what the graph held before. *)
Theorem BuildFromAnnotations_wellformed (cs : Clientset) (dg dg' : DependencyGraph) :
  BuildFromAnnotations cs dg = Some dg' ->
  GetGroups dg' <> []
  /\ NoDup (map group_Name (GetGroups dg'))
  /\ Forall (fun g => group_Services g <> [] /\ NoDup (group_Services g)) (GetGroups dg')
  /\ forall other : DependencyGraph, BuildFromAnnotations cs other = Some dg'.
Proof.
  intros Hbuild. pose proof (BuildFromAnnotations_names cs dg dg' Hbuild) as Hnames.
  unfold BuildFromAnnotations in *.
  destruct (ListPods cs None) as [pods|]; [|discriminate].
  injection Hbuild as <-. unfold GetGroups. cbn [groups] in *.
  destruct (length (groupsOfMap (foldl scanPod ∅ pods)) =? 0)%nat eqn:Hlen;
    cbn [groups loadExperimentDefaults] in *;
    (split; [|split; [exact Hnames|split; [|reflexivity]]]).
  - discriminate.
  - repeat constructor; try discriminate; apply (bool_decide_unpack _); vm_compute; exact I.
  - destruct (groupsOfMap (foldl scanPod ∅ pods)); [discriminate Hlen | discriminate].
  - unfold groupsOfMap. apply Forall_forall. intros g Hg.
    apply list_elem_of_In, in_map_iff in Hg. destruct Hg as ([name services] & <- & Hin).
    apply list_elem_of_In, elem_of_map_to_list in Hin. cbn [group_Services].
    split; [|apply NoDup_fst_map_to_list].
    assert (Hne : services <> ∅).
    { apply (scan_groups_inhabited pods ∅) with (G := name); [|exact Hin].
      intros G' s' H. rewrite lookup_empty in H. discriminate. }
    intros Hnil. apply Hne. apply map_to_list_empty_iff.
    destruct (map_to_list services); [reflexivity | discriminate].
Qed.

Lemma BuildFromAnnotations_wellformed_witness :
  GetGroups (depGraph Samples.sOverlap) <> []
  /\ NoDup (map group_Name (GetGroups (depGraph Samples.sOverlap)))
  /\ Forall (fun g => group_Services g <> [] /\ NoDup (group_Services g))
            (GetGroups (depGraph Samples.sOverlap))
  /\ forall other : DependencyGraph,
       BuildFromAnnotations (clusterOf [Samples.browsePod; Samples.checkoutPod]) other
       = Some (depGraph Samples.sOverlap).
Proof.
  apply (BuildFromAnnotations_wellformed
           (clusterOf [Samples.browsePod; Samples.checkoutPod]) NewDependencyGraph
           (depGraph Samples.sOverlap)).
  vm_compute. reflexivity.
Defined.

(** *** The gauge of [/metrics], the group of a pod, the two loops *)

(** X26: in every reachable state the gauge [nexus_scheduler_state] that
    [/metrics] prints is 1 while ACTIVE and 0 while DORMANT. *)
Theorem metrics_gauge_shows_state (s : NEXUSScheduler) :
  Reachable s ->
  MetricsOutput.nexus_scheduler_state (MetricsOutput.WriteAllMetrics (metrics s))
  = match GetState s with StateIdle => 0 | StateActive => 1 end.
Proof.
  intros Hreach. destruct (Reachable_consistent s Hreach) as [Hlabel _ _ _ _].
  unfold MetricsOutput.WriteAllMetrics, GetState.
  cbn [MetricsOutput.nexus_scheduler_state].
  rewrite Hlabel. destruct (state s); cbn [State_String].
  - rewrite decide_False by discriminate. reflexivity.
  - rewrite decide_True by reflexivity. reflexivity.
Qed.

Lemma metrics_gauge_shows_state_witness :
  MetricsOutput.nexus_scheduler_state
    (MetricsOutput.WriteAllMetrics (metrics Samples.sActive)) = 1.
Proof.
  apply (metrics_gauge_shows_state Samples.sActive).
  exact (reach_poll Samples.worldSpike Samples.sIdle (Samples.clockFrom Samples.t0)
           (reach_start Samples.env0)).
Defined.

(** X27: the group of a pod is the first group, in the order of the graph,
    that lists the pod's service identifier; [IsInGroup] says whether there
    is one and [GetGroupMembers] gives its services, or the empty list when
    no group lists the identifier. *)
Theorem GetGroup_first_listing (dg : DependencyGraph) (pod : Pod) :
  match GetGroup dg pod with
  | Some g =>
      (exists before after : list RuntimeGroup,
          GetGroups dg = (before ++ g :: after)%list
          /\ Forall (fun g' => extractServiceName (pod_Name pod) ∉ group_Services g') before)
      /\ extractServiceName (pod_Name pod) ∈ group_Services g
      /\ IsInGroup dg pod = true
      /\ GetGroupMembers dg pod = group_Services g
  | None =>
      Forall (fun g => extractServiceName (pod_Name pod) ∉ group_Services g) (GetGroups dg)
      /\ IsInGroup dg pod = false
      /\ GetGroupMembers dg pod = []
  end.
Proof.
  unfold IsInGroup, GetGroupMembers, GetGroup, GetGroups.
  destruct (findGroup (extractServiceName (pod_Name pod)) (groups dg)) as [g|] eqn:Hfind.
  - destruct (findGroup_Some _ _ _ Hfind) as (before & after & Heq & Hin & Hbefore).
    split; [exists before, after; split; assumption|]. repeat split; assumption.
  - repeat split. apply findGroup_None. exact Hfind.
Qed.

(** X28: each loop works in one direction only: while the extender is ACTIVE
    the spike watcher changes nothing, whatever the ticks bring, and while
    it is DORMANT the cooldown checker changes nothing and does not read
    the clock. *)
Theorem loops_are_one_way (ticksSeen : list World) (s : NEXUSScheduler) (clk : Clock) :
  (GetState s = StateActive -> spikeWatcher ticksSeen (s, clk) = (s, clk))
  /\ (GetState s = StateIdle -> cooldownChecker ticksSeen (s, clk) = (s, clk)).
Proof.
  unfold spikeWatcher, cooldownChecker.
  split; intros Hstate; induction ticksSeen as [|w rest IH]; try reflexivity;
    cbn [foldl].
  - replace (checkForSpike w (s, clk)) with (s, clk); [exact IH|].
    unfold checkForSpike. rewrite Hstate. reflexivity.
  - replace (cooldownCheck w (s, clk)) with (s, clk); [exact IH|].
    unfold cooldownCheck. rewrite Hstate. reflexivity.
Qed.

Lemma loops_are_one_way_witness :
  spikeWatcher [Samples.worldSpike; Samples.worldQuiet]
    (Samples.sActive, Samples.clockFrom Samples.t0)
  = (Samples.sActive, Samples.clockFrom Samples.t0)
  /\ cooldownChecker [Samples.worldQuiet; Samples.worldDown]
       (Samples.sIdle, Samples.clockFrom Samples.t0)
     = (Samples.sIdle, Samples.clockFrom Samples.t0).
Proof.
  split.
  - apply (loops_are_one_way [Samples.worldSpike; Samples.worldQuiet] Samples.sActive
             (Samples.clockFrom Samples.t0)).
    vm_compute. reflexivity.
  - apply (loops_are_one_way [Samples.worldQuiet; Samples.worldDown] Samples.sIdle
             (Samples.clockFrom Samples.t0)).
    reflexivity.
Defined.

(** *** Latency histograms *)

Import Histogram.

Lemma searchLoop_bounds (fuel : nat) (f : nat -> bool) (i j : nat) :
  (i <= j)%nat -> (i <= searchLoop fuel f i j <= j)%nat.
Proof.
  revert i j. induction fuel as [|fuel IH]; intros i j Hij; cbn [searchLoop]; [lia|].
  destruct (Nat.ltb_spec i j) as [Hlt|Hge]; [|lia].
  assert (Hh : (i <= (i + j) / 2 < j)%nat).
  { split; [apply Nat.div_le_lower_bound; lia | apply Nat.Div0.div_lt_upper_bound; lia]. }
  destruct (f ((i + j) / 2)%nat); cbn [negb].
  - specialize (IH i ((i + j) / 2)%nat ltac:(lia)). lia.
  - specialize (IH ((i + j) / 2 + 1)%nat j ltac:(lia)). lia.
Qed.

Lemma SearchFloat64s_bound (a : list PrimFloat.float) (x : PrimFloat.float) :
  (SearchFloat64s a x <= length a)%nat.
Proof.
  unfold SearchFloat64s, Search. apply searchLoop_bounds. lia.
Qed.

Lemma total_nonneg (counts : list Z) : Forall (fun c => 0 <= c) counts -> 0 <= total counts.
Proof.
  induction 1 as [|x l Hx _ IH]; cbn; [lia|]. fold (total l). lia.
Qed.

Lemma total_insert (i : nat) (counts : list Z) (c : Z) :
  counts !! i = Some c ->
  Forall (fun c => 0 <= c) counts ->
  total counts < 2 ^ 62 ->
  total (<[i := Int64.incr c]> counts) = total counts + 1
  /\ Forall (fun c => 0 <= c) (<[i := Int64.incr c]> counts).
Proof.
  revert i. induction counts as [|y counts IH]; intros i Hi Hpos Hsmall.
  - discriminate Hi.
  - apply Forall_cons in Hpos as [Hy Hpos]. cbn [total foldr] in Hsmall.
    fold (total counts) in Hsmall.
    pose proof (total_nonneg counts Hpos) as Htot.
    destruct i as [|i].
    + cbn in Hi. injection Hi as ->. cbn. fold (total counts).
      rewrite incr_small by lia. split; [lia|]. constructor; [lia | exact Hpos].
    + cbn in Hi. destruct (IH i Hi Hpos ltac:(lia)) as (Ht & Hp).
      change (<[S i := Int64.incr c]> (y :: counts))
        with (y :: <[i := Int64.incr c]> counts).
      cbn [total foldr]. fold (total (<[i := Int64.incr c]> counts)). fold (total counts).
      rewrite Ht. split; [lia|]. constructor; assumption.
Qed.

(** With one counter more than boundaries, [Observe] never indexes out of
    range, and it keeps that shape. *)
Lemma Observe_sound (ms : PrimFloat.float) (h : LatencyHistogram) (n : Z) :
  sound h n -> 0 <= n < 2 ^ 62 ->
  exists h', Observe ms h = Some h' /\ sound h' (n + 1) /\ buckets h' = buckets h.
Proof.
  intros [Hlen Hpos Htot Hcount] Hn.
  pose proof (SearchFloat64s_bound (buckets h) ms) as Hb.
  assert (Hbump : forall i, (i <= length (buckets h))%nat ->
            exists cs, bump i (counts h) = Some cs
                       /\ length cs = S (length (buckets h))
                       /\ Forall (fun c => 0 <= c) cs /\ total cs = n + 1).
  { intros i Hi. unfold bump.
    destruct (lookup_lt_is_Some_2 (counts h) i ltac:(lia)) as [c Hc]. rewrite Hc.
    destruct (total_insert i (counts h) c Hc Hpos ltac:(lia)) as (Ht & Hp).
    eexists; split; [reflexivity|]. rewrite length_insert, Ht, Htot. auto. }
  unfold Observe.
  destruct (Nat.ltb_spec (SearchFloat64s (buckets h) ms) (length (buckets h))) as [Hlt|Hge].
  - destruct (Hbump (SearchFloat64s (buckets h) ms) ltac:(lia)) as (cs & Hcs & Hl & Hp & Ht).
    cbn [andb].
    assert (Hsame : forall b : bool,
              (if b then bump (SearchFloat64s (buckets h) ms) (counts h)
               else bump (SearchFloat64s (buckets h) ms) (counts h)) = Some cs).
    { intros []; exact Hcs. }
    rewrite Hsame. eexists; split; [reflexivity|]. split; [|reflexivity].
    constructor; cbn [counts buckets count]; auto.
    rewrite Hcount. apply incr_small. lia.
  - destruct (Hbump (length (buckets h)) ltac:(lia)) as (cs & Hcs & Hl & Hp & Ht).
    cbn [andb]. rewrite Hcs. eexists; split; [reflexivity|]. split; [|reflexivity].
    constructor; cbn [counts buckets count]; auto.
    rewrite Hcount. apply incr_small. lia.
Qed.

Lemma observeAll_sound (observations : list PrimFloat.float) (h : LatencyHistogram) (n : Z) :
  sound h n -> 0 <= n -> n + Z.of_nat (length observations) < 2 ^ 62 ->
  exists h', observeAll observations h = Some h'
             /\ sound h' (n + Z.of_nat (length observations))
             /\ buckets h' = buckets h.
Proof.
  revert h n.
  induction observations as [|ms rest IH]; intros h n Hs Hn Hsmall.
  - exists h. cbn. rewrite Z.add_0_r. auto.
  - cbn [observeAll length] in *.
    destruct (Observe_sound ms h n Hs ltac:(lia)) as (h1 & Hobs & Hs1 & Hb1).
    rewrite Hobs.
    destruct (IH h1 (n + 1) Hs1 ltac:(lia) ltac:(lia)) as (h' & Hall & Hs' & Hb).
    exists h'. split; [exact Hall|]. split; [|rewrite Hb; exact Hb1].
    replace (n + Z.of_nat (S (length rest))) with (n + 1 + Z.of_nat (length rest)) by lia.
    exact Hs'.
Qed.

Lemma total_take_le (k : nat) (counts : list Z) :
  Forall (fun c => 0 <= c) counts -> 0 <= total (take k counts) <= total counts.
Proof.
  revert k. induction counts as [|c counts IH]; intros k Hpos.
  - rewrite take_nil. cbn. lia.
  - apply Forall_cons in Hpos as [Hc Hpos]. destruct k as [|k]; cbn.
    + fold (total counts). pose proof (total_nonneg counts Hpos). lia.
    + fold (total (take k counts)). fold (total counts). specialize (IH k Hpos). lia.
Qed.

Lemma bucketLines_spec (boundaries : list PrimFloat.float) (counts : list Z)
    (i : nat) (c : Z) :
  (i + length boundaries <= length counts)%nat ->
  Forall (fun x => 0 <= x) counts ->
  0 <= c -> c + total (drop i counts) < 2 ^ 62 ->
  exists lines,
    bucketLines i c boundaries counts
      = Some (lines, c + total (take (length boundaries) (drop i counts)))
    /\ map fst lines = boundaries
    /\ Forall (fun line => c <= snd line
                           <= c + total (take (length boundaries) (drop i counts))) lines
    /\ Sorted.StronglySorted Z.le (map snd lines).
Proof.
  revert i c. induction boundaries as [|b rest IH]; intros i c Hlen Hpos Hc Hsmall.
  - exists []. cbn [length take total foldr bucketLines map]. rewrite Z.add_0_r.
    split; [reflexivity|]. split; [reflexivity|]. split; constructor.
  - cbn [length] in Hlen. cbn [bucketLines].
    destruct (lookup_lt_is_Some_2 counts i ltac:(lia)) as [x Hx].
    assert (Hx0 : 0 <= x).
    { rewrite Forall_forall in Hpos. apply Hpos. apply list_elem_of_lookup. eauto. }
    rewrite Hx. rewrite (drop_S _ _ _ Hx) in *.
    cbn [total foldr] in Hsmall. fold (total (drop (S i) counts)) in Hsmall.
    assert (Hrest : 0 <= total (drop (S i) counts)).
    { apply total_nonneg. apply Forall_drop. exact Hpos. }
    assert (Hadd : Int64.add c x = c + x).
    { unfold Int64.add. apply wrap64_id. int64_range. }
    rewrite Hadd.
    destruct (IH (S i) (c + x) ltac:(lia) Hpos ltac:(lia) ltac:(lia))
      as (lines & Hrun & Hfst & Hall & Hsorted).
    rewrite Hrun. cbn [length take total foldr].
    fold (total (take (length rest) (drop (S i) counts))).
    pose proof (total_take_le (length rest) (drop (S i) counts)
                  (Forall_drop _ _ _ Hpos)) as Hle.
    eexists. split; [f_equal; f_equal; lia|]. cbn [map fst snd].
    split; [rewrite Hfst; reflexivity|]. split.
    + constructor; [cbn; lia|]. eapply Forall_impl; [exact Hall|].
      intros line Hline. cbn in *. lia.
    + constructor; [exact Hsorted|]. rewrite Forall_map.
      eapply Forall_impl; [exact Hall|]. intros line Hline. cbn in *. lia.
Qed.

Lemma total_snoc (l : list Z) (x : Z) : total (l ++ [x]) = total l + x.
Proof.
  induction l as [|y l IH]; cbn; [lia|]. fold (total (l ++ [x])). fold (total l). lia.
Qed.

(** X25: a new histogram takes any observations without an index out of range,
    and what [WritePrometheus] then prints is consistent, as long as fewer
    than 2^62 observations were made: the count is the number of
    observations, the [+Inf] line equals the count, there is one line per
    boundary in the order of the boundaries, and the cumulative counts of
    the lines never go down and never exceed the count. *)
Theorem histogram_exposition_consistent (name help : string)
    (observations : list PrimFloat.float) :
  Z.of_nat (length observations) < 2 ^ 62 ->
  exists h e,
    observeAll observations (NewLatencyHistogram name help) = Some h
    /\ WritePrometheus h = Some e
    /\ exp_count e = Z.of_nat (length observations)
    /\ exp_inf e = Z.of_nat (length observations)
    /\ map fst (exp_buckets e) = buckets (NewLatencyHistogram name help)
    /\ Sorted.StronglySorted Z.le (map snd (exp_buckets e))
    /\ Forall (fun line => 0 <= snd line <= Z.of_nat (length observations))
         (exp_buckets e).
Proof.
  intros Hsmall.
  assert (Hnew : sound (NewLatencyHistogram name help) 0).
  { constructor; cbn; try reflexivity. repeat constructor; lia. }
  destruct (observeAll_sound observations _ 0 Hnew ltac:(lia) ltac:(lia))
    as (h & Hrun & Hs & Hb).
  rewrite Z.add_0_l in Hs. destruct Hs as [Hlen Hpos Htot Hcount].
  exists h. unfold WritePrometheus.
  destruct (bucketLines_spec (buckets h) (counts h) 0 0)
    as (lines & Hlines & Hfst & Hall & Hsorted).
  { rewrite Hlen. lia. } { exact Hpos. } { lia. } { rewrite drop_0. lia. }
  rewrite Hlines.
  destruct (lookup_lt_is_Some_2 (counts h) (length (buckets h)) ltac:(lia)) as [x Hx].
  rewrite Hx. eexists. split; [exact Hrun|]. split; [reflexivity|].
  cbn [exp_count exp_inf exp_buckets] in *. rewrite drop_0 in *.
  pose proof (total_take_le (length (buckets h)) (counts h) Hpos) as Hle.
  assert (Hsplit : total (counts h) = total (take (length (buckets h)) (counts h)) + x).
  { rewrite <- (take_drop (length (buckets h)) (counts h)) at 1.
    rewrite (drop_S _ _ _ Hx). rewrite drop_ge by lia. apply total_snoc. }
  assert (Hx0 : 0 <= x).
  { rewrite Forall_forall in Hpos. apply Hpos. apply list_elem_of_lookup. eauto. }
  split; [exact Hcount|]. split.
  - unfold Int64.add. rewrite wrap64_id by int64_range. lia.
  - split; [rewrite Hfst, Hb; reflexivity|]. split; [exact Hsorted|].
    eapply Forall_impl; [exact Hall|]. intros line Hline. cbn in *. lia.
Qed.

Lemma histogram_exposition_consistent_witness :
  exists (h : Histogram.LatencyHistogram) (e : Histogram.Exposition),
    Histogram.observeAll SampleReadings.latencies
      (Histogram.NewLatencyHistogram "nexus_extender_filter_latency_ms"
         "Overhead added to kube-scheduler Filter phase (ms)") = Some h
    /\ Histogram.WritePrometheus h = Some e
    /\ Histogram.exp_count e = 5
    /\ Histogram.exp_inf e = 5.
Proof.
  destruct (histogram_exposition_consistent "nexus_extender_filter_latency_ms"
              "Overhead added to kube-scheduler Filter phase (ms)"
              SampleReadings.latencies)
    as (h & e & Hrun & Hwrite & Hcount & Hinf & _).
  - vm_compute. reflexivity.
  - exists h, e. split; [exact Hrun|]. split; [exact Hwrite|].
    split; [exact Hcount | exact Hinf].
Defined.
